(** * Callbag operators: a shallow embedding and its verification

    The bundle [callbag-esbundle] ships the callbag operators as JavaScript
    closures: a source is a function [(start, sink)], a sink a function
    [(t, d)] with [t] one of 0 (START), 1 (DATA), 2 (END), and a talkback a
    function [(t, d)] handed to the sink with START.

    Every operator is a reactive object: its closures are entered by the
    code around it (the upstream sources, the downstream sink) and call out
    to that code, which may call back in before it returns.  The embedding
    keeps that shape.  The body of each closure is a program in a small free
    monad over the operator's closure variables, with one constructor for a
    call that leaves the operator.  An abstract machine runs these programs
    against the moves of the surrounding code: entering a closure, or
    returning from the call that is pending on top of the stack.

    Conventions.  Tags are the integers of the code.  A payload is a [Val];
    functions made outside the operator are opaque references.  A call of
    something that is not a function is the TypeError of JavaScript: it
    unwinds the stack and the run stops there.  Indices of arrays and
    sources are natural numbers, counters that the code increments and
    compares are integers.

    The first part holds the operators, one module each, next to the code
    they are taken from; the second part holds what is proved about them. *)

From Stdlib Require Import ZArith List Bool Lia String.
Import ListNotations.
Open Scope Z_scope.
Set Warnings "-register-all".

(** ** Values *)

(** The payloads that travel through the operators.  [VFn h] is a callable
    created outside the operator (a talkback, a source, a sink), compared by
    identity; [VObj h] is an object reference. *)
Inductive Val : Type :=
| VUndef
| VNum (z : Z)
| VStr (s : string)
| VArr (l : list Val)
| VFn (h : nat)
| VObj (h : nat).

(** [x && ...], [x || ...], [if (x)]: JavaScript truthiness. *)
Definition truthy (v : Val) : bool :=
  match v with
  | VUndef => false
  | VNum z => negb (z =? 0)
  | VStr s => negb (String.eqb s EmptyString)
  | _ => true
  end.

(** Only functions can be called; calling anything else throws a TypeError. *)
Definition callable (v : Val) : bool :=
  match v with
  | VFn _ => true
  | _ => false
  end.

(** [typeof x !== 'undefined'] and [typeof x === 'undefined'] (flatten). *)
Definition exists_ (x : Val) : bool :=
  match x with
  | VUndef => false
  | _ => true
  end.

Definition absent (x : Val) : bool := negb (exists_ x).

(** ** Programs of a closure body *)

(** [S] is the record of closure variables, [O] the calls that leave the
    operator.  [Throw] is an uncaught TypeError. *)
Inductive Prog (S O : Type) : Type :=
| Ret
| Throw
| Get (k : S -> Prog S O)
| Put (s : S) (k : Prog S O)
| Call (o : O) (k : Prog S O).

Arguments Ret {S O}.
Arguments Throw {S O}.
Arguments Get {S O} k.
Arguments Put {S O} s k.
Arguments Call {S O} o k.

Fixpoint seq {S O} (p q : Prog S O) : Prog S O :=
  match p with
  | Ret => q
  | Throw => Throw
  | Get k => Get (fun s => seq (k s) q)
  | Put s k => Put s (seq k q)
  | Call o k => Call o (seq k q)
  end.

Declare Scope prog_scope.
Delimit Scope prog_scope with prog.
Bind Scope prog_scope with Prog.
Notation "p ;; q" := (seq p q) (at level 61, right associativity) : prog_scope.
Open Scope prog_scope.

(** Assignment to closure variables. *)
Definition upd {S O} (f : S -> S) : Prog S O :=
  Get (fun s => Put (f s) Ret).

(** A call that leaves the operator. *)
Definition call {S O} (o : O) : Prog S O := Call o Ret.

(** [f(t, d)] where [f] is the current content of a closure variable: the
    variable is read when the call is made, and the call throws when the
    content is not a function. *)
Definition invoke {S O} (var : S -> Val) (mk : Val -> O) : Prog S O :=
  Get (fun s => if callable (var s) then Call (mk (var s)) Ret else Throw).

(** ** The machine *)

Section Machine.
Context {S I O : Type}.
Variable handler : I -> Prog S O.

(** Running a program up to its next call out. *)
Inductive Outcome : Type :=
| Finished (s : S)
| Crashed (s : S)
| Pending (s : S) (o : O) (k : Prog S O).

Fixpoint advance (p : Prog S O) (s : S) : Outcome :=
  match p with
  | Ret => Finished s
  | Throw => Crashed s
  | Get k => advance (k s) s
  | Put s' k => advance k s'
  | Call o k => Pending s o k
  end.

(** The closure variables, the activations suspended at a call out (the
    innermost first), and whether a TypeError has unwound the stack. *)
Record Config : Type := mkConfig {
  state : S;
  stack : list (Prog S O);
  crashed : bool
}.

(** What the surrounding code can do: enter one of the operator's closures,
    or return from the call that the innermost activation is waiting on. *)
Inductive Move : Type :=
| Enter (i : I)
| Return.

Definition settle (r : Outcome) (rest : list (Prog S O)) : Config * option O :=
  match r with
  | Finished s => (mkConfig s rest false, None)
  | Crashed s => (mkConfig s [] true, None)
  | Pending s o k => (mkConfig s (k :: rest) false, Some o)
  end.

Definition move (c : Config) (m : Move) : Config * option O :=
  if crashed c then (c, None)
  else match m with
       | Enter i => settle (advance (handler i) (state c)) (stack c)
       | Return =>
           match stack c with
           | [] => (c, None)
           | k :: rest => settle (advance k (state c)) rest
           end
       end.

(** A run, with its log: each move and the call out it led to, if any. *)
Fixpoint run (c : Config) (ms : list Move) : Config * list (Move * option O) :=
  match ms with
  | [] => (c, [])
  | m :: ms' =>
      let (c1, o) := move c m in
      let (c2, l) := run c1 ms' in
      (c2, (m, o) :: l)
  end.

(** The calls out of a log, in order. *)
Definition outs (l : list (Move * option O)) : list O :=
  flat_map (fun x => match snd x with Some o => [o] | None => [] end) l.

(** Invoking the operator's source function: its body runs from the initial
    closure variables up to its first call out. *)
Definition boot (body : Prog S O) (s0 : S) : Config * option O :=
  settle (advance body s0) [].

End Machine.

Arguments Enter {I} i.
Arguments Return {I}.

(** ** One activation under interference *)

(** The calls that one activation makes, each with the closure variables at
    the moment of the call.  While a call is pending the surrounding code
    may re-enter the operator; whatever it does there is summed up as a
    change of the closure variables, one per call.  The second component is
    the final content of the variables, [None] after a TypeError. *)
Section Play.
Context {S O : Type}.

(** What the surrounding code does to the variables during the next call. *)
Definition disturb (env : list (S -> S)) (s : S) : S :=
  match env with
  | [] => s
  | f :: _ => f s
  end.

Fixpoint play (p : Prog S O) (s : S) (env : list (S -> S))
  : list (O * S) * option S :=
  match p with
  | Ret => ([], Some s)
  | Throw => ([], None)
  | Get k => play (k s) s env
  | Put s' k => play k s' env
  | Call o k =>
      let r := play k (disturb env s) (tl env) in
      ((o, s) :: fst r, snd r)
  end.

(** The calls alone. *)
Definition calls (p : Prog S O) (s : S) (env : list (S -> S)) : list O :=
  map fst (fst (play p s env)).

End Play.

(** ** Two linked components *)

(** An upstream component whose calls out all go to the sink, and a
    downstream component whose calls out either enter the upstream one or
    are effects of its own (the user's callback).  A step runs the innermost
    activation to its next call and enters the callee; the trace lists the
    calls in order. *)
Section Link.
Context {SU IU OU SD ID OD : Type}.
Variable hU : IU -> Prog SU OU.
Variable hD : ID -> Prog SD OD.
Variable toD : OU -> ID.
Variable toU : OD -> option IU.

Inductive Frame : Type :=
| FU (p : Prog SU OU)
| FD (p : Prog SD OD).

Inductive LEvent : Type :=
| EvU (o : OU)
| EvD (o : OD).

Record LConfig : Type := mkLConfig {
  lsU : SU;
  lsD : SD;
  lstack : list Frame;
  ltrace : list LEvent;
  lcrashed : bool
}.

Definition lstep (c : LConfig) : option LConfig :=
  if lcrashed c then None
  else match lstack c with
  | [] => None
  | FU p :: rest =>
      match advance p (lsU c) with
      | Finished s => Some (mkLConfig s (lsD c) rest (ltrace c) false)
      | Crashed s => Some (mkLConfig s (lsD c) [] (ltrace c) true)
      | Pending s o k =>
          Some (mkLConfig s (lsD c) (FD (hD (toD o)) :: FU k :: rest)
                  (ltrace c ++ [EvU o]) false)
      end
  | FD p :: rest =>
      match advance p (lsD c) with
      | Finished s => Some (mkLConfig (lsU c) s rest (ltrace c) false)
      | Crashed s => Some (mkLConfig (lsU c) s [] (ltrace c) true)
      | Pending s o k =>
          match toU o with
          | Some i =>
              Some (mkLConfig (lsU c) s (FU (hU i) :: FD k :: rest)
                      (ltrace c ++ [EvD o]) false)
          | None =>
              Some (mkLConfig (lsU c) s (FD k :: rest)
                      (ltrace c ++ [EvD o]) false)
          end
      end
  end.

Fixpoint lrun (fuel : nat) (c : LConfig) : LConfig :=
  match fuel with
  | O => c
  | Datatypes.S fuel' =>
      match lstep c with
      | None => c
      | Some c' => lrun fuel' c'
      end
  end.

(** The run is over: no activation is left and nothing was thrown. *)
Definition lhalted (c : LConfig) : bool :=
  match lstack c with
  | [] => negb (lcrashed c)
  | _ => false
  end.

End Link.

Arguments FU {SU OU SD OD} p.
Arguments FD {SU OU SD OD} p.
Arguments EvU {OU OD} o.
Arguments EvD {OU OD} o.

(** ** Arrays *)

(** [a[i] = v] for an index inside the array (the operators only write at
    the loop indices [0 .. n-1] of an array made by [new Array(n)]). *)
Fixpoint set_nth {A} (i : nat) (v : A) (l : list A) : list A :=
  match l, i with
  | [], _ => []
  | _ :: r, O => v :: r
  | x :: r, Datatypes.S i' => x :: set_nth i' v r
  end.

(** [new Array(n)]: every slot reads as [undefined]. *)
Definition new_Array (n : nat) : list Val := repeat VUndef n.

(** [a.indexOf(k) > -1] on an array of function references. *)
Definition mem (k : nat) (l : list nat) : bool := existsb (Nat.eqb k) l.

(** [i = a.indexOf(k); if (i > -1) a.splice(i, 1)]: the first occurrence
    goes, if there is one. *)
Fixpoint remove_first (k : nat) (l : list nat) : list nat :=
  match l with
  | [] => []
  | x :: r => if Nat.eqb k x then r else x :: remove_first k r
  end.

(** * The operators *)

(** ** take *)

(** [[
const take = max => source => (start, sink) => {
  if (start !== 0) return;
  let taken = 0;
  let sourceTalkback;
  function talkback(t, d) {
    if (taken < max) sourceTalkback(t, d);
  }
  source(0, (t, d) => {
    if (t === 0) {
      sourceTalkback = d;
      sink(0, talkback);
    } else if (t === 1) {
      if (taken < max) {
        taken++;
        sink(t, d);
        if (taken === max) {
          sink(2);
          sourceTalkback(2);
        }
      }
    } else {
      sink(t, d);
    }
  });
};
]] *)

Module Take.

Record State : Type := mkState {
  taken : Z;
  sourceTalkback : Val
}.

Inductive In : Type :=
| Src (t : Z) (d : Val)   (* the sink handed to [source(0, ...)] *)
| Tb (t : Z) (d : Val).   (* [talkback], handed downstream with START *)

Inductive Out : Type :=
| SrcInvoke                      (* source(0, (t, d) => ...) *)
| SinkStart                      (* sink(0, talkback) *)
| Sink (t : Z) (d : Val)         (* sink(t, d) *)
| Up (f : Val) (t : Z) (d : Val). (* sourceTalkback(t, d) *)

Definition init : State := mkState 0 VUndef.

Definition set_sourceTalkback (d : Val) (s : State) : State :=
  mkState (taken s) d.

Definition incr_taken (s : State) : State :=
  mkState (taken s + 1) (sourceTalkback s).

Section WithMax.
Variable max : Z.

Definition talkback (t : Z) (d : Val) : Prog State Out :=
  Get (fun s =>
    if taken s <? max then invoke sourceTalkback (fun f => Up f t d)
    else Ret).

Definition from_source (t : Z) (d : Val) : Prog State Out :=
  if t =? 0 then
    upd (set_sourceTalkback d) ;;
    call SinkStart
  else if t =? 1 then
    Get (fun s =>
      if taken s <? max then
        upd incr_taken ;;
        call (Sink t d) ;;
        Get (fun s' =>
          if taken s' =? max then
            call (Sink 2 VUndef) ;;
            invoke sourceTalkback (fun f => Up f 2 VUndef)
          else Ret)
      else Ret)
  else
    call (Sink t d).

Definition handler (i : In) : Prog State Out :=
  match i with
  | Src t d => from_source t d
  | Tb t d => talkback t d
  end.

(** [take(max)(source)(start, sink)] *)
Definition body (start : Z) : Prog State Out :=
  if negb (start =? 0) then Ret
  else call SrcInvoke.

End WithMax.

(** A pull source that answers every PULL from inside the talkback call
    ([sink(0, t => { if (t === 1) sink(1, i++) })], [i] starting at 10),
    drained by [forEach]: the moves these two make around [take(2)]. *)
Definition sync_pull_moves : list (Move (I := In)) :=
  [ Enter (Src 0 (VFn 1));       (* the source greets: sink(0, tb) *)
    Enter (Tb 1 VUndef);         (* forEach, on START: talkback(1) *)
    Enter (Src 1 (VNum 10));     (* the source answers inside the pull *)
    Enter (Tb 1 VUndef);         (* forEach, on DATA: talkback(1) *)
    Enter (Src 1 (VNum 11));     (* the source answers inside the pull *)
    Enter (Tb 1 VUndef);         (* forEach, on DATA: talkback(1) *)
    Return;                      (* sink(1, 11) returns: END, ... *)
    Return;                      (* sink(2) returns: ... cancellation *)
    Return;                      (* sourceTalkback(2) returns *)
    Return;                      (* the second pull returns *)
    Return;                      (* sink(1, 10) returns: END again, ... *)
    Return;                      (* sink(2) returns: ... cancellation again *)
    Return;                      (* sourceTalkback(2) returns *)
    Return;                      (* the first pull returns *)
    Return;                      (* sink(0, talkback) returns *)
    Return ].                    (* source(0, ...) returns *)

(** The same [take(2)] over [fromIter([10, 11, 12])], again drained by
    [forEach]: a pull made while the loop of [fromIter] is running only
    sets [got1], and the next item is sent once the sink has returned. *)
Definition iter_moves : list (Move (I := In)) :=
  [ Enter (Src 0 (VFn 1));       (* fromIter greets: sink(0, tb) *)
    Enter (Tb 1 VUndef);         (* forEach, on START: talkback(1) *)
    Enter (Src 1 (VNum 10));     (* the loop sends 10 *)
    Enter (Tb 1 VUndef); Return; (* forEach pulls; fromIter sets got1 *)
    Return;                      (* sink(1, 10) returns *)
    Enter (Src 1 (VNum 11));     (* the loop sends 11 *)
    Enter (Tb 1 VUndef);         (* forEach pulls: past the limit *)
    Return;                      (* sink(1, 11) returns: END, ... *)
    Return;                      (* sink(2) returns: ... cancellation *)
    Return;                      (* sourceTalkback(2) returns *)
    Return;                      (* the loop is over: the first pull returns *)
    Return;                      (* sink(0, talkback) returns *)
    Return ].                    (* source(0, ...) returns *)

(** The DATA a log sends downstream. *)
Definition forwarded (log : list (Move (I := In) * option Out)) : list Val :=
  flat_map (fun x => match snd x with
                     | Some (Sink t d) => if t =? 1 then [d] else []
                     | _ => []
                     end) log.

(** What the upstream sink still has to do when [sink(1, d)] returns, and
    when [sink(2)] returns. *)
Definition after_data (max : Z) : Prog State Out :=
  Get (fun s' =>
    if taken s' =? max then
      call (Sink 2 VUndef) ;;
      invoke sourceTalkback (fun f => Up f 2 VUndef)
    else Ret).

Definition after_end : Prog State Out :=
  invoke sourceTalkback (fun f => Up f 2 VUndef).

(** A suspended activation that sends no DATA and leaves [taken] alone. *)
Definition harmless (max : Z) (p : Prog State Out) : Prop :=
  p = Ret \/ p = after_data max \/ p = after_end.

End Take.

(** ** scan *)

(** [[
function scan(reducer, seed) {
  let hasAcc = arguments.length === 2;
  return source => (start, sink) => {
    if (start !== 0) return;
    let acc = seed;
    source(0, (t, d) => {
      if (t === 1) {
        acc = hasAcc ? reducer(acc, d) : (hasAcc = true, d);
        sink(1, acc);
      } else sink(t, d);
    });
  };
}
]] *)

Module Scan.

(** [hasAcc] is declared in [scan(reducer, seed)] itself, so one variable is
    shared by every channel of the scanned source; [acc] is declared in the
    source function, one per channel.  Channels are numbered by the
    invocation that creates them. *)
Record State : Type := mkState {
  hasAcc : bool;
  accs : list (nat * Val)
}.

Inductive In : Type :=
| Invoke (ch : nat) (start : Z)     (* the scanned source is called *)
| Src (ch : nat) (t : Z) (d : Val). (* the sink handed to [source(0, ...)] *)

Inductive Out : Type :=
| SrcInvoke (ch : nat)              (* source(0, (t, d) => ...) *)
| Sink (ch : nat) (t : Z) (d : Val). (* sink(t, d) of channel ch *)

Fixpoint lookup (ch : nat) (l : list (nat * Val)) : Val :=
  match l with
  | [] => VUndef
  | (c, v) :: r => if Nat.eqb ch c then v else lookup ch r
  end.

Definition acc (ch : nat) (s : State) : Val := lookup ch (accs s).

Definition set_acc (ch : nat) (v : Val) (s : State) : State :=
  mkState (hasAcc s) ((ch, v) :: accs s).

Definition set_hasAcc (b : bool) (s : State) : State :=
  mkState b (accs s).

Section WithReducer.
Variable reducer : Val -> Val -> Val.
(** [None] when [scan] is called with the reducer alone. *)
Variable seed : option Val.

(** [let hasAcc = arguments.length === 2] *)
Definition init : State :=
  mkState (match seed with Some _ => true | None => false end) [].

Definition seed_value : Val :=
  match seed with
  | Some v => v
  | None => VUndef
  end.

Definition from_source (ch : nat) (t : Z) (d : Val) : Prog State Out :=
  if t =? 1 then
    Get (fun s =>
      if hasAcc s then upd (set_acc ch (reducer (acc ch s) d))
      else upd (set_hasAcc true) ;; upd (set_acc ch d)) ;;
    Get (fun s => call (Sink ch 1 (acc ch s)))
  else
    call (Sink ch t d).

Definition handler (i : In) : Prog State Out :=
  match i with
  | Invoke ch start =>
      if negb (start =? 0) then Ret
      else upd (set_acc ch seed_value) ;; call (SrcInvoke ch)
  | Src ch t d => from_source ch t d
  end.

End WithReducer.

(** [(a, v) => [a, v]] *)
Definition pair_reducer (a v : Val) : Val := VArr [a; v].

(** The scanned source [scan(reducer)(source)] is invoked, runs to its END,
    and is invoked again. *)
Definition two_channels : list (Move (I := In)) :=
  [ Enter (Invoke 0%nat 0); Return;
    Enter (Src 0%nat 1 (VNum 5)); Return;
    Enter (Src 0%nat 1 (VNum 6)); Return;
    Enter (Src 0%nat 2 VUndef); Return;
    Enter (Invoke 1%nat 0); Return;
    Enter (Src 1%nat 1 (VNum 7)); Return ].

End Scan.

(** ** merge *)

(** [[
function merge(...sources) {
  return (start, sink) => {
    if (start !== 0) return;
    const n = sources.length;
    const sourceTalkbacks = new Array(n);
    let startCount = 0;
    let endCount = 0;
    const talkback = t => {
      if (t === 0) return;
      for (let i = 0; i < n; i++) sourceTalkbacks[i] && sourceTalkbacks[i](t);
    };
    for (let i = 0; i < n; i++) {
      sources[i](0, (t, d) => {
        if (t === 0) {
          sourceTalkbacks[i] = d;
          if (++startCount === 1) sink(0, talkback);
        } else if (t === 2) {
          sourceTalkbacks[i] = void 0;
          if (++endCount === n) sink(2);
        } else sink(t, d);
      });
    }
  };
}
]] *)

Module Merge.

Record State : Type := mkState {
  sourceTalkbacks : list Val;
  startCount : Z;
  endCount : Z
}.

Inductive In : Type :=
| Src (i : nat) (t : Z) (d : Val)  (* the sink handed to [sources[i]] *)
| Tb (t : Z).                      (* [talkback] *)

Inductive Out : Type :=
| SrcInvoke (i : nat)              (* sources[i](0, (t, d) => ...) *)
| SinkStart                        (* sink(0, talkback) *)
| Sink (t : Z) (d : Val)           (* sink(t, d) *)
| Up (i : nat) (f : Val) (t : Z).  (* sourceTalkbacks[i](t) *)

Definition set_talkback (i : nat) (v : Val) (s : State) : State :=
  mkState (set_nth i v (sourceTalkbacks s)) (startCount s) (endCount s).

Definition incr_startCount (s : State) : State :=
  mkState (sourceTalkbacks s) (startCount s + 1) (endCount s).

Definition incr_endCount (s : State) : State :=
  mkState (sourceTalkbacks s) (startCount s) (endCount s + 1).

Section WithSources.
(** [sources.length] *)
Variable n : nat.

Definition init : State := mkState (new_Array n) 0 0.

(** [for (...) sourceTalkbacks[i] && sourceTalkbacks[i](t)], from the
    indices still to visit. *)
Fixpoint talkback_from (idx : list nat) (t : Z) : Prog State Out :=
  match idx with
  | [] => Ret
  | i :: rest =>
      Get (fun s =>
        let f := nth i (sourceTalkbacks s) VUndef in
        if truthy f then
          if callable f then Call (Up i f t) (talkback_from rest t)
          else Throw
        else talkback_from rest t)
  end.

Definition talkback (t : Z) : Prog State Out :=
  if t =? 0 then Ret
  else talkback_from (List.seq 0 n) t.

Definition from_source (i : nat) (t : Z) (d : Val) : Prog State Out :=
  if t =? 0 then
    upd (set_talkback i d) ;;
    upd incr_startCount ;;
    Get (fun s => if startCount s =? 1 then call SinkStart else Ret)
  else if t =? 2 then
    upd (set_talkback i VUndef) ;;
    upd incr_endCount ;;
    Get (fun s => if endCount s =? Z.of_nat n then call (Sink 2 VUndef) else Ret)
  else
    call (Sink t d).

Definition handler (i : In) : Prog State Out :=
  match i with
  | Src i t d => from_source i t d
  | Tb t => talkback t
  end.

Fixpoint invoke_from (idx : list nat) : Prog State Out :=
  match idx with
  | [] => Ret
  | i :: rest => Call (SrcInvoke i) (invoke_from rest)
  end.

(** [merge(...sources)(start, sink)] *)
Definition body (start : Z) : Prog State Out :=
  if negb (start =? 0) then Ret
  else invoke_from (List.seq 0 n).

(** A move the surrounding code can make: only the sinks handed to the [n]
    sources exist. *)
Definition possible (m : Move (I := In)) : bool :=
  match m with
  | Enter (Src i _ _) => Nat.ltb i n
  | _ => true
  end.

End WithSources.

(** Two sources are started and greet; then source 0 ends with [e]. *)
Definition first_fails (e : Val) : list (Move (I := In)) :=
  [ Enter (Src 0%nat 0 (VFn 1)); Return;   (* source 0: sink(0, tb0) *)
    Return;                                (* sources[0](0, ...) returns *)
    Enter (Src 1%nat 0 (VFn 2));           (* source 1: sink(0, tb1) *)
    Return;                                (* sources[1](0, ...) returns *)
    Enter (Src 0%nat 2 e) ].               (* source 0: sink(2, e) *)

End Merge.

(** ** sample *)

(** [[
const sample = pullable => listenable => (start, sink) => {
  if (start !== 0) return;
  let ltalkback;
  let ptalkback;
  listenable(0, (lt, ld) => {
    if (lt === 0) {
      ltalkback = ld;
      pullable(0, (pt, pd) => {
        if (pt === 0) ptalkback = pd;
        if (pt === 1) sink(1, pd);
        if (pt === 2) {
          ltalkback(2);
          sink(2);
        }
      });
      sink(0, t => {
        if (t === 2) {
          ltalkback(2);
          ptalkback(2);
        }
      });
    }
    if (lt === 1) ptalkback(1);
    if (lt === 2) {
      ptalkback(2);
      sink(2);
    }
  });
};
]] *)

Module Sample.

Record State : Type := mkState {
  ltalkback : Val;
  ptalkback : Val
}.

Inductive In : Type :=
| L (lt : Z) (ld : Val)   (* the sink handed to [listenable] *)
| P (pt : Z) (pd : Val)   (* the sink handed to [pullable] *)
| Tb (t : Z).             (* the talkback handed downstream *)

Inductive Out : Type :=
| ListenInvoke            (* listenable(0, ...) *)
| PullInvoke              (* pullable(0, ...) *)
| SinkStart               (* sink(0, t => ...) *)
| Sink (t : Z) (d : Val)  (* sink(t, d) *)
| LUp (f : Val) (t : Z)   (* ltalkback(t) *)
| PUp (f : Val) (t : Z).  (* ptalkback(t) *)

Definition init : State := mkState VUndef VUndef.

Definition set_ltalkback (v : Val) (s : State) : State :=
  mkState v (ptalkback s).

Definition set_ptalkback (v : Val) (s : State) : State :=
  mkState (ltalkback s) v.

Definition from_pullable (pt : Z) (pd : Val) : Prog State Out :=
  (if pt =? 0 then upd (set_ptalkback pd) else Ret) ;;
  (if pt =? 1 then call (Sink 1 pd) else Ret) ;;
  (if pt =? 2 then
     invoke ltalkback (fun f => LUp f 2) ;;
     call (Sink 2 VUndef)
   else Ret).

Definition talkback (t : Z) : Prog State Out :=
  if t =? 2 then
    invoke ltalkback (fun f => LUp f 2) ;;
    invoke ptalkback (fun f => PUp f 2)
  else Ret.

Definition from_listenable (lt : Z) (ld : Val) : Prog State Out :=
  (if lt =? 0 then
     upd (set_ltalkback ld) ;;
     call PullInvoke ;;
     call SinkStart
   else Ret) ;;
  (if lt =? 1 then invoke ptalkback (fun f => PUp f 1) else Ret) ;;
  (if lt =? 2 then
     invoke ptalkback (fun f => PUp f 2) ;;
     call (Sink 2 VUndef)
   else Ret).

Definition handler (i : In) : Prog State Out :=
  match i with
  | L lt ld => from_listenable lt ld
  | P pt pd => from_pullable pt pd
  | Tb t => talkback t
  end.

(** [sample(pullable)(listenable)(start, sink)] *)
Definition body (start : Z) : Prog State Out :=
  if negb (start =? 0) then Ret
  else call ListenInvoke.

(** Both sides greet, then the pullable side ends with the error [e]. *)
Definition pullable_fails (e : Val) : list (Move (I := In)) :=
  [ Enter (L 0 (VFn 1));   (* listenable: sink(0, ltb) *)
    Enter (P 0 (VFn 2));   (* pullable, inside pullable(0, ...): sink(0, ptb) *)
    Return;                (* pullable(0, ...) returns *)
    Return;                (* sink(0, t => ...) returns *)
    Return;                (* listenable(0, ...) returns *)
    Enter (P 2 e);         (* pullable: sink(2, e) *)
    Return; Return ].

End Sample.

(** ** combine *)

(** [[
const EMPTY = {};
const combine = (...sources) => (start, sink) => {
  if (start !== 0) return;
  const n = sources.length;
  if (n === 0) {
    sink(0, () => {});
    sink(1, []);
    sink(2);
    return;
  }
  let Ns = n; // start counter
  let Nd = n; // data counter
  let Ne = n; // end counter
  const vals = new Array(n);
  const sourceTalkbacks = new Array(n);
  const talkback = (t, d) => {
    if (t === 0) return;
    for (let i = 0; i < n; i++) sourceTalkbacks[i](t, d);
  };
  sources.forEach((source, i) => {
    vals[i] = EMPTY;
    source(0, (t, d) => {
      if (t === 0) {
        sourceTalkbacks[i] = d;
        if (--Ns === 0) sink(0, talkback);
      } else if (t === 1) {
        const _Nd = !Nd ? 0 : vals[i] === EMPTY ? --Nd : Nd;
        vals[i] = d;
        if (_Nd === 0) {
          const arr = new Array(n);
          for (let j = 0; j < n; ++j) arr[j] = vals[j];
          sink(1, arr);
        }
      } else if (t === 2) {
        if (--Ne === 0) sink(2);
      } else {
        sink(t, d);
      }
    });
  });
};
]] *)

Module Combine.

(** [const EMPTY = {}]: an object of the module that no other code holds. *)
Definition EMPTY : Val := VObj 0.

(** [x === EMPTY] *)
Definition is_EMPTY (v : Val) : bool :=
  match v with
  | VObj O => true
  | _ => false
  end.

Record State : Type := mkState {
  Ns : Z;
  Nd : Z;
  Ne : Z;
  vals : list Val;
  sourceTalkbacks : list Val
}.

Inductive In : Type :=
| Src (i : nat) (t : Z) (d : Val)  (* the sink handed to source i *)
| Tb (t : Z) (d : Val).            (* [talkback] *)

Inductive Out : Type :=
| SrcInvoke (i : nat)              (* source(0, (t, d) => ...) *)
| SinkStart                        (* sink(0, talkback) *)
| SinkStartInert                   (* sink(0, () => {}) *)
| Sink (t : Z) (d : Val)           (* sink(t, d) *)
| Up (i : nat) (f : Val) (t : Z) (d : Val). (* sourceTalkbacks[i](t, d) *)

Definition set_Ns (z : Z) (s : State) : State :=
  mkState z (Nd s) (Ne s) (vals s) (sourceTalkbacks s).

Definition set_Nd (z : Z) (s : State) : State :=
  mkState (Ns s) z (Ne s) (vals s) (sourceTalkbacks s).

Definition set_Ne (z : Z) (s : State) : State :=
  mkState (Ns s) (Nd s) z (vals s) (sourceTalkbacks s).

Definition set_val (i : nat) (v : Val) (s : State) : State :=
  mkState (Ns s) (Nd s) (Ne s) (set_nth i v (vals s)) (sourceTalkbacks s).

Definition set_talkback (i : nat) (v : Val) (s : State) : State :=
  mkState (Ns s) (Nd s) (Ne s) (vals s) (set_nth i v (sourceTalkbacks s)).

Section WithSources.
(** [sources.length] *)
Variable n : nat.

Definition init : State :=
  mkState (Z.of_nat n) (Z.of_nat n) (Z.of_nat n) (new_Array n) (new_Array n).

(** [for (let i = 0; i < n; i++) sourceTalkbacks[i](t, d)] *)
Fixpoint talkback_from (idx : list nat) (t : Z) (d : Val) : Prog State Out :=
  match idx with
  | [] => Ret
  | i :: rest =>
      Get (fun s =>
        let f := nth i (sourceTalkbacks s) VUndef in
        if callable f then Call (Up i f t d) (talkback_from rest t d)
        else Throw)
  end.

Definition talkback (t : Z) (d : Val) : Prog State Out :=
  if t =? 0 then Ret
  else talkback_from (List.seq 0 n) t d.

(** [arr = new Array(n); for (let j = 0; j < n; ++j) arr[j] = vals[j]] *)
Definition copy_vals (s : State) : list Val :=
  map (fun j => nth j (vals s) VUndef) (List.seq 0 n).

Definition from_source (i : nat) (t : Z) (d : Val) : Prog State Out :=
  if t =? 0 then
    upd (set_talkback i d) ;;
    upd (fun s => set_Ns (Ns s - 1) s) ;;
    Get (fun s => if Ns s =? 0 then call SinkStart else Ret)
  else if t =? 1 then
    Get (fun s =>
      (* const _Nd = !Nd ? 0 : vals[i] === EMPTY ? --Nd : Nd *)
      let fresh := negb (Nd s =? 0) && is_EMPTY (nth i (vals s) VUndef) in
      let _Nd := if Nd s =? 0 then 0 else if fresh then Nd s - 1 else Nd s in
      (if fresh then upd (set_Nd (Nd s - 1)) else Ret) ;;
      upd (set_val i d) ;;
      (if _Nd =? 0 then
         Get (fun s' => call (Sink 1 (VArr (copy_vals s'))))
       else Ret))
  else if t =? 2 then
    upd (fun s => set_Ne (Ne s - 1) s) ;;
    Get (fun s => if Ne s =? 0 then call (Sink 2 VUndef) else Ret)
  else
    call (Sink t d).

Definition handler (i : In) : Prog State Out :=
  match i with
  | Src i t d => from_source i t d
  | Tb t d => talkback t d
  end.

(** [sources.forEach((source, i) => { vals[i] = EMPTY; source(0, ...) })] *)
Fixpoint invoke_from (idx : list nat) : Prog State Out :=
  match idx with
  | [] => Ret
  | i :: rest =>
      upd (set_val i EMPTY) ;;
      Call (SrcInvoke i) (invoke_from rest)
  end.

(** [combine(...sources)(start, sink)] *)
Definition body (start : Z) : Prog State Out :=
  if negb (start =? 0) then Ret
  else if Nat.eqb n 0 then
    call SinkStartInert ;;
    call (Sink 1 (VArr [])) ;;
    call (Sink 2 VUndef)
  else invoke_from (List.seq 0 n).

End WithSources.

(** *** What the sources have sent *)

(** The DATA a move delivers: [(i, d)] when source [i] sends [d]. *)
Definition datum (m : Move (I := In)) : list (nat * Val) :=
  match m with
  | Enter (Src i t d) => if t =? 1 then [(i, d)] else []
  | _ => []
  end.

(** The DATA delivered in a log, oldest first. *)
Definition history (log : list (Move (I := In) * option Out)) : list (nat * Val) :=
  flat_map (fun x => datum (fst x)) log.

(** The latest value of source [j], if it has sent one. *)
Fixpoint latest (j : nat) (h : list (nat * Val)) : option Val :=
  match h with
  | [] => None
  | (i, d) :: r =>
      match latest j r with
      | Some v => Some v
      | None => if Nat.eqb i j then Some d else None
      end
  end.

Definition has_sent (h : list (nat * Val)) (j : nat) : bool :=
  match latest j h with
  | Some _ => true
  | None => false
  end.

(** Every one of the [n] sources has sent a value. *)
Definition filled (n : nat) (h : list (nat * Val)) : bool :=
  forallb (has_sent h) (List.seq 0 n).

(** The latest values, in argument order. *)
Definition tuple (n : nat) (h : list (nat * Val)) : list Val :=
  map (fun j => match latest j h with Some v => v | None => VUndef end)
      (List.seq 0 n).

(** How many of the first [n] sources have sent nothing yet. *)
Fixpoint missing (n : nat) (h : list (nat * Val)) : nat :=
  match n with
  | O => O
  | Datatypes.S m => (missing m h + (if has_sent h m then 0 else 1))%nat
  end.

(** The sources invoked by a call out. *)
Definition invoked (o : option Out) : list nat :=
  match o with
  | Some (SrcInvoke i) => [i]
  | _ => []
  end.

(** A move the surrounding code can make: the sink handed to source [i] is
    entered only once source [i] has been invoked ([started] lists the
    sources invoked so far), and no source sends [EMPTY], which it cannot
    hold.  A log is valid when each of its moves is. *)
Definition admissible (started : list nat) (m : Move (I := In)) : bool :=
  match m with
  | Enter (Src i t d) =>
      existsb (Nat.eqb i) started && negb ((t =? 1) && is_EMPTY d)
  | _ => true
  end.

Fixpoint valid_from (started : list nat)
         (log : list (Move (I := In) * option Out)) : bool :=
  match log with
  | [] => true
  | (m, o) :: rest =>
      admissible started m && valid_from (invoked o ++ started) rest
  end.

(** An activation that neither touches [vals] and [Nd] nor sends DATA: it
    has nothing left to do, or is inside the loop of [talkback]. *)
Definition inert (n : nat) (p : Prog State Out) : Prop :=
  p = Ret \/ exists idx t d, p = talkback_from idx t d.

(** The stack while sources [0 .. k-1] have been invoked: inert activations
    above the body of [combine], which is waiting for source [k-1] to return
    and has sources [k ..] still to invoke, or is gone when all are invoked. *)
Definition stack_ok (n k : nat) (st : list (Prog State Out)) : Prop :=
  exists top bottom,
    st = top ++ bottom /\
    Forall (inert n) top /\
    (bottom = [invoke_from (List.seq k (n - k))] \/ (bottom = [] /\ k = n)).

(** What links the closure variables to the DATA received so far. *)
Definition invariant (n k : nat) (h : list (nat * Val)) (c : Config) : Prop :=
  (k <= n)%nat /\
  List.length (vals (state c)) = n /\
  (forall j, (j < n)%nat ->
     nth j (vals (state c)) VUndef =
       match latest j h with
       | Some v => v
       | None => if Nat.ltb j k then EMPTY else VUndef
       end) /\
  Nd (state c) = Z.of_nat (missing n h) /\
  (forall i d, List.In (i, d) h -> (i < k)%nat /\ is_EMPTY d = false) /\
  stack_ok n k (stack c) /\
  crashed c = false.

(** What a move must lead to, [h] being the DATA received up to and
    including this move: a DATA from a source leads to the tuple of the
    latest values if every source has sent one, and to nothing otherwise;
    and DATA is sent downstream by nothing but a DATA from a source. *)
Definition answers (n : nat) (h : list (nat * Val))
           (m : Move (I := In)) (o : option Out) : Prop :=
  (forall i d, m = Enter (Src i 1 d) ->
     o = if filled n h then Some (Sink 1 (VArr (tuple n h))) else None) /\
  (forall x, o = Some (Sink 1 x) -> exists i d, m = Enter (Src i 1 d)).

(** [combine(a, b)]: both sources greet, [a] sends 10, [b] sends 20, and
    [a] sends 11. *)
Definition two_sources : list (Move (I := In)) :=
  [ Enter (Src 0%nat 0 (VFn 1));      (* a: sink(0, ta) *)
    Return;                           (* a(0, ...) returns; b is invoked *)
    Enter (Src 1%nat 0 (VFn 2));      (* b: sink(0, tb) *)
    Return; Return;                   (* sink(0, talkback), b(0, ...) return *)
    Enter (Src 0%nat 1 (VNum 10));
    Enter (Src 1%nat 1 (VNum 20)); Return;
    Enter (Src 0%nat 1 (VNum 11)); Return ].

End Combine.

(** ** flatten *)

(** [[
const flatten = source => (start, sink) => {
  if (start !== 0) return;
  const exists = x => typeof x !== 'undefined';
  const absent = x => typeof x === 'undefined';
  const noop = () => {};
  let outerEnded = false;
  let outerTalkback;
  let innerTalkback;
  function talkback(t, d) {
    if (t === 1) (innerTalkback || outerTalkback || noop)(1, d);
    if (t === 2) {
      innerTalkback && innerTalkback(2);
      outerTalkback && outerTalkback(2);
    }
  }
  source(0, (T, D) => {
    if (T === 0) {
      outerTalkback = D;
      sink(0, talkback);
    } else if (T === 1) {
      const innerSource = D;
      if (innerTalkback) innerTalkback(2);
      innerSource(0, (t, d) => {
        if (t === 0) {
          innerTalkback = d;
          innerTalkback(1);
        } else if (t === 1) sink(1, d);
        else if (t === 2 && absent(d)) {
          if (outerEnded) sink(2);
          else {
            innerTalkback = void 0;
            outerTalkback(1);
          }
        } else if (t === 2 && exists(d)) sink(2, d);
      });
    } else if (T === 2 && absent(D)) {
      if (!innerTalkback) sink(2);
      else outerEnded = true;
    } else if (T === 2 && exists(D)) sink(2, D);
  });
};
]] *)

Module Flatten.

Record State : Type := mkState {
  outerEnded : bool;
  outerTalkback : Val;
  innerTalkback : Val
}.

Inductive In : Type :=
| Outer (T : Z) (D : Val)   (* the sink handed to the outer source *)
| Inner (t : Z) (d : Val)   (* the sink handed to an inner source *)
| Tb (t : Z) (d : Val).     (* [talkback] *)

Inductive Out : Type :=
| OuterInvoke                         (* source(0, (T, D) => ...) *)
| SinkStart                           (* sink(0, talkback) *)
| Sink (t : Z) (d : Val)              (* sink(t, d) *)
| InnerInvoke (src : Val)             (* innerSource(0, (t, d) => ...) *)
| UpInner (f : Val) (t : Z) (d : Val)   (* innerTalkback(t, d) *)
| UpOuter (f : Val) (t : Z) (d : Val).  (* outerTalkback(t, d) *)

Definition init : State := mkState false VUndef VUndef.

Definition set_outerEnded (b : bool) (s : State) : State :=
  mkState b (outerTalkback s) (innerTalkback s).

Definition set_outerTalkback (v : Val) (s : State) : State :=
  mkState (outerEnded s) v (innerTalkback s).

Definition set_innerTalkback (v : Val) (s : State) : State :=
  mkState (outerEnded s) (outerTalkback s) v.

(** [x && x(2)] *)
Definition and_call (var : State -> Val) (mk : Val -> Out) : Prog State Out :=
  Get (fun s =>
    if truthy (var s) then
      if callable (var s) then Call (mk (var s)) Ret else Throw
    else Ret).

Definition talkback (t : Z) (d : Val) : Prog State Out :=
  (if t =? 1 then
     (* (innerTalkback || outerTalkback || noop)(1, d) *)
     Get (fun s =>
       if truthy (innerTalkback s) then
         if callable (innerTalkback s)
         then Call (UpInner (innerTalkback s) 1 d) Ret else Throw
       else if truthy (outerTalkback s) then
         if callable (outerTalkback s)
         then Call (UpOuter (outerTalkback s) 1 d) Ret else Throw
       else Ret)
   else Ret) ;;
  (if t =? 2 then
     and_call innerTalkback (fun f => UpInner f 2 VUndef) ;;
     and_call outerTalkback (fun f => UpOuter f 2 VUndef)
   else Ret).

Definition from_inner (t : Z) (d : Val) : Prog State Out :=
  if t =? 0 then
    upd (set_innerTalkback d) ;;
    invoke innerTalkback (fun f => UpInner f 1 VUndef)
  else if t =? 1 then
    call (Sink 1 d)
  else if (t =? 2) && absent d then
    Get (fun s =>
      if outerEnded s then call (Sink 2 VUndef)
      else
        upd (set_innerTalkback VUndef) ;;
        invoke outerTalkback (fun f => UpOuter f 1 VUndef))
  else if (t =? 2) && exists_ d then
    call (Sink 2 d)
  else Ret.

Definition from_outer (T : Z) (D : Val) : Prog State Out :=
  if T =? 0 then
    upd (set_outerTalkback D) ;;
    call SinkStart
  else if T =? 1 then
    and_call innerTalkback (fun f => UpInner f 2 VUndef) ;;
    (if callable D then call (InnerInvoke D) else Throw)
  else if (T =? 2) && absent D then
    Get (fun s =>
      if negb (truthy (innerTalkback s)) then call (Sink 2 VUndef)
      else upd (set_outerEnded true))
  else if (T =? 2) && exists_ D then
    call (Sink 2 D)
  else Ret.

Definition handler (i : In) : Prog State Out :=
  match i with
  | Outer T D => from_outer T D
  | Inner t d => from_inner t d
  | Tb t d => talkback t d
  end.

(** [flatten(source)(start, sink)] *)
Definition body (start : Z) : Prog State Out :=
  if negb (start =? 0) then Ret
  else call OuterInvoke.

(** The outer source greets and hands over one inner source; the inner
    source greets and is pulled.  Both sides are live. *)
Definition both_live : list (Move (I := In)) :=
  [ Enter (Outer 0 (VFn 1)); Return;     (* outer: sink(0, otb) *)
    Return;                              (* source(0, ...) returns *)
    Enter (Outer 1 (VFn 10));            (* outer: sink(1, innerSource) *)
    Enter (Inner 0 (VFn 2)); Return;     (* inner: sink(0, itb); pulled *)
    Return ].                            (* innerSource(0, ...) returns *)

End Flatten.

(** ** concat *)

(** [[
const concat = (...sources) => (start, sink) => {
  if (start !== 0) return;
  const n = sources.length;
  if (n === 0) {
    sink(0, () => {});
    sink(2);
    return;
  }
  let i = 0;
  let sourceTalkback;
  const talkback = (t, d) => {
    if (t === 1 || t === 2) {
      sourceTalkback(t, d);
    }
  };
  (function next() {
    if (i === n) {
      sink(2);
      return;
    }
    sources[i](0, (t, d) => {
      if (t === 0) {
        sourceTalkback = d;
        if (i === 0) sink(0, talkback);
        else sourceTalkback(1);
      } else if (t === 1) {
        sink(1, d);
      } else if (t === 2) {
        i++;
        next();
      }
    });
  })();
};
]] *)

Module Concat.

Record State : Type := mkState {
  i : Z;
  sourceTalkback : Val
}.

(** The sink handed to [sources[j]] is made anew by each call of [next];
    its code does not depend on [j], which only says whose sink is entered. *)
Inductive In : Type :=
| Src (j : nat) (t : Z) (d : Val)
| Tb (t : Z) (d : Val).            (* [talkback] *)

Inductive Out : Type :=
| SrcInvoke (j : Z)                (* sources[i](0, (t, d) => ...) *)
| SinkStart                        (* sink(0, talkback) *)
| SinkStartInert                   (* sink(0, () => {}) *)
| Sink (t : Z) (d : Val)           (* sink(t, d) *)
| Up (f : Val) (t : Z) (d : Val).  (* sourceTalkback(t, d) *)

Definition init : State := mkState 0 VUndef.

Definition set_i (z : Z) (s : State) : State :=
  mkState z (sourceTalkback s).

Definition set_sourceTalkback (v : Val) (s : State) : State :=
  mkState (i s) v.

Section WithSources.
(** [sources.length] *)
Variable n : nat.

Definition talkback (t : Z) (d : Val) : Prog State Out :=
  if (t =? 1) || (t =? 2) then invoke sourceTalkback (fun f => Up f t d)
  else Ret.

(** [sources[i]] is a function for [0 <= i < n] and [undefined] outside,
    where calling it throws. *)
Definition next : Prog State Out :=
  Get (fun s =>
    if i s =? Z.of_nat n then call (Sink 2 VUndef)
    else if (0 <=? i s) && (i s <? Z.of_nat n) then call (SrcInvoke (i s))
    else Throw).

Definition from_source (t : Z) (d : Val) : Prog State Out :=
  if t =? 0 then
    upd (set_sourceTalkback d) ;;
    Get (fun s =>
      if i s =? 0 then call SinkStart
      else invoke sourceTalkback (fun f => Up f 1 VUndef))
  else if t =? 1 then
    call (Sink 1 d)
  else if t =? 2 then
    upd (fun s => set_i (i s + 1) s) ;;
    next
  else Ret.

Definition handler (m : In) : Prog State Out :=
  match m with
  | Src _ t d => from_source t d
  | Tb t d => talkback t d
  end.

(** [concat(...sources)(start, sink)] *)
Definition body (start : Z) : Prog State Out :=
  if negb (start =? 0) then Ret
  else if Nat.eqb n 0 then
    call SinkStartInert ;;
    call (Sink 2 VUndef)
  else next.

End WithSources.

(** *** What a log says *)

Definition Entry : Type := (Move (I := In) * option Out)%type.

(** The sources invoked so far: source 0 by the body, then those of the log. *)
Definition invoked (log : list Entry) : list Z :=
  0 :: flat_map (fun x => match snd x with
                          | Some (SrcInvoke z) => [z]
                          | _ => []
                          end) log.

(** The sources that have sent END, and those that have sent START. *)
Definition ended (log : list Entry) : list nat :=
  flat_map (fun x => match fst x with
                     | Enter (Src j t _) => if t =? 2 then [j] else []
                     | _ => []
                     end) log.

Definition greeted (log : list Entry) : list nat :=
  flat_map (fun x => match fst x with
                     | Enter (Src j t _) => if t =? 0 then [j] else []
                     | _ => []
                     end) log.

(** The DATA sent by source [j], and the DATA sent downstream, in order. *)
Definition src_data (j : nat) (log : list Entry) : list Val :=
  flat_map (fun x => match fst x with
                     | Enter (Src j' t d) =>
                         if (t =? 1) && Nat.eqb j' j then [d] else []
                     | _ => []
                     end) log.

Definition sink_data (log : list Entry) : list Val :=
  flat_map (fun x => match snd x with
                     | Some (Sink t d) => if t =? 1 then [d] else []
                     | _ => []
                     end) log.

(** How many times START was sent downstream. *)
Definition starts_down (log : list Entry) : nat :=
  List.length (filter (fun x => match snd x with
                                | Some SinkStart => true
                                | _ => false
                                end) log).

(** A move that well-behaved sources can make after [log]: source [j]
    speaks only once it has been invoked, says nothing after its END, and
    greets at most once. *)
Definition admissible (log : list Entry) (m : Move (I := In)) : bool :=
  match m with
  | Enter (Src j t _) =>
      existsb (Z.eqb (Z.of_nat j)) (invoked log)
      && negb (mem j (ended log))
      && negb ((t =? 0) && mem j (greeted log))
  | _ => true
  end.

Fixpoint valid_rev (newest_first : list Entry) : bool :=
  match newest_first with
  | [] => true
  | x :: older => admissible (rev older) (fst x) && valid_rev older
  end.

(** Every move of the log is admissible after the moves before it. *)
Definition valid (log : list Entry) : bool := valid_rev (rev log).

(** What a move leads to: a source is invoked only in answer to the END of
    the source before it; START goes downstream in answer to the START of
    source 0 and to nothing else; the START of a later source is answered
    by a PULL on the talkback it carries; a DATA is passed on as it is. *)
Definition answers (m : Move (I := In)) (o : option Out) : Prop :=
  (forall z, o = Some (SrcInvoke z) ->
     exists j d, m = Enter (Src j 2 d) /\ z = Z.of_nat j + 1) /\
  (o = Some SinkStart <-> exists d, m = Enter (Src 0%nat 0 d)) /\
  (forall j d, m = Enter (Src (Datatypes.S j) 0 d) -> o = Some (Up d 1 VUndef)) /\
  (forall j d, m = Enter (Src j 1 d) -> o = Some (Sink 1 d)).

(** The talkbacks that the sources have brought with their STARTs. *)
Definition greetings (log : list Entry) : list Val :=
  flat_map (fun x => match fst x with
                     | Enter (Src _ t d) => if t =? 0 then [d] else []
                     | _ => []
                     end) log.

(** What the END of a source leads to, and what leads to an END downstream:
    the END of source [j] is answered by invoking source [j + 1], or by an
    END without payload downstream when [j] is the last of the [n] sources,
    and an END goes downstream in answer to nothing else. *)
Definition hands_over (n : nat) (m : Move (I := In)) (o : option Out) : Prop :=
  (forall j d, m = Enter (Src j 2 d) ->
     o = Some (if Z.of_nat j + 1 =? Z.of_nat n then Sink 2 VUndef
               else SrcInvoke (Z.of_nat j + 1))) /\
  (forall d', o = Some (Sink 2 d') ->
     d' = VUndef /\
     exists j d, m = Enter (Src j 2 d) /\ Z.of_nat j + 1 = Z.of_nat n).

(** What holds of the log so far and the closure variables, [k] being the
    number of sources that have ended. *)
Definition invariant (n : nat) (log : list Entry)
           (c : Config (S := State) (O := Out)) : Prop :=
  let k := List.length (ended log) in
  (k <= n)%nat /\
  i (state c) = Z.of_nat k /\
  Forall (eq Ret) (stack c) /\
  crashed c = false /\
  ended log = List.seq 0 k /\
  invoked log = map Z.of_nat (List.seq 0 (Nat.min (k + 1) n)) /\
  NoDup (greeted log) /\
  Forall (fun x => answers (fst x) (snd x)) log /\
  starts_down log = count_occ Nat.eq_dec (greeted log) 0%nat /\
  (forall j, (k < j)%nat -> src_data j log = []) /\
  sink_data log = flat_map (fun j => src_data j log) (List.seq 0 n).

(** [concat(a, b)]: [a] greets, is pulled, sends 1 and ends; [b] is then
    invoked, greets, sends 2 and ends. *)
Definition a_then_b : list (Move (I := In)) :=
  [ Enter (Src 0%nat 0 (VFn 1)); Return;    (* a: sink(0, ta) *)
    Return;                                 (* a(0, ...) returns *)
    Enter (Tb 1 VUndef); Return;            (* downstream pulls *)
    Enter (Src 0%nat 1 (VNum 1)); Return;   (* a: sink(1, 1) *)
    Enter (Src 0%nat 2 VUndef);             (* a: sink(2); b is invoked *)
    Enter (Src 1%nat 0 (VFn 2)); Return;    (* b: sink(0, tb); b is pulled *)
    Return;                                 (* b(0, ...) returns *)
    Enter (Src 1%nat 1 (VNum 2)); Return;   (* b: sink(1, 2) *)
    Enter (Src 1%nat 2 VUndef); Return ].   (* b: sink(2); END downstream *)

End Concat.

(** ** share *)

(** [[
const share = source => {
  let sinks = [];
  let sourceTalkback;
  return function shared(start, sink) {
    if (start !== 0) return;
    sinks.push(sink);
    const talkback = (t, d) => {
      if (t === 0) return;
      if (t === 2) {
        const i = sinks.indexOf(sink);
        if (i > -1) sinks.splice(i, 1);
        if (!sinks.length) sourceTalkback(2);
      } else {
        sourceTalkback(t, d);
      }
    };
    if (sinks.length === 1) {
      source(0, (t, d) => {
        if (t === 0) {
          sourceTalkback = d;
          sink(0, talkback);
        } else for (let s of sinks.slice(0)) s(t, d);
        if (t === 2) sinks = [];
      });
      return;
    }
    sink(0, talkback);
  };
};
]] *)

Module Share.

(** [sinks] and [sourceTalkback] belong to [share(source)]: every sink that
    attaches sees the same two variables.  A sink is known by its function
    reference [k]; the talkback made for it and the sink handed upstream
    when it attaches close over [k]. *)
Record State : Type := mkState {
  sinks : list nat;
  sourceTalkback : Val
}.

Inductive In : Type :=
| Attach (k : nat) (start : Z)       (* shared(start, sink) *)
| Tb (k : nat) (t : Z) (d : Val)     (* the talkback made for sink k *)
| Src (k : nat) (t : Z) (d : Val).   (* the sink handed upstream by k's attach *)

Inductive Out : Type :=
| SrcInvoke (k : nat)                (* source(0, (t, d) => ...) *)
| SinkStart (k : nat)                (* sink(0, talkback) *)
| Sink (k : nat) (t : Z) (d : Val)   (* s(t, d) *)
| Up (f : Val) (t : Z) (d : Val).    (* sourceTalkback(t, d) *)

Definition init : State := mkState [] VUndef.

Definition set_sinks (l : list nat) (s : State) : State :=
  mkState l (sourceTalkback s).

Definition set_sourceTalkback (v : Val) (s : State) : State :=
  mkState (sinks s) v.

Definition talkback (k : nat) (t : Z) (d : Val) : Prog State Out :=
  if t =? 0 then Ret
  else if t =? 2 then
    upd (fun s => set_sinks (remove_first k (sinks s)) s) ;;
    Get (fun s =>
      match sinks s with
      | [] => invoke sourceTalkback (fun f => Up f 2 VUndef)
      | _ => Ret
      end)
  else
    invoke sourceTalkback (fun f => Up f t d).

(** [for (let s of sinks.slice(0)) s(t, d)], from the copy still to visit. *)
Fixpoint broadcast (copy : list nat) (t : Z) (d : Val) : Prog State Out :=
  match copy with
  | [] => Ret
  | s :: rest => Call (Sink s t d) (broadcast rest t d)
  end.

Definition from_source (k : nat) (t : Z) (d : Val) : Prog State Out :=
  (if t =? 0 then
     upd (set_sourceTalkback d) ;;
     call (SinkStart k)
   else
     Get (fun s => broadcast (sinks s) t d)) ;;
  (if t =? 2 then upd (set_sinks []) else Ret).

Definition shared (k : nat) (start : Z) : Prog State Out :=
  if negb (start =? 0) then Ret
  else
    upd (fun s => set_sinks (sinks s ++ [k]) s) ;;
    Get (fun s =>
      if Nat.eqb (List.length (sinks s)) 1 then call (SrcInvoke k)
      else call (SinkStart k)).

Definition handler (m : In) : Prog State Out :=
  match m with
  | Attach k start => shared k start
  | Tb k t d => talkback k t d
  | Src k t d => from_source k t d
  end.

(** *** What a run says *)

(** A move that is neither a detach nor the END of the upstream source. *)
Definition quiet (m : Move (I := In)) : bool :=
  match m with
  | Enter (Tb _ t _) => negb (t =? 2)
  | Enter (Src _ t _) => negb (t =? 2)
  | _ => true
  end.

(** A sink attaches. *)
Definition attaches (m : Move (I := In)) : bool :=
  match m with
  | Enter (Attach _ start) => start =? 0
  | _ => false
  end.

(** How many times the upstream source was invoked. *)
Definition upstream_starts (log : list (Move (I := In) * option Out)) : nat :=
  List.length (filter (fun x => match snd x with
                                | Some (SrcInvoke _) => true
                                | _ => false
                                end) log).

(** What is left of the upstream sink once the broadcast reached [copy]. *)
Definition rest_of_dispatch (copy : list nat) (t : Z) (d : Val) : Prog State Out :=
  broadcast copy t d ;; (if t =? 2 then upd (set_sinks []) else Ret).

(** A suspended activation that will neither invoke the upstream source nor
    touch [sinks]: it has nothing left to do, or is inside the broadcast of
    a message other than END. *)
Definition benign (p : Prog State Out) : Prop :=
  p = Ret \/ exists copy t d, t <> 2 /\ p = rest_of_dispatch copy t d.

(** The upstream source sends the DATA [d], and every sink returns at once. *)
Definition deliver_moves (j : nat) (d : Val) (ks : list nat) : list (Move (I := In)) :=
  Enter (Src j 1 d) :: repeat Return (List.length ks).

(** Sink 1 attaches and the upstream source greets; sinks 2 and 3 attach;
    the upstream source sends 5. *)
Definition three_sinks : list (Move (I := In)) :=
  [ Enter (Attach 1 0);                 (* the upstream source is invoked *)
    Enter (Src 1%nat 0 (VFn 9)); Return; (* upstream: sink(0, tb) *)
    Return;                             (* source(0, ...) returns *)
    Enter (Attach 2 0); Return;
    Enter (Attach 3 0); Return;
    Enter (Src 1%nat 1 (VNum 5));       (* upstream: sink(1, 5) *)
    Return; Return; Return ].

(** The upstream source does not end. *)
Definition live (m : Move (I := In)) : bool :=
  match m with
  | Enter (Src _ t _) => negb (t =? 2)
  | _ => true
  end.

(** The sinks attached after a run, as its moves tell: a sink joins at the
    end when it attaches and leaves when its talkback is called with END. *)
Definition attach_step (l : list nat) (m : Move (I := In)) : list nat :=
  match m with
  | Enter (Attach k start) => if start =? 0 then l ++ [k] else l
  | Enter (Tb k t _) => if t =? 2 then remove_first k l else l
  | _ => l
  end.

Definition attached (ms : list (Move (I := In))) : list nat :=
  fold_left attach_step ms [].

(** The talkback that the latest START of the upstream source brought. *)
Definition greeting_step (tb : Val) (m : Move (I := In)) : Val :=
  match m with
  | Enter (Src _ t d) => if t =? 0 then d else tb
  | _ => tb
  end.

Definition upstream_talkback (ms : list (Move (I := In))) : Val :=
  fold_left greeting_step ms VUndef.

(** The calls that entering a closure of [share] leads to when the sinks [l] are
    attached and the upstream source has brought the talkback [tb].
    - A sink that attaches makes [share] invoke the upstream source when no
      sink is attached, and is greeted at once otherwise.
    - A sink that detaches makes [share] cancel the upstream source when
      no sink is left, and nothing otherwise; any other request of a sink
      goes to the upstream source.
    - The START of the upstream source greets the sink that had it
      invoked; any other message goes to every attached sink, in the order
      they attached. *)
Definition answers (l : list nat) (tb : Val) (i : In) : list Out :=
  match i with
  | Attach k start =>
      if start =? 0
      then [match l with [] => SrcInvoke k | _ => SinkStart k end]
      else []
  | Tb k t d =>
      if t =? 0 then []
      else if t =? 2 then
        match remove_first k l with
        | [] => [Up tb 2 VUndef]
        | _ => []
        end
      else [Up tb t d]
  | Src j t d =>
      if t =? 0 then [SinkStart j]
      else map (fun k => Sink k t d) l
  end.

(** Whether entering the closure calls the upstream talkback. *)
Definition needs_upstream (l : list nat) (i : In) : bool :=
  match i with
  | Tb k t _ =>
      negb (t =? 0) &&
      (negb (t =? 2) || match remove_first k l with [] => true | _ => false end)
  | _ => false
  end.

(** The DATA that sink [k] has received, in order. *)
Definition received (k : nat) (log : list (Move (I := In) * option Out))
  : list Val :=
  flat_map (fun x => match snd x with
                     | Some (Sink k' t d) =>
                         if Nat.eqb k' k && (t =? 1) then [d] else []
                     | _ => []
                     end) log.

(** Sinks 1 and 2 are attached.  The upstream source sends 1; sink 1 pulls
    from inside its callback, and the upstream source answers from inside
    that pull with 2. *)
Definition nested_pull : list (Move (I := In)) :=
  [ Enter (Attach 1 0);                  (* the upstream source is invoked *)
    Enter (Src 1%nat 0 (VFn 9)); Return; (* upstream: sink(0, tb) *)
    Return;                              (* source(0, ...) returns *)
    Enter (Attach 2 0); Return;
    Enter (Src 1%nat 1 (VNum 1));        (* upstream: 1, delivered to sink 1 *)
    Enter (Tb 1 1 VUndef);               (* sink 1 pulls inside its callback *)
    Enter (Src 1%nat 1 (VNum 2));        (* upstream answers: 2, to sink 1 *)
    Return;                              (* ... and to sink 2 *)
    Return;                              (* the delivery of 2 is over *)
    Return;                              (* the pull returns *)
    Return;                              (* sink 1 returns: 1 to sink 2 *)
    Return ].

(** Sink 1 attaches and the upstream source greets; sink 2 attaches and
    sink 1 detaches. *)
Definition one_left : list (Move (I := In)) :=
  [ Enter (Attach 1 0);
    Enter (Src 1%nat 0 (VFn 9)); Return;
    Return;
    Enter (Attach 2 0); Return;
    Enter (Tb 1 2 VUndef) ].

End Share.

(** ** makeSubject *)

(** [[
function makeSubject() {
  let sinks = [];
  return (type, data) => {
    if (type === 0) {
      const sink = data;
      sinks.push(sink);
      sink(0, t => {
        if (t === 2) {
          const i = sinks.indexOf(sink);
          if (i > -1) sinks.splice(i, 1);
        }
      });
    } else {
      const zinkz = sinks.slice(0);
      for (let i = 0, n = zinkz.length, sink; i < n; i++) {
        sink = zinkz[i];
        if (sinks.indexOf(sink) > -1) sink(type, data);
      }
    }
  };
}
]]
    A sink is known by its function reference; the subject is only handed
    functions as sinks, and anything else makes [sink(0, ...)] throw. *)

Module Subject.

Record State : Type := mkState {
  sinks : list nat
}.

Inductive In : Type :=
| Subj (type : Z) (data : Val)   (* the subject itself *)
| Tb (k : nat) (t : Z).          (* the talkback made for sink k *)

Inductive Out : Type :=
| SinkStart (k : nat)                  (* sink(0, t => ...) *)
| Sink (k : nat) (type : Z) (data : Val). (* sink(type, data) *)

Definition init : State := mkState [].

Definition talkback (k : nat) (t : Z) : Prog State Out :=
  if t =? 2 then upd (fun s => mkState (remove_first k (sinks s)))
  else Ret.

(** [for (...) { sink = zinkz[i]; if (sinks.indexOf(sink) > -1) sink(type, data) }],
    from the part of [zinkz] still to visit. *)
Fixpoint deliver (zinkz : list nat) (type : Z) (data : Val) : Prog State Out :=
  match zinkz with
  | [] => Ret
  | sink :: rest =>
      Get (fun s =>
        if mem sink (sinks s) then Call (Sink sink type data) (deliver rest type data)
        else deliver rest type data)
  end.

Definition subject (type : Z) (data : Val) : Prog State Out :=
  if type =? 0 then
    match data with
    | VFn k =>
        upd (fun s => mkState (sinks s ++ [k])) ;;
        call (SinkStart k)
    | _ => Throw
    end
  else
    Get (fun s => deliver (sinks s) type data).

Definition handler (m : In) : Prog State Out :=
  match m with
  | Subj type data => subject type data
  | Tb k t => talkback k t
  end.

(** Sinks 1, 2 and 3 are attached and a DATA is pushed.  From inside its
    callback sink 1 detaches sink 2 and attaches sink 4. *)
Definition detach_and_attach_during_dispatch : list (Move (I := In)) :=
  [ Enter (Subj 0 (VFn 1)); Return;
    Enter (Subj 0 (VFn 2)); Return;
    Enter (Subj 0 (VFn 3)); Return;
    Enter (Subj 1 (VNum 42));          (* delivered to sink 1 *)
    Enter (Tb 2%nat 2);                (* ... which detaches sink 2 *)
    Enter (Subj 0 (VFn 4)); Return;    (* ... and attaches sink 4 *)
    Return;                            (* sink 1 returns *)
    Return ].                          (* sink 3 returns *)

(** What sink 1 does to the variables of the subject in that scenario. *)
Definition detach_2_attach_4 (s : State) : State :=
  mkState (remove_first 2 (sinks s) ++ [4%nat]).

(** The surrounding code leaves sink [k] attached if it was. *)
Definition keeps (k : nat) (f : State -> State) : Prop :=
  forall s, List.In k (sinks s) -> List.In k (sinks (f s)).

(** The surrounding code does not attach sink [k]. *)
Definition leaves_out (k : nat) (f : State -> State) : Prop :=
  forall s, ~ List.In k (sinks s) -> ~ List.In k (sinks (f s)).

End Subject.

(** ** fromIter *)

(** [[
const fromIter = iter => (start, sink) => {
  if (start !== 0) return;
  const iterator = typeof Symbol !== 'undefined' && iter[Symbol.iterator]
    ? iter[Symbol.iterator]() : iter;
  let inloop = false;
  let got1 = false;
  let completed = false;
  let res;
  function loop() {
    inloop = true;
    while (got1 && !completed) {
      got1 = false;
      res = iterator.next();
      if (res.done) {
        sink(2);
        break;
      } else sink(1, res.value);
    }
    inloop = false;
  }
  sink(0, t => {
    if (completed) return;
    if (t === 1) {
      got1 = true;
      if (!inloop && !(res && res.done)) loop();
    } else if (t === 2) {
      completed = true;
    }
  });
};
]] *)

Module FromIter.

(** [res]: nothing yet, or what [iterator.next()] returned last. *)
Inductive Res : Type :=
| ResUndef
| ResDone
| ResValue (v : Val).

(** [res && res.done] *)
Definition res_done (r : Res) : bool :=
  match r with
  | ResDone => true
  | _ => false
  end.

(** The iterator over a finite sequence is the part not yet handed out. *)
Record State : Type := mkState {
  iterator : list Val;
  inloop : bool;
  got1 : bool;
  completed : bool;
  res : Res
}.

Inductive In : Type :=
| Invoke (start : Z)    (* fromIter(iter) called with (start, sink) *)
| Tb (t : Z).           (* the talkback handed to the sink *)

(** The talkback is passed to the sink under this reference. *)
Definition talkback_ref : Val := VFn 0.

Inductive Out : Type :=
| Sink (t : Z) (d : Val).   (* sink(t, d) *)

Definition set_inloop (b : bool) (s : State) : State :=
  mkState (iterator s) b (got1 s) (completed s) (res s).

Definition set_got1 (b : bool) (s : State) : State :=
  mkState (iterator s) (inloop s) b (completed s) (res s).

Definition set_completed (b : bool) (s : State) : State :=
  mkState (iterator s) (inloop s) (got1 s) b (res s).

(** [res = iterator.next()] *)
Definition step_iterator (r : Res) (rest : list Val) (s : State) : State :=
  mkState rest (inloop s) (got1 s) (completed s) r.

(** [while (got1 && !completed) { ... }] followed by [inloop = false].  Each
    turn takes one element from the iterator, so the loop is written by
    recursion on what the iterator still holds. *)
Fixpoint loop_from (it : list Val) : Prog State Out :=
  Get (fun s =>
    if got1 s && negb (completed s) then
      upd (set_got1 false) ;;
      match it with
      | [] =>
          upd (step_iterator ResDone []) ;;
          call (Sink 2 VUndef) ;;
          (* break *)
          upd (set_inloop false)
      | v :: rest =>
          upd (step_iterator (ResValue v) rest) ;;
          Call (Sink 1 v) (loop_from rest)
      end
    else upd (set_inloop false)).

Definition loop : Prog State Out :=
  upd (set_inloop true) ;;
  Get (fun s => loop_from (iterator s)).

Definition talkback (t : Z) : Prog State Out :=
  Get (fun s =>
    if completed s then Ret
    else if t =? 1 then
      upd (set_got1 true) ;;
      Get (fun s' =>
        if negb (inloop s') && negb (res_done (res s')) then loop else Ret)
    else if t =? 2 then upd (set_completed true)
    else Ret).

Section WithIter.
(** The finite sequence [iter]; [iter[Symbol.iterator]()] starts at its head. *)
Variable iter : list Val.

Definition init : State := mkState iter false false false ResUndef.

Definition handler (m : In) : Prog State Out :=
  match m with
  | Invoke start =>
      if negb (start =? 0) then Ret
      else Put init (call (Sink 0 talkback_ref))
  | Tb t => talkback t
  end.

End WithIter.

End FromIter.

(** ** forEach *)

(** [[
const forEach = operation => source => {
  let talkback;
  source(0, (t, d) => {
    if (t === 0) talkback = d;
    if (t === 1) operation(d);
    if (t === 1 || t === 0) talkback(1);
  });
};
]] *)

Module ForEach.

Record State : Type := mkState {
  talkback : Val
}.

Inductive In : Type :=
| Msg (t : Z) (d : Val).    (* the sink handed to [source(0, ...)] *)

Inductive Out : Type :=
| SourceCall (start : Z)         (* source(0, (t, d) => ...) *)
| Operation (d : Val)            (* operation(d) *)
| TalkbackCall (f : Val) (t : Z). (* talkback(1) *)

Definition init : State := mkState VUndef.

Definition handler (m : In) : Prog State Out :=
  match m with
  | Msg t d =>
      (if t =? 0 then upd (fun _ => mkState d) else Ret) ;;
      (if t =? 1 then call (Operation d) else Ret) ;;
      (if (t =? 1) || (t =? 0) then invoke talkback (fun f => TalkbackCall f 1)
       else Ret)
  end.

(** [forEach(operation)(source)] *)
Definition main : Prog State Out := call (SourceCall 0).

End ForEach.

(** ** forEach over fromIter *)

Module Drain.

Definition toD (o : FromIter.Out) : ForEach.In :=
  match o with
  | FromIter.Sink t d => ForEach.Msg t d
  end.

(** [operation] is the user's callback and enters nothing; the source and
    the talkback are fromIter's. *)
Definition toU (o : ForEach.Out) : option FromIter.In :=
  match o with
  | ForEach.SourceCall start => Some (FromIter.Invoke start)
  | ForEach.Operation _ => None
  | ForEach.TalkbackCall (VFn O) t => Some (FromIter.Tb t)
  | ForEach.TalkbackCall _ _ => None
  end.

Definition Event : Type := LEvent (OU := FromIter.Out) (OD := ForEach.Out).

Definition Config : Type :=
  LConfig (SU := FromIter.State) (OU := FromIter.Out)
          (SD := ForEach.State) (OD := ForEach.Out).

(** [forEach(operation)(fromIter(iter))] about to run. *)
Definition start (iter : list Val) : Config :=
  mkLConfig (FromIter.init iter) ForEach.init [FD ForEach.main] [] false.

Definition drain (fuel : nat) (iter : list Val) : Config :=
  lrun (FromIter.handler iter) ForEach.handler toD toU fuel (start iter).

(** The arguments [operation] was called with, in order. *)
Definition operations (tr : list Event) : list Val :=
  flat_map (fun e => match e with EvD (ForEach.Operation d) => [d] | _ => [] end) tr.

(** What the sink of [forEach] received, in order. *)
Definition received (tr : list Event) : list (Z * Val) :=
  flat_map (fun e => match e with EvU (FromIter.Sink t d) => [(t, d)] | _ => [] end) tr.

(** What one turn of the loop of [fromIter] adds to the trace: the item is
    sent, [operation] is called with it, and [forEach] pulls again. *)
Definition turn (v : Val) : list Event :=
  [ EvU (FromIter.Sink 1 v);
    EvD (ForEach.Operation v);
    EvD (ForEach.TalkbackCall FromIter.talkback_ref 1) ].

End Drain.

(** * More operators *)

(** ** map *)

(** [[
const map = f => source => (start, sink) => {
  if (start !== 0) return;
  source(0, (t, d) => {
    sink(t, t === 1 ? f(d) : d);
  });
};
]]
    [map] keeps no variable; the START it passes on carries the talkback of
    the source itself. *)

Module Map.

Inductive In : Type :=
| Src (t : Z) (d : Val).   (* the sink handed to [source(0, ...)] *)

Inductive Out : Type :=
| SrcInvoke                (* source(0, (t, d) => ...) *)
| Sink (t : Z) (d : Val).  (* sink(t, ...) *)

Section WithF.
Variable f : Val -> Val.

(** [t === 1 ? f(d) : d] *)
Definition payload (t : Z) (d : Val) : Val :=
  if t =? 1 then f d else d.

Definition handler (m : In) : Prog unit Out :=
  match m with
  | Src t d => call (Sink t (payload t d))
  end.

(** [map(f)(source)(start, sink)] *)
Definition body (start : Z) : Prog unit Out :=
  if negb (start =? 0) then Ret
  else call SrcInvoke.

(** What [map] owes the sink for a move of the source. *)
Definition owed (m : Move (I := In)) : list Out :=
  match m with
  | Enter (Src t d) => [Sink t (payload t d)]
  | Return => []
  end.

End WithF.

End Map.

(** ** filter *)

(** [[
const filter = condition => source => (start, sink) => {
  if (start !== 0) return;
  let talkback;
  source(0, (t, d) => {
    if (t === 0) {
      talkback = d;
      sink(t, d);
    } else if (t === 1) {
      if (condition(d)) sink(t, d);else talkback(1);
    } else sink(t, d);
  });
};
]] *)

Module Filter.

Record State : Type := mkState {
  talkback : Val
}.

Inductive In : Type :=
| Src (t : Z) (d : Val).   (* the sink handed to [source(0, ...)] *)

Inductive Out : Type :=
| SrcInvoke                (* source(0, (t, d) => ...) *)
| Sink (t : Z) (d : Val)   (* sink(t, d) *)
| Up (f : Val) (t : Z).    (* talkback(1) *)

Definition init : State := mkState VUndef.

Section WithCondition.
(** Whether [condition(d)] is truthy. *)
Variable condition : Val -> bool.

Definition handler (m : In) : Prog State Out :=
  match m with
  | Src t d =>
      if t =? 0 then
        upd (fun _ => mkState d) ;;
        call (Sink t d)
      else if t =? 1 then
        if condition d then call (Sink t d)
        else invoke talkback (fun f => Up f 1)
      else call (Sink t d)
  end.

(** [filter(condition)(source)(start, sink)] *)
Definition body (start : Z) : Prog State Out :=
  if negb (start =? 0) then Ret
  else call SrcInvoke.

End WithCondition.

Definition Entry : Type := (Move (I := In) * option Out)%type.

(** The DATA the source has sent, the DATA sent downstream, and the PULLs
    sent upstream, in order. *)
Definition src_data (log : list Entry) : list Val :=
  flat_map (fun x => match fst x with
                     | Enter (Src t d) => if t =? 1 then [d] else []
                     | _ => []
                     end) log.

Definition sink_data (log : list Entry) : list Val :=
  flat_map (fun x => match snd x with
                     | Some (Sink t d) => if t =? 1 then [d] else []
                     | _ => []
                     end) log.

(** The number of PULLs sent upstream. *)
Definition pulls (log : list Entry) : nat :=
  List.length (filter (fun x => match snd x with
                                | Some (Up _ t) => t =? 1
                                | _ => false
                                end) log).

(** The calls made upstream, in order: the function called and the tag. *)
Definition ups (log : list Entry) : list (Val * Z) :=
  flat_map (fun x => match snd x with
                     | Some (Up f t) => [(f, t)]
                     | _ => []
                     end) log.

(** The calls upstream that the moves ask for: a PULL for each DATA that
    does not satisfy [condition], on the talkback that the source brought
    last, [tb] before the first START. *)
Fixpoint expected_ups (condition : Val -> bool) (tb : Val)
         (ms : list (Move (I := In))) : list (Val * Z) :=
  match ms with
  | [] => []
  | Enter (Src t d) :: ms' =>
      if t =? 0 then expected_ups condition d ms'
      else if (t =? 1) && negb (condition d)
           then (tb, 1) :: expected_ups condition tb ms'
           else expected_ups condition tb ms'
  | Return :: ms' => expected_ups condition tb ms'
  end.

(** The messages other than DATA: received, and sent downstream. *)
Definition src_other (log : list Entry) : list (Z * Val) :=
  flat_map (fun x => match fst x with
                     | Enter (Src t d) => if t =? 1 then [] else [(t, d)]
                     | _ => []
                     end) log.

Definition sink_other (log : list Entry) : list (Z * Val) :=
  flat_map (fun x => match snd x with
                     | Some (Sink t d) => if t =? 1 then [] else [(t, d)]
                     | _ => []
                     end) log.

End Filter.

(** ** skip *)

(** [[
const skip = max => source => (start, sink) => {
  if (start !== 0) return;
  let skipped = 0;
  let talkback;
  source(0, (t, d) => {
    if (t === 0) {
      talkback = d;
      sink(t, d);
    } else if (t === 1) {
      if (skipped < max) {
        skipped++;
        talkback(1);
      } else sink(t, d);
    } else {
      sink(t, d);
    }
  });
};
]] *)

Module Skip.

Record State : Type := mkState {
  skipped : Z;
  talkback : Val
}.

Inductive In : Type :=
| Src (t : Z) (d : Val).   (* the sink handed to [source(0, ...)] *)

Inductive Out : Type :=
| SrcInvoke                (* source(0, (t, d) => ...) *)
| Sink (t : Z) (d : Val)   (* sink(t, d) *)
| Up (f : Val) (t : Z).    (* talkback(1) *)

Definition init : State := mkState 0 VUndef.

Section WithMax.
Variable max : Z.

Definition handler (m : In) : Prog State Out :=
  match m with
  | Src t d =>
      if t =? 0 then
        upd (fun s => mkState (skipped s) d) ;;
        call (Sink t d)
      else if t =? 1 then
        Get (fun s =>
          if skipped s <? max then
            upd (fun s => mkState (skipped s + 1) (talkback s)) ;;
            invoke talkback (fun f => Up f 1)
          else call (Sink t d))
      else call (Sink t d)
  end.

(** [skip(max)(source)(start, sink)] *)
Definition body (start : Z) : Prog State Out :=
  if negb (start =? 0) then Ret
  else call SrcInvoke.

End WithMax.

Definition Entry : Type := (Move (I := In) * option Out)%type.

Definition src_data (log : list Entry) : list Val :=
  flat_map (fun x => match fst x with
                     | Enter (Src t d) => if t =? 1 then [d] else []
                     | _ => []
                     end) log.

Definition sink_data (log : list Entry) : list Val :=
  flat_map (fun x => match snd x with
                     | Some (Sink t d) => if t =? 1 then [d] else []
                     | _ => []
                     end) log.

(** The number of PULLs sent upstream. *)
Definition pulls (log : list Entry) : nat :=
  List.length (filter (fun x => match snd x with
                                | Some (Up _ t) => t =? 1
                                | _ => false
                                end) log).

(** The calls made upstream, in order: the function called and the tag. *)
Definition ups (log : list Entry) : list (Val * Z) :=
  flat_map (fun x => match snd x with
                     | Some (Up f t) => [(f, t)]
                     | _ => []
                     end) log.

(** The calls upstream that the moves ask for, [seen] DATA having come
    already: a PULL for each DATA that is among the first [max], on the
    talkback that the source brought last, [tb] before the first START. *)
Fixpoint expected_ups (max : Z) (seen : nat) (tb : Val)
         (ms : list (Move (I := In))) : list (Val * Z) :=
  match ms with
  | [] => []
  | Enter (Src t d) :: ms' =>
      if t =? 0 then expected_ups max seen d ms'
      else if t =? 1 then
        if Z.of_nat seen <? max
        then (tb, 1) :: expected_ups max (Datatypes.S seen) tb ms'
        else expected_ups max (Datatypes.S seen) tb ms'
      else expected_ups max seen tb ms'
  | Return :: ms' => expected_ups max seen tb ms'
  end.

End Skip.

(** ** Scenarios for filter and skip *)

(** [x => x % 2 === 0] on numbers. *)
Definition is_even (d : Val) : bool :=
  match d with
  | VNum z => Z.even z
  | _ => false
  end.

(** A source greets, sends 1, 2, 3, 4 and ends; every call the operator
    makes returns at once. *)
Definition filter_scenario : list (Move (I := Filter.In)) :=
  [Enter (Filter.Src 0 (VFn 7)); Return;
   Enter (Filter.Src 1 (VNum 1)); Return;
   Enter (Filter.Src 1 (VNum 2)); Return;
   Enter (Filter.Src 1 (VNum 3)); Return;
   Enter (Filter.Src 1 (VNum 4)); Return;
   Enter (Filter.Src 2 VUndef); Return].

Definition skip_scenario : list (Move (I := Skip.In)) :=
  [Enter (Skip.Src 0 (VFn 7)); Return;
   Enter (Skip.Src 1 (VNum 1)); Return;
   Enter (Skip.Src 1 (VNum 2)); Return;
   Enter (Skip.Src 1 (VNum 3)); Return;
   Enter (Skip.Src 1 (VNum 4)); Return;
   Enter (Skip.Src 2 VUndef); Return].

(** ** What merge receives and sends *)

Module MergeLog.

Definition Entry : Type := (Move (I := Merge.In) * option Merge.Out)%type.

(** How many messages with tag [tag] the sources have sent. *)
Definition received (tag : Z) (log : list (Move (I := Merge.In) * option Merge.Out))
  : nat :=
  List.length (filter (fun x => match fst x with
                                | Enter (Merge.Src _ t _) => t =? tag
                                | _ => false
                                end) log).

(** The messages of the sources that are neither START nor END. *)
Definition src_passed (log : list (Move (I := Merge.In) * option Merge.Out))
  : list (Z * Val) :=
  flat_map (fun x => match fst x with
                     | Enter (Merge.Src _ t d) =>
                         if (t =? 0) || (t =? 2) then [] else [(t, d)]
                     | _ => []
                     end) log.

(** Downstream: the STARTs, the ENDs, and everything else. *)
Definition sink_starts (log : list (Move (I := Merge.In) * option Merge.Out))
  : nat :=
  List.length (filter (fun x => match snd x with
                                | Some Merge.SinkStart => true
                                | _ => false
                                end) log).

Definition sink_ends (log : list (Move (I := Merge.In) * option Merge.Out))
  : nat :=
  List.length (filter (fun x => match snd x with
                                | Some (Merge.Sink t _) => t =? 2
                                | _ => false
                                end) log).

Definition sink_passed (log : list (Move (I := Merge.In) * option Merge.Out))
  : list (Z * Val) :=
  flat_map (fun x => match snd x with
                     | Some (Merge.Sink t d) => if t =? 2 then [] else [(t, d)]
                     | _ => []
                     end) log.

(** An activation that is suspended in the loop of [talkback] or in the
    loop that invokes the sources, or has nothing left to do. *)
Definition in_a_loop (p : Prog Merge.State Merge.Out) : Prop :=
  p = Ret \/
  (exists idx t, p = Merge.talkback_from idx t) \/
  (exists idx, p = Merge.invoke_from idx).

(** A call out that does not go to the sink. *)
Definition not_to_sink (o : Merge.Out) : bool :=
  match o with
  | Merge.SrcInvoke _ => true
  | Merge.Up _ _ _ => true
  | _ => false
  end.

(** [merge(a, b)(0, sink)]: both sources are invoked and greet, [b] sends
    10, [a] sends 20 and ends, the sink pulls, [b] sends 30 and ends. *)
Definition scenario : list (Move (I := Merge.In)) :=
  [ Enter (Merge.Src 0%nat 0 (VFn 1)); Return; Return;
    Enter (Merge.Src 1%nat 0 (VFn 2)); Return;
    Enter (Merge.Src 1%nat 1 (VNum 10)); Return;
    Enter (Merge.Src 0%nat 1 (VNum 20)); Return;
    Enter (Merge.Src 0%nat 2 VUndef);
    Enter (Merge.Tb 1); Return;
    Enter (Merge.Src 1%nat 1 (VNum 30)); Return;
    Enter (Merge.Src 1%nat 2 VUndef); Return ].

End MergeLog.

(** ** Suspended activations that stay silent *)

(** An activation, or what is left of one, that makes only calls that
    [silent] accepts and, unless [puts] allows it, assigns no closure
    variable. *)
Section Quiet.
Context {S O : Type}.
Variable silent : O -> bool.
Variable puts : bool.

Inductive Quiet : Prog S O -> Prop :=
| Quiet_Ret : Quiet Ret
| Quiet_Throw : Quiet Throw
| Quiet_Get (k : S -> Prog S O) : (forall s, Quiet (k s)) -> Quiet (Get k)
| Quiet_Put (s : S) (k : Prog S O) : puts = true -> Quiet k -> Quiet (Put s k)
| Quiet_Call (o : O) (k : Prog S O) :
    silent o = true -> Quiet k -> Quiet (Call o k).

End Quiet.

(** ** What sample receives and sends *)

Module SampleLog.

(** The DATA of the pullable side and the number of DATA of the listenable
    side, among the moves of the surrounding code. *)
Definition pullable_data (ms : list (Move (I := Sample.In))) : list Val :=
  flat_map (fun m => match m with
                     | Enter (Sample.P pt pd) => if pt =? 1 then [pd] else []
                     | _ => []
                     end) ms.

Definition listenable_data (ms : list (Move (I := Sample.In))) : list Val :=
  flat_map (fun m => match m with
                     | Enter (Sample.L lt ld) => if lt =? 1 then [ld] else []
                     | _ => []
                     end) ms.

(** The DATA sent downstream and the number of PULLs sent to the pullable
    side. *)
Definition sink_data (log : list (Move (I := Sample.In) * option Sample.Out))
  : list Val :=
  flat_map (fun x => match snd x with
                     | Some (Sample.Sink t d) => if t =? 1 then [d] else []
                     | _ => []
                     end) log.

Definition pulls (log : list (Move (I := Sample.In) * option Sample.Out))
  : nat :=
  List.length (filter (fun x => match snd x with
                                | Some (Sample.PUp _ t) => t =? 1
                                | _ => false
                                end) log).

(** Calls out other than a DATA downstream or a PULL to the pullable side. *)
Definition silent (o : Sample.Out) : bool :=
  match o with
  | Sample.Sink t _ => negb (t =? 1)
  | Sample.PUp _ t => negb (t =? 1)
  | _ => true
  end.

(** Both sides greet; the listenable side sends [a] and the pullable side
    answers the pull with 1, from inside it; the same with [b] and 2; the
    downstream pulls, which does nothing; the listenable side ends. *)
Definition scenario (a b : Val) : list (Move (I := Sample.In)) :=
  [ Enter (Sample.L 0 (VFn 1));
    Enter (Sample.P 0 (VFn 2)); Return; Return; Return;
    Enter (Sample.L 1 a); Enter (Sample.P 1 (VNum 1)); Return; Return;
    Enter (Sample.L 1 b); Enter (Sample.P 1 (VNum 2)); Return; Return;
    Enter (Sample.Tb 1);
    Enter (Sample.L 2 VUndef); Return; Return ].

End SampleLog.

(** ** sampleWhen *)

(** [[
function sampleWhen(sampler) {
  return function (listenable) {
    return function (start, sink) {
      if (start !== 0) return;
      var inited = false;
      var value;
      var listenableTalkback;
      var samplerTalkback;
      listenable(0, function (type, data) {
        if (type === 0) {
          listenableTalkback = data;
          sampler(0, function (type, data) {
            if (type === 0) {
              samplerTalkback = data;
              return;
            }
            if (type === 1 && inited) {
              sink(1, value);
              return;
            }
            if (type === 2) {
              listenableTalkback(2);
              sink(2);
              return;
            }
          });
          sink(0, function (end) {
            if (end !== 2) return;
            listenableTalkback(2);
            samplerTalkback(2);
          });
          return;
        }
        if (type === 1) {
          inited = true;
          value = data;
          return;
        }
        if (type === 2) {
          samplerTalkback(2);
          sink(2);
          return;
        }
      });
    };
  };
}
]] *)

Module SampleWhen.

Record State : Type := mkState {
  inited : bool;
  value : Val;
  listenableTalkback : Val;
  samplerTalkback : Val
}.

Inductive In : Type :=
| L (type : Z) (data : Val)   (* the sink handed to [listenable] *)
| Sm (type : Z) (data : Val)  (* the sink handed to [sampler] *)
| Tb (end_ : Z).              (* the talkback handed downstream *)

Inductive Out : Type :=
| ListenInvoke            (* listenable(0, ...) *)
| SamplerInvoke           (* sampler(0, ...) *)
| SinkStart               (* sink(0, end => ...) *)
| Sink (t : Z) (d : Val)  (* sink(t, d) *)
| LUp (f : Val) (t : Z)   (* listenableTalkback(t) *)
| SUp (f : Val) (t : Z).  (* samplerTalkback(t) *)

Definition init : State := mkState false VUndef VUndef VUndef.

Definition set_listenableTalkback (v : Val) (s : State) : State :=
  mkState (inited s) (value s) v (samplerTalkback s).

Definition set_samplerTalkback (v : Val) (s : State) : State :=
  mkState (inited s) (value s) (listenableTalkback s) v.

Definition set_value (v : Val) (s : State) : State :=
  mkState true v (listenableTalkback s) (samplerTalkback s).

Definition from_sampler (type : Z) (data : Val) : Prog State Out :=
  if type =? 0 then upd (set_samplerTalkback data)
  else
    Get (fun s =>
      if (type =? 1) && inited s then call (Sink 1 (value s))
      else if type =? 2 then
        invoke listenableTalkback (fun f => LUp f 2) ;;
        call (Sink 2 VUndef)
      else Ret).

Definition talkback (end_ : Z) : Prog State Out :=
  if negb (end_ =? 2) then Ret
  else
    invoke listenableTalkback (fun f => LUp f 2) ;;
    invoke samplerTalkback (fun f => SUp f 2).

Definition from_listenable (type : Z) (data : Val) : Prog State Out :=
  if type =? 0 then
    upd (set_listenableTalkback data) ;;
    call SamplerInvoke ;;
    call SinkStart
  else if type =? 1 then upd (set_value data)
  else if type =? 2 then
    invoke samplerTalkback (fun f => SUp f 2) ;;
    call (Sink 2 VUndef)
  else Ret.

Definition handler (i : In) : Prog State Out :=
  match i with
  | L type data => from_listenable type data
  | Sm type data => from_sampler type data
  | Tb end_ => talkback end_
  end.

(** [sampleWhen(sampler)(listenable)(start, sink)] *)
Definition body (start : Z) : Prog State Out :=
  if negb (start =? 0) then Ret
  else call ListenInvoke.

(** What the DATA of the sampler must be answered with: each one that comes
    after a DATA of the listenable gives the latest such DATA, the others
    give nothing.  [latest] is the latest DATA of the listenable so far. *)
Fixpoint sampled (latest : option Val) (ms : list (Move (I := In))) : list Val :=
  match ms with
  | [] => []
  | Enter (L type data) :: rest =>
      sampled (if type =? 1 then Some data else latest) rest
  | Enter (Sm type _) :: rest =>
      (if type =? 1
       then match latest with Some v => [v] | None => [] end
       else []) ++ sampled latest rest
  | _ :: rest => sampled latest rest
  end.

(** The latest DATA of the listenable, as the closure variables hold it. *)
Definition held (s : State) : option Val :=
  if inited s then Some (value s) else None.

Definition sink_data (log : list (Move (I := In) * option Out)) : list Val :=
  flat_map (fun x => match snd x with
                     | Some (Sink t d) => if t =? 1 then [d] else []
                     | _ => []
                     end) log.

Definition silent (o : Out) : bool :=
  match o with
  | Sink t _ => negb (t =? 1)
  | _ => true
  end.

(** Both sides greet; the sampler ticks before the listenable has sent
    anything; the listenable sends 1 and 2; the sampler ticks twice; the
    listenable sends 3; the sampler ticks and ends. *)
Definition scenario : list (Move (I := In)) :=
  [ Enter (L 0 (VFn 1));
    Enter (Sm 0 (VFn 2)); Return; Return; Return;
    Enter (Sm 1 VUndef);
    Enter (L 1 (VNum 1)); Enter (L 1 (VNum 2));
    Enter (Sm 1 VUndef); Return;
    Enter (Sm 1 VUndef); Return;
    Enter (L 1 (VNum 3));
    Enter (Sm 1 VUndef); Return;
    Enter (Sm 2 VUndef); Return; Return ].

End SampleWhen.

(** ** What fromIter is asked and what it sends *)

Module FromIterLog.

(** The moves of a sink: calls of the talkback and returns. *)
Definition from_sink (m : Move (I := FromIter.In)) : bool :=
  match m with
  | Enter (FromIter.Invoke _) => false
  | _ => true
  end.

(** The number of PULLs among the moves. *)
Definition pulls (ms : list (Move (I := FromIter.In))) : nat :=
  List.length (filter (fun m => match m with
                                | Enter (FromIter.Tb t) => t =? 1
                                | _ => false
                                end) ms).

Definition sink_data (log : list (Move (I := FromIter.In) * option FromIter.Out))
  : list Val :=
  flat_map (fun x => match snd x with
                     | Some (FromIter.Sink t d) => if t =? 1 then [d] else []
                     | None => []
                     end) log.

Definition sink_ends (log : list (Move (I := FromIter.In) * option FromIter.Out))
  : nat :=
  List.length (filter (fun x => match snd x with
                                | Some (FromIter.Sink t _) => t =? 2
                                | None => false
                                end) log).

(** The suspended activations: while the loop runs ([inloop]), the
    innermost one is the loop, waiting in [sink(1, ...)] with the rest of
    the iterator to go, or in [sink(2)] before [inloop = false]; all the
    others have nothing left to do. *)
Definition stack_ok (s : FromIter.State)
           (st : list (Prog FromIter.State FromIter.Out)) : Prop :=
  if FromIter.inloop s then
    exists p rest,
      st = p :: rest /\ Forall (eq Ret) rest /\
      ((p = FromIter.loop_from (FromIter.iterator s) /\
        FromIter.res_done (FromIter.res s) = false) \/
       (p = upd (FromIter.set_inloop false) /\ FromIter.res s = FromIter.ResDone))
  else Forall (eq Ret) st.

(** What a suspended activation of fromIter can be. *)
Definition frame (p : Prog FromIter.State FromIter.Out) : Prop :=
  p = Ret \/ (exists it, p = FromIter.loop_from it) \/
  p = upd (FromIter.set_inloop false).

Definition b2n (b : bool) : nat := if b then 1%nat else 0%nat.

(** The sink pulls from inside START, pulls again from inside the first
    DATA, and then pulls once more. *)
Definition scenario : list (Move (I := FromIter.In)) :=
  [ Enter (FromIter.Tb 1);    (* inside sink(0, talkback): DATA 10 *)
    Enter (FromIter.Tb 1);    (* inside sink(1, 10) *)
    Return;                   (* sink(1, 10) returns: DATA 20 *)
    Return;                   (* sink(1, 20) returns, the loop ends *)
    Return;                   (* sink(0, talkback) returns *)
    Enter (FromIter.Tb 1);    (* DATA 30 *)
    Return ].

End FromIterLog.

(** ** of *)

(** [[
function of() {
  for (var _len = arguments.length, values = new Array(_len), _key = 0; _key < _len; _key++) {
    values[_key] = arguments[_key];
  }
  return function (start, sink) {
    if (start !== 0) return;
    var disposed = false;
    sink(0, function (type, data) {
      if (type !== 2) return;
      disposed = true;
    });
    for (var _i = 0; _i < values.length; _i++) {
      var value = values[_i];
      if (disposed) break;
      sink(1, value);
    }
    if (!disposed) {
      sink(2);
    }
  };
}
]] *)

Module Of.

Record State : Type := mkState {
  disposed : bool
}.

Inductive In : Type :=
| Tb (type : Z).            (* the talkback handed to the sink *)

Inductive Out : Type :=
| Sink (t : Z) (d : Val).   (* sink(t, d) *)

(** The talkback is passed to the sink under this reference. *)
Definition talkback_ref : Val := VFn 0.

Definition init : State := mkState false.

(** [if (!disposed) sink(2)] *)
Definition after_loop : Prog State Out :=
  Get (fun s => if negb (disposed s) then call (Sink 2 VUndef) else Ret).

(** The [for] loop from the values still to send, and what follows it. *)
Fixpoint loop_from (values : list Val) : Prog State Out :=
  match values with
  | [] => after_loop
  | value :: rest =>
      Get (fun s =>
        if disposed s then after_loop   (* break *)
        else Call (Sink 1 value) (loop_from rest))
  end.

Definition handler (m : In) : Prog State Out :=
  match m with
  | Tb type =>
      if negb (type =? 2) then Ret
      else upd (fun _ => mkState true)
  end.

(** [of(...values)(start, sink)] *)
Definition body (values : list Val) (start : Z) : Prog State Out :=
  if negb (start =? 0) then Ret
  else
    Put init (Call (Sink 0 talkback_ref) (loop_from values)).

(** How often the sink returns before it first cancels. *)
Fixpoint returns_before_cancel (ms : list (Move (I := In))) : nat :=
  match ms with
  | [] => O
  | Return :: rest => Datatypes.S (returns_before_cancel rest)
  | Enter (Tb type) :: rest =>
      if type =? 2 then O else returns_before_cancel rest
  end.

(** Everything [of] has to say after START. *)
Definition script (values : list Val) : list Out :=
  map (Sink 1) values ++ [Sink 2 VUndef].

(** What a suspended activation can be. *)
Definition frame (p : Prog State Out) : Prop :=
  p = Ret \/ exists values, p = loop_from values.

End Of.

(** ** observe *)

(** [[
const observe = operation => source => {
  source(0, (t, d) => {
    if (t === 1) operation(d);
  });
};
]] *)

Module Observe.

Inductive In : Type :=
| Msg (t : Z) (d : Val).    (* the sink handed to [source(0, ...)] *)

Inductive Out : Type :=
| SourceCall (start : Z)    (* source(0, (t, d) => ...) *)
| Operation (d : Val).      (* operation(d) *)

Definition handler (m : In) : Prog unit Out :=
  match m with
  | Msg t d => if t =? 1 then call (Operation d) else Ret
  end.

(** [observe(operation)(source)] *)
Definition main : Prog unit Out := call (SourceCall 0).

End Observe.

(** ** forEach and observe over of, observe over fromIter *)

Module Push.

(** [of(...values)] as a source: it is invoked, and its talkback is called. *)
Inductive In : Type :=
| Invoke (start : Z)
| Tb (type : Z).

Definition handler (values : list Val) (m : In) : Prog Of.State Of.Out :=
  match m with
  | Invoke start => Of.body values start
  | Tb type => Of.handler (Of.Tb type)
  end.

Definition to_forEach (o : Of.Out) : ForEach.In :=
  match o with
  | Of.Sink t d => ForEach.Msg t d
  end.

Definition from_forEach (o : ForEach.Out) : option In :=
  match o with
  | ForEach.SourceCall start => Some (Invoke start)
  | ForEach.Operation _ => None
  | ForEach.TalkbackCall (VFn O) t => Some (Tb t)
  | ForEach.TalkbackCall _ _ => None
  end.

Definition to_observe (o : Of.Out) : Observe.In :=
  match o with
  | Of.Sink t d => Observe.Msg t d
  end.

Definition from_observe (o : Observe.Out) : option In :=
  match o with
  | Observe.SourceCall start => Some (Invoke start)
  | Observe.Operation _ => None
  end.

(** [forEach(operation)(of(...values))] *)
Definition forEach_of (fuel : nat) (values : list Val)
  : LConfig (SU := Of.State) (OU := Of.Out) (SD := ForEach.State) (OD := ForEach.Out) :=
  lrun (handler values) ForEach.handler to_forEach from_forEach fuel
       (mkLConfig Of.init ForEach.init [FD ForEach.main] [] false).

(** [observe(operation)(of(...values))] *)
Definition observe_of (fuel : nat) (values : list Val)
  : LConfig (SU := Of.State) (OU := Of.Out) (SD := unit) (OD := Observe.Out) :=
  lrun (handler values) Observe.handler to_observe from_observe fuel
       (mkLConfig Of.init tt [FD Observe.main] [] false).

(** What [of] sent, in order. *)
Definition sent {OD : Type} (tr : list (LEvent (OU := Of.Out) (OD := OD)))
  : list (Z * Val) :=
  flat_map (fun e => match e with EvU (Of.Sink t d) => [(t, d)] | _ => [] end) tr.

(** The arguments [operation] was called with, by [forEach] and by
    [observe]. *)
Definition forEach_operations {OU : Type}
           (tr : list (LEvent (OU := OU) (OD := ForEach.Out))) : list Val :=
  flat_map (fun e => match e with EvD (ForEach.Operation d) => [d] | _ => [] end) tr.

Definition observe_operations {OU : Type}
           (tr : list (LEvent (OU := OU) (OD := Observe.Out))) : list Val :=
  flat_map (fun e => match e with EvD (Observe.Operation d) => [d] | _ => [] end) tr.

(** What one value adds to the trace under [forEach] and under [observe]. *)
Definition forEach_turn (v : Val)
  : list (LEvent (OU := Of.Out) (OD := ForEach.Out)) :=
  [ EvU (Of.Sink 1 v);
    EvD (ForEach.Operation v);
    EvD (ForEach.TalkbackCall Of.talkback_ref 1) ].

Definition observe_turn (v : Val)
  : list (LEvent (OU := Of.Out) (OD := Observe.Out)) :=
  [ EvU (Of.Sink 1 v); EvD (Observe.Operation v) ].

(** [observe(operation)(fromIter(iter))] *)
Definition to_observe_iter (o : FromIter.Out) : Observe.In :=
  match o with
  | FromIter.Sink t d => Observe.Msg t d
  end.

Definition from_observe_iter (o : Observe.Out) : option FromIter.In :=
  match o with
  | Observe.SourceCall start => Some (FromIter.Invoke start)
  | Observe.Operation _ => None
  end.

Definition observe_fromIter (fuel : nat) (iter : list Val)
  : LConfig (SU := FromIter.State) (OU := FromIter.Out)
            (SD := unit) (OD := Observe.Out) :=
  lrun (FromIter.handler iter) Observe.handler to_observe_iter from_observe_iter
       fuel (mkLConfig (FromIter.init iter) tt [FD Observe.main] [] false).

End Push.

(** ** What a channel of scan receives and sends *)

Module ScanLog.

(** The DATA that the source of channel [ch] sends. *)
Definition src_data (ch : nat) (ms : list (Move (I := Scan.In))) : list Val :=
  flat_map (fun m => match m with
                     | Enter (Scan.Src c t d) =>
                         if Nat.eqb c ch && (t =? 1) then [d] else []
                     | _ => []
                     end) ms.

(** The DATA sent to the sink of channel [ch]. *)
Definition sink_data (ch : nat) (log : list (Move (I := Scan.In) * option Scan.Out))
  : list Val :=
  flat_map (fun x => match snd x with
                     | Some (Scan.Sink c t d) =>
                         if Nat.eqb c ch && (t =? 1) then [d] else []
                     | _ => []
                     end) log.





End ScanLog.

(** ** What flatten receives and sends *)

Module FlattenLog.

(** The DATA of the inner sources, in the order they arrive. *)
Definition inner_data (ms : list (Move (I := Flatten.In))) : list Val :=
  flat_map (fun m => match m with
                     | Enter (Flatten.Inner t d) => if t =? 1 then [d] else []
                     | _ => []
                     end) ms.

Definition sink_data (log : list (Move (I := Flatten.In) * option Flatten.Out))
  : list Val :=
  flat_map (fun x => match snd x with
                     | Some (Flatten.Sink t d) => if t =? 1 then [d] else []
                     | _ => []
                     end) log.

(** Calls out other than a DATA downstream. *)
Definition silent (o : Flatten.Out) : bool :=
  match o with
  | Flatten.Sink t _ => negb (t =? 1)
  | _ => true
  end.

(** The outer source greets and sends the inner source [VFn 10], which
    greets and sends 1; the outer source sends the inner source [VFn 11],
    the first one is cancelled, the second greets and sends 2; the first
    one, cancelled, still sends 3; the outer source ends, then the inner. *)
Definition scenario : list (Move (I := Flatten.In)) :=
  [ Enter (Flatten.Outer 0 (VFn 1)); Return; Return;
    Enter (Flatten.Outer 1 (VFn 10));
    Enter (Flatten.Inner 0 (VFn 2)); Return; Return;
    Enter (Flatten.Inner 1 (VNum 1)); Return;
    Enter (Flatten.Outer 1 (VFn 11)); Return;
    Enter (Flatten.Inner 0 (VFn 3)); Return; Return;
    Enter (Flatten.Inner 1 (VNum 2)); Return;
    Enter (Flatten.Inner 1 (VNum 3)); Return;
    Enter (Flatten.Outer 2 VUndef);
    Enter (Flatten.Inner 2 VUndef); Return ].

End FlattenLog.

(** ** interval *)

(** [[
const interval = period => (start, sink) => {
  if (start !== 0) return;
  let i = 0;
  const id = setInterval(() => {
    sink(1, i++);
  }, period);
  sink(0, t => {
    if (t === 2) clearInterval(id);
  });
};
]] *)

Module Interval.

Record State : Type := mkState {
  i : Z
}.

Inductive In : Type :=
| Tick          (* the callback handed to [setInterval] *)
| Tb (t : Z).   (* the talkback handed to the sink *)

Inductive Out : Type :=
| SetInterval (period : Val)   (* setInterval(() => ..., period) *)
| ClearInterval                (* clearInterval(id) *)
| Sink (t : Z) (d : Val).      (* sink(t, d) *)

(** The talkback is passed to the sink under this reference. *)
Definition talkback_ref : Val := VFn 0.

Definition init : State := mkState 0.

Definition handler (m : In) : Prog State Out :=
  match m with
  | Tick =>
      (* sink(1, i++): the argument is the old value *)
      Get (fun s => Put (mkState (i s + 1)) (call (Sink 1 (VNum (i s)))))
  | Tb t => if t =? 2 then call ClearInterval else Ret
  end.

(** [interval(period)(start, sink)] *)
Definition body (period : Val) (start : Z) : Prog State Out :=
  if negb (start =? 0) then Ret
  else
    call (SetInterval period) ;;
    call (Sink 0 talkback_ref).

Definition ticks (ms : list (Move (I := In))) : nat :=
  List.length (filter (fun m => match m with Enter Tick => true | _ => false end) ms).

Definition sink_data (log : list (Move (I := In) * option Out)) : list Val :=
  flat_map (fun x => match snd x with
                     | Some (Sink t d) => if t =? 1 then [d] else []
                     | _ => []
                     end) log.

(** [from, from + 1, ..., from + n - 1] *)
Definition count_from (from n : nat) : list Val :=
  map (fun k => VNum (Z.of_nat k)) (List.seq from n).

(** What a suspended activation can be: nothing left to do, or the body
    waiting in [setInterval] with the START still to send. *)
Definition frame (p : Prog State Out) : Prop :=
  p = Ret \/ p = call (Sink 0 talkback_ref).

End Interval.

(** ** fromPromise *)

(** [[
const fromPromise = promise => (start, sink) => {
  if (start !== 0) return;
  let ended = false;
  const onfulfilled = val => {
    if (ended) return;
    sink(1, val);
    sink(2);
  };
  const onrejected = err => {
    if (ended) return;
    sink(2, err);
  };
  promise.then(onfulfilled, onrejected);
  sink(0, t => {
    if (t === 2) ended = true;
  });
};
]] *)

Module FromPromise.

Record State : Type := mkState {
  ended : bool
}.

Inductive In : Type :=
| Onfulfilled (val : Val)
| Onrejected (err : Val)
| Tb (t : Z).              (* the talkback handed to the sink *)

Inductive Out : Type :=
| Then                     (* promise.then(onfulfilled, onrejected) *)
| Sink (t : Z) (d : Val).  (* sink(t, d) *)

(** The talkback is passed to the sink under this reference. *)
Definition talkback_ref : Val := VFn 0.

Definition init : State := mkState false.

Definition handler (m : In) : Prog State Out :=
  match m with
  | Onfulfilled val =>
      Get (fun s =>
        if ended s then Ret
        else
          call (Sink 1 val) ;;
          call (Sink 2 VUndef))
  | Onrejected err =>
      Get (fun s =>
        if ended s then Ret
        else call (Sink 2 err))
  | Tb t => if t =? 2 then upd (fun _ => mkState true) else Ret
  end.

(** [fromPromise(promise)(start, sink)] *)
Definition body (start : Z) : Prog State Out :=
  if negb (start =? 0) then Ret
  else
    call Then ;;
    call (Sink 0 talkback_ref).

(** The calls of the talkback that a sink makes. *)
Definition talkback_calls (ts : list Z) : list (Move (I := In)) :=
  map (fun t => Enter (Tb t)) ts.

(** The moves of a sink. *)
Definition from_sink (m : Move (I := In)) : bool :=
  match m with
  | Enter (Tb _) => true
  | Return => true
  | _ => false
  end.

End FromPromise.

(** ** Attaching sinks to a subject *)

Module SubjectLog.

(** The sinks [ks] are attached one after the other; each returns from its
    START at once. *)
Definition attach (ks : list nat) : list (Move (I := Subject.In)) :=
  flat_map (fun k => [Enter (Subject.Subj 0 (VFn k)); Return]) ks.

(** A message is pushed and each sink that is called returns at once. *)
Definition push (type : Z) (data : Val) (n : nat) : list (Move (I := Subject.In)) :=
  Enter (Subject.Subj type data) :: repeat Return n.

End SubjectLog.

(** ** What forEach receives and does *)

Module ForEachLog.

(** The DATA among the messages of the source, and the number of its
    STARTs and DATA. *)
Definition data (ms : list (Move (I := ForEach.In))) : list Val :=
  flat_map (fun m => match m with
                     | Enter (ForEach.Msg t d) => if t =? 1 then [d] else []
                     | _ => []
                     end) ms.

Definition starts_and_data (ms : list (Move (I := ForEach.In))) : nat :=
  List.length (filter (fun m => match m with
                                | Enter (ForEach.Msg t _) => (t =? 1) || (t =? 0)
                                | _ => false
                                end) ms).

(** The arguments [operation] was called with, and the number of PULLs. *)
Definition operations (log : list (Move (I := ForEach.In) * option ForEach.Out))
  : list Val :=
  flat_map (fun x => match snd x with
                     | Some (ForEach.Operation d) => [d]
                     | _ => []
                     end) log.

Definition pulls (log : list (Move (I := ForEach.In) * option ForEach.Out))
  : nat :=
  List.length (filter (fun x => match snd x with
                                | Some (ForEach.TalkbackCall _ t) => t =? 1
                                | _ => false
                                end) log).

(** What is left to do when [operation(d)] returns: [talkback(1)]. *)
Definition after_operation : Prog ForEach.State ForEach.Out :=
  invoke ForEach.talkback (fun f => ForEach.TalkbackCall f 1).

Definition is_Ret (p : Prog ForEach.State ForEach.Out) : bool :=
  match p with
  | Ret => true
  | _ => false
  end.

(** The calls of [operation] that have not returned yet. *)
Definition in_operation (st : list (Prog ForEach.State ForEach.Out)) : nat :=
  List.length (filter (fun p => negb (is_Ret p)) st).

(** A source greets, answers the first PULL from inside it with 1, and
    later sends 2 unasked. *)
Definition scenario : list (Move (I := ForEach.In)) :=
  [ Enter (ForEach.Msg 0 (VFn 7));
    Enter (ForEach.Msg 1 (VNum 1)); Return; Return;
    Return; Return;
    Enter (ForEach.Msg 1 (VNum 2)); Return; Return ].

End ForEachLog.

(** ** Three linked components *)

(** A source, an operator and a sink.  The calls of the source all go to
    the operator; the operator calls the source or the sink; the sink calls
    the operator, or the source when the operator has handed it the
    talkback of the source, or makes an effect of its own.  A step runs the innermost
    activation to its next call and enters the callee; the trace lists the
    calls in order. *)
Section Chain.
Context {SA IA OA SB IB OB SC IC OC : Type}.
Variable hA : IA -> Prog SA OA.
Variable hB : IB -> Prog SB OB.
Variable hC : IC -> Prog SC OC.
Variable a_to_b : OA -> IB.
Variable b_to : OB -> option (IA + IC).
Variable c_to : OC -> option (IA + IB).

Inductive CFrame : Type :=
| CA (p : Prog SA OA)
| CB (p : Prog SB OB)
| CC (p : Prog SC OC).

Inductive CEvent : Type :=
| EA (o : OA)
| EB (o : OB)
| EC (o : OC).

Record CConfig : Type := mkCConfig {
  csA : SA;
  csB : SB;
  csC : SC;
  cstack : list CFrame;
  ctrace : list CEvent;
  ccrashed : bool
}.

Definition cstep (c : CConfig) : option CConfig :=
  if ccrashed c then None
  else match cstack c with
  | [] => None
  | CA p :: rest =>
      match advance p (csA c) with
      | Finished s => Some (mkCConfig s (csB c) (csC c) rest (ctrace c) false)
      | Crashed s => Some (mkCConfig s (csB c) (csC c) [] (ctrace c) true)
      | Pending s o k =>
          Some (mkCConfig s (csB c) (csC c)
                  (CB (hB (a_to_b o)) :: CA k :: rest)
                  (ctrace c ++ [EA o]) false)
      end
  | CB p :: rest =>
      match advance p (csB c) with
      | Finished s => Some (mkCConfig (csA c) s (csC c) rest (ctrace c) false)
      | Crashed s => Some (mkCConfig (csA c) s (csC c) [] (ctrace c) true)
      | Pending s o k =>
          match b_to o with
          | Some (inl i) =>
              Some (mkCConfig (csA c) s (csC c)
                      (CA (hA i) :: CB k :: rest) (ctrace c ++ [EB o]) false)
          | Some (inr i) =>
              Some (mkCConfig (csA c) s (csC c)
                      (CC (hC i) :: CB k :: rest) (ctrace c ++ [EB o]) false)
          | None =>
              Some (mkCConfig (csA c) s (csC c)
                      (CB k :: rest) (ctrace c ++ [EB o]) false)
          end
      end
  | CC p :: rest =>
      match advance p (csC c) with
      | Finished s => Some (mkCConfig (csA c) (csB c) s rest (ctrace c) false)
      | Crashed s => Some (mkCConfig (csA c) (csB c) s [] (ctrace c) true)
      | Pending s o k =>
          match c_to o with
          | Some (inl i) =>
              Some (mkCConfig (csA c) (csB c) s
                      (CA (hA i) :: CC k :: rest) (ctrace c ++ [EC o]) false)
          | Some (inr i) =>
              Some (mkCConfig (csA c) (csB c) s
                      (CB (hB i) :: CC k :: rest) (ctrace c ++ [EC o]) false)
          | None =>
              Some (mkCConfig (csA c) (csB c) s
                      (CC k :: rest) (ctrace c ++ [EC o]) false)
          end
      end
  end.

Fixpoint crun (fuel : nat) (c : CConfig) : CConfig :=
  match fuel with
  | O => c
  | Datatypes.S fuel' =>
      match cstep c with
      | None => c
      | Some c' => crun fuel' c'
      end
  end.

(** The run is over: no activation is left and nothing was thrown. *)
Definition chalted (c : CConfig) : bool :=
  match cstack c with
  | [] => negb (ccrashed c)
  | _ => false
  end.

(** From [c1] the run gets to [c2]. *)
Definition reaches (c1 c2 : CConfig) : Prop :=
  exists k, forall extra, crun (k + extra) c1 = crun extra c2.

(** An activation with nothing left to do. *)
Definition idle (f : CFrame) : bool :=
  match f with
  | CA Ret => true
  | CB Ret => true
  | CC Ret => true
  | _ => false
  end.

End Chain.

Arguments CA {SA OA SB OB SC OC} p.
Arguments CB {SA OA SB OB SC OC} p.
Arguments CC {SA OA SB OB SC OC} p.
Arguments EA {OA OB OC} o.
Arguments EB {OA OB OC} o.
Arguments EC {OA OB OC} o.

(** ** forEach over take over fromIter *)

Module Pipeline.

(** [take(max)(source)] as a source: it is invoked, and its closures are
    entered. *)
Inductive TakeIn : Type :=
| Invoke (start : Z)
| Closure (i : Take.In).

Definition take (max : Z) (m : TakeIn) : Prog Take.State Take.Out :=
  match m with
  | Invoke start => Take.body start
  | Closure i => Take.handler max i
  end.

(** The talkback of [take] is passed to the sink under this reference,
    that of [fromIter] under [FromIter.talkback_ref]. *)
Definition take_talkback_ref : Val := VFn 1.

Definition a_to_b (o : FromIter.Out) : TakeIn :=
  match o with
  | FromIter.Sink t d => Closure (Take.Src t d)
  end.

Definition b_to (o : Take.Out) : option (FromIter.In + ForEach.In) :=
  match o with
  | Take.SrcInvoke => Some (inl (FromIter.Invoke 0))
  | Take.SinkStart => Some (inr (ForEach.Msg 0 take_talkback_ref))
  | Take.Sink t d => Some (inr (ForEach.Msg t d))
  | Take.Up (VFn O) t d => Some (inl (FromIter.Tb t))
  | Take.Up _ _ _ => None
  end.

Definition c_to (o : ForEach.Out) : option (FromIter.In + TakeIn) :=
  match o with
  | ForEach.SourceCall start => Some (inr (Invoke start))
  | ForEach.Operation _ => None
  | ForEach.TalkbackCall (VFn (Datatypes.S O)) t =>
      Some (inr (Closure (Take.Tb t VUndef)))
  | ForEach.TalkbackCall _ _ => None
  end.

Definition Event : Type :=
  CEvent (OA := FromIter.Out) (OB := Take.Out) (OC := ForEach.Out).

Definition Frame : Type :=
  CFrame (SA := FromIter.State) (OA := FromIter.Out)
         (SB := Take.State) (OB := Take.Out)
         (SC := ForEach.State) (OC := ForEach.Out).

Definition Config : Type :=
  CConfig (SA := FromIter.State) (OA := FromIter.Out)
          (SB := Take.State) (OB := Take.Out)
          (SC := ForEach.State) (OC := ForEach.Out).

Definition step (max : Z) (iter : list Val) : Config -> option Config :=
  cstep (FromIter.handler iter) (take max) ForEach.handler a_to_b b_to c_to.

(** [forEach(operation)(take(max)(fromIter(iter)))] about to run. *)
Definition start (iter : list Val) : Config :=
  mkCConfig (FromIter.init iter) Take.init ForEach.init
            [CC ForEach.main] [] false.

Definition pipeline (fuel : nat) (max : Z) (iter : list Val) : Config :=
  crun (FromIter.handler iter) (take max) ForEach.handler a_to_b b_to c_to
       fuel (start iter).

Definition gets_to (max : Z) (iter : list Val) : Config -> Config -> Prop :=
  reaches (FromIter.handler iter) (take max) ForEach.handler a_to_b b_to c_to.

(** The arguments [operation] was called with, in order. *)
Definition operations (tr : list Event) : list Val :=
  flat_map (fun e => match e with EC (ForEach.Operation d) => [d] | _ => [] end) tr.

(** The ENDs that [take] sent to [forEach], and the cancellations that it
    sent to [fromIter]. *)
Definition ends (tr : list Event) : nat :=
  List.length (filter (fun e => match e with
                                | EB (Take.Sink t _) => t =? 2
                                | _ => false
                                end) tr).

Definition cancels (tr : list Event) : nat :=
  List.length (filter (fun e => match e with
                                | EB (Take.Up _ t _) => t =? 2
                                | _ => false
                                end) tr).

End Pipeline.

(** ** forEach over filter and over skip, over fromIter *)

(** [filter] and [skip] pass the START of the source on as it is, so the
    sink holds the talkback of the source and pulls the source itself. *)
Module Sieve.

Inductive FilterIn : Type :=
| FInvoke (start : Z)
| FClosure (i : Filter.In).

Definition filter_ (condition : Val -> bool) (m : FilterIn)
  : Prog Filter.State Filter.Out :=
  match m with
  | FInvoke start => Filter.body start
  | FClosure i => Filter.handler condition i
  end.

Definition to_filter (o : FromIter.Out) : FilterIn :=
  match o with
  | FromIter.Sink t d => FClosure (Filter.Src t d)
  end.

Definition from_filter (o : Filter.Out) : option (FromIter.In + ForEach.In) :=
  match o with
  | Filter.SrcInvoke => Some (inl (FromIter.Invoke 0))
  | Filter.Sink t d => Some (inr (ForEach.Msg t d))
  | Filter.Up (VFn O) t => Some (inl (FromIter.Tb t))
  | Filter.Up _ _ => None
  end.

Definition sink_of_filter (o : ForEach.Out) : option (FromIter.In + FilterIn) :=
  match o with
  | ForEach.SourceCall start => Some (inr (FInvoke start))
  | ForEach.Operation _ => None
  | ForEach.TalkbackCall (VFn O) t => Some (inl (FromIter.Tb t))
  | ForEach.TalkbackCall _ _ => None
  end.

Definition FilterConfig : Type :=
  CConfig (SA := FromIter.State) (OA := FromIter.Out)
          (SB := Filter.State) (OB := Filter.Out)
          (SC := ForEach.State) (OC := ForEach.Out).

(** [forEach(operation)(filter(condition)(fromIter(iter)))] *)
Definition filtered (fuel : nat) (condition : Val -> bool) (iter : list Val)
  : FilterConfig :=
  crun (FromIter.handler iter) (filter_ condition) ForEach.handler
       to_filter from_filter sink_of_filter fuel
       (mkCConfig (FromIter.init iter) Filter.init ForEach.init
                  [CC ForEach.main] [] false).

Definition filter_gets_to (condition : Val -> bool) (iter : list Val)
  : FilterConfig -> FilterConfig -> Prop :=
  reaches (FromIter.handler iter) (filter_ condition) ForEach.handler
          to_filter from_filter sink_of_filter.

Inductive SkipIn : Type :=
| SInvoke (start : Z)
| SClosure (i : Skip.In).

Definition skip_ (max : Z) (m : SkipIn) : Prog Skip.State Skip.Out :=
  match m with
  | SInvoke start => Skip.body start
  | SClosure i => Skip.handler max i
  end.

Definition to_skip (o : FromIter.Out) : SkipIn :=
  match o with
  | FromIter.Sink t d => SClosure (Skip.Src t d)
  end.

Definition from_skip (o : Skip.Out) : option (FromIter.In + ForEach.In) :=
  match o with
  | Skip.SrcInvoke => Some (inl (FromIter.Invoke 0))
  | Skip.Sink t d => Some (inr (ForEach.Msg t d))
  | Skip.Up (VFn O) t => Some (inl (FromIter.Tb t))
  | Skip.Up _ _ => None
  end.

Definition sink_of_skip (o : ForEach.Out) : option (FromIter.In + SkipIn) :=
  match o with
  | ForEach.SourceCall start => Some (inr (SInvoke start))
  | ForEach.Operation _ => None
  | ForEach.TalkbackCall (VFn O) t => Some (inl (FromIter.Tb t))
  | ForEach.TalkbackCall _ _ => None
  end.

Definition SkipConfig : Type :=
  CConfig (SA := FromIter.State) (OA := FromIter.Out)
          (SB := Skip.State) (OB := Skip.Out)
          (SC := ForEach.State) (OC := ForEach.Out).

(** [forEach(operation)(skip(max)(fromIter(iter)))] *)
Definition skipped (fuel : nat) (max : Z) (iter : list Val) : SkipConfig :=
  crun (FromIter.handler iter) (skip_ max) ForEach.handler
       to_skip from_skip sink_of_skip fuel
       (mkCConfig (FromIter.init iter) Skip.init ForEach.init
                  [CC ForEach.main] [] false).

Definition skip_gets_to (max : Z) (iter : list Val)
  : SkipConfig -> SkipConfig -> Prop :=
  reaches (FromIter.handler iter) (skip_ max) ForEach.handler
          to_skip from_skip sink_of_skip.

(** The arguments [operation] was called with, in order, and the ENDs that
    reached [forEach]. *)
Definition operations {OA OB : Type}
           (tr : list (CEvent (OA := OA) (OB := OB) (OC := ForEach.Out)))
  : list Val :=
  flat_map (fun e => match e with EC (ForEach.Operation d) => [d] | _ => [] end) tr.

Definition filter_ends
           (tr : list (CEvent (OA := FromIter.Out) (OB := Filter.Out)
                              (OC := ForEach.Out))) : nat :=
  List.length (filter (fun e => match e with
                                | EB (Filter.Sink t _) => t =? 2
                                | _ => false
                                end) tr).

Definition skip_ends
           (tr : list (CEvent (OA := FromIter.Out) (OB := Skip.Out)
                              (OC := ForEach.Out))) : nat :=
  List.length (filter (fun e => match e with
                                | EB (Skip.Sink t _) => t =? 2
                                | _ => false
                                end) tr).

End Sieve.

(** ** The sources that the talkback of merge reaches *)

Module MergeTalkback.

(** What [sourceTalkbacks[i]] holds after one more move, [v] being what it
    held: the START of source [i] stores its payload, its END stores
    [undefined], and nothing else assigns the slot. *)
Definition slot_step (i : nat) (v : Val) (m : Move (I := Merge.In)) : Val :=
  match m with
  | Enter (Merge.Src j t d) =>
      if Nat.eqb j i then
        if t =? 0 then d else if t =? 2 then VUndef else v
      else v
  | _ => v
  end.

(** The talkback of source [i] after the moves [ms]: what its latest START
    brought, and [undefined] before its first START and once it has ended. *)
Definition slot (i : nat) (ms : list (Move (I := Merge.In))) : Val :=
  fold_left (slot_step i) ms VUndef.

(** The sources that have greeted with something truthy and not ended
    since. *)
Definition live (n : nat) (ms : list (Move (I := Merge.In))) : list nat :=
  filter (fun i => truthy (slot i ms)) (List.seq 0 n).

(** What every live source brought is a function. *)
Definition well_formed (n : nat) (ms : list (Move (I := Merge.In))) : bool :=
  forallb (fun i => callable (slot i ms)) (live n ms).

(** Three sources are invoked: the first greets, the second does not, the
    third greets and, later, ends. *)
Definition one_live : list (Move (I := Merge.In)) :=
  [ Enter (Merge.Src 0%nat 0 (VFn 1)); Return;  (* source 0: sink(0, tb0) *)
    Return;                                     (* sources[0](0, ...) returns *)
    Return;                                     (* sources[1](0, ...) returns *)
    Enter (Merge.Src 2%nat 0 (VFn 3));          (* source 2: sink(0, tb2) *)
    Return;                                     (* sources[2](0, ...) returns *)
    Enter (Merge.Src 2%nat 2 VUndef) ].         (* source 2: sink(2) *)

End MergeTalkback.

(** * Properties *)

(** ** The machine *)

Section MachineFacts.
Context {S I O : Type}.
Variable handler : I -> Prog S O.

Lemma run_app (c : Config) (ms1 ms2 : list (Move (I := I))) :
  run handler c (ms1 ++ ms2) =
  (fst (run handler (fst (run handler c ms1)) ms2),
   snd (run handler c ms1) ++ snd (run handler (fst (run handler c ms1)) ms2)).
Proof.
  revert c; induction ms1 as [|m ms1 IH]; intros c; simpl.
  - now destruct (run handler c ms2).
  - destruct (move handler c m) as [c1 o].
    rewrite IH.
    destruct (run handler c1 ms1) as [c2 l]; simpl.
    reflexivity.
Qed.

Lemma outs_app (l1 l2 : list (Move (I := I) * option O)) :
  outs (l1 ++ l2) = outs l1 ++ outs l2.
Proof. unfold outs; apply flat_map_app. Qed.

(** Once a TypeError has unwound the stack, nothing moves any more. *)
Lemma run_crashed (c : Config) (ms : list (Move (I := I))) :
  crashed c = true -> crashed (fst (run handler c ms)) = true.
Proof.
  revert c; induction ms as [|m ms IH]; intros c H; simpl; [exact H|].
  unfold move. rewrite H.
  specialize (IH c H). destruct (run handler c ms); exact IH.
Qed.

Lemma run_cons (c : Config) (m : Move (I := I)) (ms : list Move) :
  run handler c (m :: ms) =
  (fst (run handler (fst (move handler c m)) ms),
   (m, snd (move handler c m)) :: snd (run handler (fst (move handler c m)) ms)).
Proof.
  simpl. destruct (move handler c m) as [c1 o]; simpl.
  destruct (run handler c1 ms); reflexivity.
Qed.

End MachineFacts.

(** ** Induction over a run *)

Section RunInvariant.
Context {S I O : Type}.
Variable handler : I -> Prog S O.
Variable ok : Move (I := I) -> Prop.
Variable Inv : Config (S := S) (O := O) -> list (Move (I := I) * option O) -> Prop.

Hypothesis step :
  forall c log m,
    ok m -> Inv c log ->
    Inv (fst (move handler c m)) (log ++ [(m, snd (move handler c m))]).

Lemma run_invariant (c0 : Config) :
  Inv c0 [] ->
  forall ms, Forall ok ms ->
    Inv (fst (run handler c0 ms)) (snd (run handler c0 ms)).
Proof.
  intros H0 ms. induction ms as [|m ms IH] using rev_ind; intros Hok.
  - exact H0.
  - apply Forall_app in Hok as [Hms Hm].
    rewrite run_app. cbn [fst snd]. rewrite run_cons. cbn [run fst snd].
    apply step; [now inversion Hm | auto].
Qed.

End RunInvariant.

(** A move made after a TypeError changes nothing, so a configuration that
    is not crashed comes from one that was not. *)
Lemma move_not_crashed {S I O} (handler : I -> Prog S O) (c : Config) (m : Move) :
  crashed (fst (move handler c m)) = false -> crashed c = false.
Proof.
  unfold move. destruct (crashed c) eqn:E; [|reflexivity].
  cbn. congruence.
Qed.

Lemma run_moves {S I O} (handler : I -> Prog S O) (ms : list Move) :
  forall c : Config, map fst (snd (run handler c ms)) = ms.
Proof.
  induction ms as [|m ms IH]; intros c; [reflexivity|].
  rewrite run_cons. cbn. now rewrite IH.
Qed.

(** ** merge with no source *)

Lemma merge_zero_idle (m : Move (I := Merge.In)) :
  Merge.possible 0 m = true ->
  move (Merge.handler 0) (mkConfig (Merge.init 0) [] false) m =
  (mkConfig (Merge.init 0) [] false, None).
Proof.
  destruct m as [[j t d|t]|]; simpl; intros H.
  - discriminate.
  - unfold move; simpl. unfold Merge.talkback.
    destruct (t =? 0); reflexivity.
  - reflexivity.
Qed.

(** C1, evaluated on the code: [merge()] invoked with no source calls
    nothing at all.  Invoking it returns without any call to the sink, so
    no START is sent; and since no talkback was handed out and no source
    holds a sink, whatever the surrounding code does afterwards leads to no
    call of the sink either: no DATA and no END. *)
Theorem merge_zero_sources_sends_nothing :
  boot (Merge.body 0 0) (Merge.init 0) =
    (mkConfig (Merge.init 0) [] false, None) /\
  forall ms : list Move,
    forallb (Merge.possible 0) ms = true ->
    outs (snd (run (Merge.handler 0)
                 (fst (boot (Merge.body 0 0) (Merge.init 0))) ms)) = [].
Proof.
  split; [reflexivity|].
  change (fst (boot (Merge.body 0 0) (Merge.init 0)))
    with (mkConfig (S := Merge.State) (O := Merge.Out) (Merge.init 0) [] false).
  induction ms as [|m ms IH]; intros H; [reflexivity|].
  simpl in H; apply andb_prop in H as [Hm Hms].
  simpl. rewrite (merge_zero_idle m Hm).
  specialize (IH Hms).
  destruct (run (Merge.handler 0) _ ms) as [c l]; simpl in *.
  exact IH.
Qed.

Lemma merge_zero_sources_witness :
  outs (snd (run (Merge.handler 0)
               (fst (boot (Merge.body 0 0) (Merge.init 0)))
               [Enter (Merge.Tb 1); Return; Enter (Merge.Tb 2)])) = [].
Proof.
  apply (proj2 merge_zero_sources_sends_nothing); reflexivity.
Defined.

(** ** END with an error in sample, merge and combine *)

(** C2, as stated, fails on the code.  When the pullable side of [sample]
    ends with the error ["boom"], the END sent downstream carries no error;
    when the first of two merged sources ends with ["boom"], nothing is sent
    downstream and the other source is not cancelled. *)
Lemma error_end_not_forwarded :
  (let log := snd (run Sample.handler (fst (boot (Sample.body 0) Sample.init))
                     (Sample.pullable_fails (VStr "boom"))) in
   In (Sample.Sink 2 VUndef) (outs log) /\
   ~ In (Sample.Sink 2 (VStr "boom")) (outs log)) /\
  (let log := snd (run (Merge.handler 2) (fst (boot (Merge.body 2 0) (Merge.init 2)))
                     (Merge.first_fails (VStr "boom"))) in
   outs log = [Merge.SinkStart; Merge.SrcInvoke 1]).
Proof.
  split; [split|].
  - vm_compute. tauto.
  - vm_compute. intros H.
    repeat (destruct H as [H|H]; [discriminate H|]). exact H.
  - reflexivity.
Qed.

(** C2, amended to what the code does.  The operators over one source that
    pass messages on, [take] and [scan], forward an END with the error it
    carries.  In [sample], [merge] and [combine] an END is handled the same
    way with or without an error, and the error never travels on.  In
    [sample], an END from the pullable side cancels the listenable side and
    sends an END without payload downstream, and an END from the listenable
    side cancels the pullable side and sends an END without payload
    downstream.  In [merge] and [combine], an END from a source is counted:
    no other source is cancelled, and an END without payload is sent
    downstream exactly when every source has then ended.  This holds
    whatever the surrounding code does while the calls are pending. *)
Theorem error_end_amended :
  (forall (max : Z) (s : Take.State) (e : Val) env,
     calls (Take.handler max (Take.Src 2 e)) s env = [Take.Sink 2 e]) /\
  (forall reducer (ch : nat) (s : Scan.State) (e : Val) env,
     calls (Scan.from_source reducer ch 2 e) s env = [Scan.Sink ch 2 e]) /\
  (forall (s : Sample.State) (e : Val) env,
     callable (Sample.ltalkback s) = true ->
     calls (Sample.handler (Sample.P 2 e)) s env =
       [Sample.LUp (Sample.ltalkback s) 2; Sample.Sink 2 VUndef]) /\
  (forall (s : Sample.State) (e : Val) env,
     callable (Sample.ptalkback s) = true ->
     calls (Sample.handler (Sample.L 2 e)) s env =
       [Sample.PUp (Sample.ptalkback s) 2; Sample.Sink 2 VUndef]) /\
  (forall (n i : nat) (s : Merge.State) (e : Val) env,
     calls (Merge.handler n (Merge.Src i 2 e)) s env =
       if Merge.endCount s + 1 =? Z.of_nat n then [Merge.Sink 2 VUndef] else []) /\
  (forall (n i : nat) (s : Combine.State) (e : Val) env,
     calls (Combine.handler n (Combine.Src i 2 e)) s env =
       if Combine.Ne s - 1 =? 0 then [Combine.Sink 2 VUndef] else []).
Proof.
  repeat split.
  - intros s e env H. unfold calls; cbn. rewrite H. reflexivity.
  - intros s e env H. unfold calls; cbn. rewrite H. reflexivity.
  - intros n i s e env. unfold calls; cbn.
    destruct (Merge.endCount s + 1 =? Z.of_nat n); reflexivity.
  - intros n i s e env. unfold calls; cbn.
    destruct (Combine.Ne s - 1 =? 0); reflexivity.
Qed.

Lemma error_end_amended_witness :
  calls (Sample.handler (Sample.P 2 (VStr "boom")))
        (Sample.mkState (VFn 1) (VFn 2)) [] =
    [Sample.LUp (VFn 1) 2; Sample.Sink 2 VUndef] /\
  calls (Sample.handler (Sample.L 2 (VStr "boom")))
        (Sample.mkState (VFn 1) (VFn 2)) [] =
    [Sample.PUp (VFn 2) 2; Sample.Sink 2 VUndef].
Proof.
  split.
  - apply (proj1 (proj2 (proj2 error_end_amended))
             (Sample.mkState (VFn 1) (VFn 2))); reflexivity.
  - apply (proj1 (proj2 (proj2 (proj2 error_end_amended)))
             (Sample.mkState (VFn 1) (VFn 2))); reflexivity.
Defined.

(** ** scan without a seed *)

(** C3, evaluated on the code.  [scan((a, v) => [a, v])] is applied to a
    source and the scanned source is invoked twice.  The first channel
    forwards its first item 5 as it is and then [[5, 6]].  The second
    channel does not forward its first item 7 as it is: [hasAcc] was left
    [true] by the first channel, so the reducer is applied to the fresh
    [acc], which is [undefined], and [[undefined, 7]] is sent.  In general,
    once [hasAcc] is set, the first item [d] of a fresh channel is sent as
    [reducer(undefined, d)]. *)
Theorem scan_second_channel_inherits_hasAcc :
  outs (snd (run (Scan.handler Scan.pair_reducer None)
               (mkConfig (Scan.init None) [] false) Scan.two_channels)) =
    [ Scan.SrcInvoke 0; Scan.Sink 0 1 (VNum 5);
      Scan.Sink 0 1 (VArr [VNum 5; VNum 6]); Scan.Sink 0 2 VUndef;
      Scan.SrcInvoke 1; Scan.Sink 1 1 (VArr [VUndef; VNum 7]) ] /\
  forall reducer (ch : nat) (s : Scan.State) (d : Val) env,
    Scan.hasAcc s = true ->
    Scan.acc ch s = VUndef ->
    calls (Scan.from_source reducer ch 1 d) s env =
      [Scan.Sink ch 1 (reducer VUndef d)].
Proof.
  split; [reflexivity|].
  intros reducer ch s d env Hh Ha.
  unfold calls; cbn. rewrite Hh. cbn.
  unfold Scan.acc at 1. cbn. rewrite Nat.eqb_refl.
  fold (Scan.acc ch s). rewrite Ha. reflexivity.
Qed.

Lemma scan_second_channel_witness :
  calls (Scan.from_source Scan.pair_reducer 1 1 (VNum 7))
        (Scan.mkState true [(0%nat, VArr [VNum 5; VNum 6])]) [] =
    [Scan.Sink 1 1 (VArr [VUndef; VNum 7])].
Proof.
  apply (proj2 scan_second_channel_inherits_hasAcc); reflexivity.
Defined.

(** ** END with an error in flatten *)

(** C4, as stated, fails on the code.  With the outer source and an inner
    source both live, an inner END with the error ["boom"] is forwarded
    downstream and that is the only call made: the outer talkback is not
    called.  Likewise an outer END with ["boom"] is forwarded and the inner
    talkback is not called. *)
Lemma flatten_error_end_cancels_nothing :
  let c := fst (run Flatten.handler (fst (boot (Flatten.body 0) Flatten.init))
                  Flatten.both_live) in
  state c = Flatten.mkState false (VFn 1) (VFn 2) /\
  (let o := outs (snd (run Flatten.handler c
                         [Enter (Flatten.Inner 2 (VStr "boom")); Return])) in
   o = [Flatten.Sink 2 (VStr "boom")] /\
   ~ In (Flatten.UpOuter (VFn 1) 2 VUndef) o) /\
  (let o := outs (snd (run Flatten.handler c
                         [Enter (Flatten.Outer 2 (VStr "boom")); Return])) in
   o = [Flatten.Sink 2 (VStr "boom")] /\
   ~ In (Flatten.UpInner (VFn 2) 2 VUndef) o).
Proof.
  vm_compute.
  repeat split; try reflexivity;
    intros H; repeat (destruct H as [H|H]; [discriminate H|]); exact H.
Qed.

(** C4, amended to what the code does: an END with an error from an inner
    source is forwarded downstream at once as an END carrying that error,
    and so is an END with an error from the outer source; in both cases
    this is the only call flatten makes, so the other side is not
    cancelled. *)
Theorem flatten_error_end_amended :
  forall (s : Flatten.State) (e : Val) env,
    exists_ e = true ->
    calls (Flatten.handler (Flatten.Inner 2 e)) s env = [Flatten.Sink 2 e] /\
    calls (Flatten.handler (Flatten.Outer 2 e)) s env = [Flatten.Sink 2 e].
Proof.
  intros s e env H.
  unfold calls, Flatten.handler, Flatten.from_inner, Flatten.from_outer, absent.
  rewrite H. split; reflexivity.
Qed.

Lemma flatten_error_end_amended_witness :
  calls (Flatten.handler (Flatten.Inner 2 (VStr "boom")))
        (Flatten.mkState false (VFn 1) (VFn 2)) [] =
    [Flatten.Sink 2 (VStr "boom")] /\
  calls (Flatten.handler (Flatten.Outer 2 (VStr "boom")))
        (Flatten.mkState false (VFn 1) (VFn 2)) [] =
    [Flatten.Sink 2 (VStr "boom")].
Proof.
  apply (flatten_error_end_amended (Flatten.mkState false (VFn 1) (VFn 2))
           (VStr "boom") []).
  reflexivity.
Defined.

(** ** take over a source that answers inside the pull *)

(** C5, evaluated on the code.  [take(2)] runs over a pull source that
    sends each item from inside the talkback call, drained by [forEach].
    The second item arrives while the handler of the first one is still
    waiting for [sink(1, 10)] to return.  The handler of the second item
    sends END downstream and cancels upstream; when the handler of the
    first item resumes it finds [taken === max] as well, and sends a second
    END downstream and a second cancellation upstream. *)
Theorem take_ends_twice_on_reentrant_source :
  outs (snd (run (Take.handler 2) (fst (boot (Take.body 0) Take.init))
               Take.sync_pull_moves)) =
    [ Take.SinkStart;
      Take.Up (VFn 1) 1 VUndef; Take.Sink 1 (VNum 10);
      Take.Up (VFn 1) 1 VUndef; Take.Sink 1 (VNum 11);
      Take.Sink 2 VUndef; Take.Up (VFn 1) 2 VUndef;
      Take.Sink 2 VUndef; Take.Up (VFn 1) 2 VUndef ].
Proof. reflexivity. Qed.

(** ** Dispatch in a subject *)

Lemma mem_In (k : nat) (l : list nat) : mem k l = true <-> In k l.
Proof.
  unfold mem. rewrite existsb_exists. split.
  - intros [x [Hx He]]. apply Nat.eqb_eq in He. now subst.
  - intros H. exists k. split; [exact H | apply Nat.eqb_refl].
Qed.

Lemma mem_not_In (k : nat) (l : list nat) : mem k l = false <-> ~ In k l.
Proof.
  rewrite <- mem_In. destruct (mem k l); split; congruence.
Qed.

Section SubjectDispatch.
Variable type : Z.
Variable data : Val.

Lemma deliver_sound (zinkz : list nat) :
  forall (s : Subject.State) env o s',
    In (o, s') (fst (play (Subject.deliver zinkz type data) s env)) ->
    exists k, o = Subject.Sink k type data /\ In k zinkz /\ In k (Subject.sinks s').
Proof.
  induction zinkz as [|z rest IH]; intros s env o s' H; simpl in H.
  - contradiction.
  - destruct (mem z (Subject.sinks s)) eqn:E; simpl in H.
    + destruct H as [H|H].
      * inversion H; subst. exists z. apply mem_In in E.
        repeat split; [now left | exact E].
      * apply IH in H as (k & -> & Hk & Hs').
        exists k. repeat split; [now right | exact Hs'].
    + apply IH in H as (k & -> & Hk & Hs').
      exists k. repeat split; [now right | exact Hs'].
Qed.

Lemma deliver_complete (k : nat) (zinkz : list nat) :
  forall (s : Subject.State) env,
    In k zinkz -> In k (Subject.sinks s) -> Forall (Subject.keeps k) env ->
    In (Subject.Sink k type data) (calls (Subject.deliver zinkz type data) s env).
Proof.
  unfold calls.
  induction zinkz as [|z rest IH]; intros s env Hk Hs Henv; simpl in *.
  - contradiction.
  - assert (Hnext : In k (Subject.sinks (disturb env s))).
    { destruct Henv as [|f env' Hf _]; simpl; auto. }
    assert (Htl : Forall (Subject.keeps k) (tl env)).
    { destruct Henv; simpl; auto. }
    destruct (mem z (Subject.sinks s)) eqn:E; simpl.
    + destruct Hk as [->|Hk]; [now left | right; auto].
    + destruct Hk as [->|Hk]; [|auto].
      apply mem_In in Hs. congruence.
Qed.

Lemma deliver_skips (k : nat) (zinkz : list nat) :
  forall (s : Subject.State) env,
    ~ In k (Subject.sinks s) -> Forall (Subject.leaves_out k) env ->
    ~ In (Subject.Sink k type data) (calls (Subject.deliver zinkz type data) s env).
Proof.
  unfold calls.
  induction zinkz as [|z rest IH]; intros s env Hs Henv; simpl.
  - tauto.
  - assert (Hnext : ~ In k (Subject.sinks (disturb env s))).
    { destruct Henv as [|f env' Hf _]; simpl; auto. }
    assert (Htl : Forall (Subject.leaves_out k) (tl env)).
    { destruct Henv; simpl; auto. }
    destruct (mem z (Subject.sinks s)) eqn:E; simpl.
    + intros [H|H].
      * inversion H; subst. apply mem_In in E. contradiction.
      * revert H. apply IH; assumption.
    + apply IH; assumption.
Qed.

Lemma deliver_after_detach (k : nat) (zinkz : list nat) :
  forall (s : Subject.State) pre f env,
    (forall s1, ~ In k (Subject.sinks (f s1))) ->
    Forall (Subject.leaves_out k) env ->
    ~ In (Subject.Sink k type data)
        (skipn (Datatypes.S (List.length pre))
               (calls (Subject.deliver zinkz type data) s (pre ++ f :: env))).
Proof.
  induction zinkz as [|z rest IH]; intros s pre f env Hf Henv.
  - simpl. tauto.
  - unfold calls in *. simpl.
    destruct (mem z (Subject.sinks s)) eqn:E; simpl.
    + destruct pre as [|p pre]; simpl.
      * apply deliver_skips; auto.
      * apply IH; assumption.
    + apply IH; assumption.
Qed.

End SubjectDispatch.

(** C10: a DATA or END pushed into a subject is dispatched over the copy of
    [sinks] taken when the push starts, and membership in the live [sinks]
    is tested again before each delivery.  Whatever the sinks do to the
    subject from inside their callbacks ([env], one change of the variables
    per delivery): every delivery carries the pushed message to a sink that
    was attached when the push started and is attached at the moment of the
    delivery; a sink that was not attached when the push started gets
    nothing; a sink that one of the callbacks detaches ([f], after the
    callbacks [pre]), and that nobody attaches again, gets nothing from
    then on; and a sink attached when the push started that nobody detaches
    does get the message. *)
Theorem subject_dispatch_snapshot_and_recheck :
  forall (s : Subject.State) (type : Z) (data : Val)
         (env : list (Subject.State -> Subject.State)),
    type <> 0 ->
    let deliveries := fst (play (Subject.handler (Subject.Subj type data)) s env) in
    (forall o s', In (o, s') deliveries ->
       exists k, o = Subject.Sink k type data /\
                 In k (Subject.sinks s) /\ In k (Subject.sinks s')) /\
    (forall k, ~ In k (Subject.sinks s) ->
       ~ In (Subject.Sink k type data) (map fst deliveries)) /\
    (forall k pre f env', env = pre ++ f :: env' ->
       (forall s1, ~ In k (Subject.sinks (f s1))) ->
       Forall (Subject.leaves_out k) env' ->
       ~ In (Subject.Sink k type data)
            (map fst (skipn (Datatypes.S (List.length pre)) deliveries))) /\
    (forall k, In k (Subject.sinks s) -> Forall (Subject.keeps k) env ->
       In (Subject.Sink k type data) (map fst deliveries)).
Proof.
  intros s type data env Ht deliveries.
  assert (Hd : deliveries =
               fst (play (Subject.deliver (Subject.sinks s) type data) s env)).
  { unfold deliveries, Subject.handler, Subject.subject.
    apply Z.eqb_neq in Ht. rewrite Ht. reflexivity. }
  assert (Hsound : forall o s', In (o, s') deliveries ->
            exists k, o = Subject.Sink k type data /\
                      In k (Subject.sinks s) /\ In k (Subject.sinks s')).
  { rewrite Hd. intros o s'. apply deliver_sound. }
  repeat split.
  - exact Hsound.
  - intros k Hk H. apply in_map_iff in H as [[o s'] [Ho H]].
    apply Hsound in H as (k' & -> & Hk' & _).
    simpl in Ho. inversion Ho; subst. contradiction.
  - intros k pre f env' -> Hf Henv'. rewrite Hd, <- skipn_map.
    apply (deliver_after_detach type data k (Subject.sinks s) s pre f env' Hf Henv').
  - intros k Hk Henv. rewrite Hd.
    apply (deliver_complete type data k (Subject.sinks s) s env Hk Hk Henv).
Qed.

Lemma subject_dispatch_witness :
  1 <> 0 /\
  ~ In (Subject.Sink 4 1 (VNum 42))
       (calls (Subject.handler (Subject.Subj 1 (VNum 42)))
              (Subject.mkState [1; 2; 3]%nat) [Subject.detach_2_attach_4]).
Proof.
  split; [discriminate|].
  apply (proj1 (proj2 (subject_dispatch_snapshot_and_recheck
           (Subject.mkState [1; 2; 3]%nat) 1 (VNum 42)
           [Subject.detach_2_attach_4] ltac:(discriminate)))).
  simpl. intros [H|[H|[H|H]]]; try discriminate H; exact H.
Defined.

(** The same on the machine: sinks 1, 2 and 3 are attached; during the
    delivery to sink 1, sink 2 is detached and sink 4 attached.  The DATA
    reaches sinks 1 and 3 only. *)
Example subject_dispatch_on_the_machine :
  outs (snd (run Subject.handler (mkConfig Subject.init [] false)
               Subject.detach_and_attach_during_dispatch)) =
    [ Subject.SinkStart 1; Subject.SinkStart 2; Subject.SinkStart 3;
      Subject.Sink 1 1 (VNum 42);
      Subject.SinkStart 4;
      Subject.Sink 3 1 (VNum 42) ].
Proof. reflexivity. Qed.

(** ** forEach over fromIter *)

Section LinkFacts.
Context {SU IU OU SD ID OD : Type}.
Variable hU : IU -> Prog SU OU.
Variable hD : ID -> Prog SD OD.
Variable toD : OU -> ID.
Variable toU : OD -> option IU.

Lemma lrun_stuck (c : LConfig) (fuel : nat) :
  lstep hU hD toD toU c = None -> lrun hU hD toD toU fuel c = c.
Proof. intros H. destruct fuel; simpl; [|rewrite H]; reflexivity. Qed.

Lemma lrun_add (a b : nat) (c : LConfig) :
  lrun hU hD toD toU (a + b) c = lrun hU hD toD toU b (lrun hU hD toD toU a c).
Proof.
  revert c; induction a as [|a IH]; intros c; simpl.
  - reflexivity.
  - destruct (lstep hU hD toD toU c) eqn:E.
    + apply IH.
    + symmetry. now apply lrun_stuck.
Qed.

End LinkFacts.

Lemma operations_app (l1 l2 : list Drain.Event) :
  Drain.operations (l1 ++ l2) = Drain.operations l1 ++ Drain.operations l2.
Proof. apply flat_map_app. Qed.

Lemma received_app (l1 l2 : list Drain.Event) :
  Drain.received (l1 ++ l2) = Drain.received l1 ++ Drain.received l2.
Proof. apply flat_map_app. Qed.

Lemma operations_turns (xs : list Val) :
  Drain.operations (flat_map Drain.turn xs) = xs.
Proof. induction xs as [|v xs IH]; simpl; [|rewrite IH]; reflexivity. Qed.

Lemma received_turns (xs : list Val) :
  Drain.received (flat_map Drain.turn xs) = map (fun v => (1, v)) xs.
Proof. induction xs as [|v xs IH]; simpl; [|rewrite IH]; reflexivity. Qed.

(** The loop of [fromIter] with [forEach] as its sink: entered with [got1]
    set, it hands out what the iterator holds, one item per turn, each turn
    ending with the pull that sets [got1] again; then it sends END and
    leaves. *)
Lemma drain_loop (iter xs : list Val) :
  forall (r : FromIter.Res) (it : list Val) (tr : list Drain.Event) rest,
    lrun (FromIter.handler iter) ForEach.handler Drain.toD Drain.toU
         (5 * List.length xs + 3)%nat
         (mkLConfig (FromIter.mkState it true true false r)
                    (ForEach.mkState FromIter.talkback_ref)
                    (FU (FromIter.loop_from xs) :: rest) tr false) =
    mkLConfig (FromIter.mkState [] false false false FromIter.ResDone)
              (ForEach.mkState FromIter.talkback_ref)
              rest
              (tr ++ flat_map Drain.turn xs ++ [EvU (FromIter.Sink 2 VUndef)])
              false.
Proof.
  induction xs as [|v xs IH]; intros r it tr rest.
  - reflexivity.
  - replace (5 * List.length (v :: xs) + 3)%nat
      with (5 + (5 * List.length xs + 3))%nat by (simpl; lia).
    rewrite lrun_add.
    change (lrun (FromIter.handler iter) ForEach.handler Drain.toD Drain.toU 5
              (mkLConfig (FromIter.mkState it true true false r)
                 (ForEach.mkState FromIter.talkback_ref)
                 (FU (FromIter.loop_from (v :: xs)) :: rest) tr false))
      with (mkLConfig (FromIter.mkState xs true true false (FromIter.ResValue v))
              (ForEach.mkState FromIter.talkback_ref)
              (FU (FromIter.loop_from xs) :: rest)
              (((tr ++ [EvU (FromIter.Sink 1 v)]) ++ [EvD (ForEach.Operation v)])
                 ++ [EvD (ForEach.TalkbackCall FromIter.talkback_ref 1)])
              false).
    rewrite IH. f_equal.
    simpl. rewrite <- !app_assoc. reflexivity.
Qed.

(** The first pull of [forEach] enters the loop: the talkback sets [got1]
    and [inloop] and goes on as the loop does. *)
Lemma drain_first_pull (iter : list Val) (tr : list Drain.Event) rest (fuel : nat) :
  lrun (FromIter.handler iter) ForEach.handler Drain.toD Drain.toU
       (Datatypes.S fuel)
       (mkLConfig (FromIter.init iter) (ForEach.mkState FromIter.talkback_ref)
                  (FU (FromIter.talkback 1) :: rest) tr false) =
  lrun (FromIter.handler iter) ForEach.handler Drain.toD Drain.toU
       (Datatypes.S fuel)
       (mkLConfig (FromIter.mkState iter true true false FromIter.ResUndef)
                  (ForEach.mkState FromIter.talkback_ref)
                  (FU (FromIter.loop_from iter) :: rest) tr false).
Proof. destruct iter; reflexivity. Qed.

(** C9: for every finite sequence [iter], [forEach(operation)] over
    [fromIter(iter)] runs to completion, [operation] is called exactly on
    the elements of [iter], in order, and the sink receives START, one DATA
    per element, and then a single END.  The run takes [5 * length iter + 9]
    steps of the linked machine; more fuel changes nothing. *)
Theorem forEach_over_fromIter :
  forall (iter : list Val) (extra : nat),
    let c := Drain.drain (5 * List.length iter + 9 + extra) iter in
    lhalted c = true /\
    Drain.operations (ltrace c) = iter /\
    Drain.received (ltrace c) =
      (0, FromIter.talkback_ref) :: map (fun v => (1, v)) iter ++ [(2, VUndef)].
Proof.
  intros iter extra.
  assert (H : Drain.drain (5 * List.length iter + 9 + extra) iter =
              mkLConfig (FromIter.mkState [] false false false FromIter.ResDone)
                (ForEach.mkState FromIter.talkback_ref) []
                ([EvD (ForEach.SourceCall 0);
                  EvU (FromIter.Sink 0 FromIter.talkback_ref);
                  EvD (ForEach.TalkbackCall FromIter.talkback_ref 1)]
                 ++ flat_map Drain.turn iter ++ [EvU (FromIter.Sink 2 VUndef)])
                false).
  { unfold Drain.drain.
    replace (5 * List.length iter + 9 + extra)%nat
      with (3 + ((5 * List.length iter + 3) + (3 + extra)))%nat by lia.
    rewrite lrun_add.
    change (lrun (FromIter.handler iter) ForEach.handler Drain.toD Drain.toU 3
              (Drain.start iter))
      with (mkLConfig (FromIter.init iter)
              (ForEach.mkState FromIter.talkback_ref)
              [FU (FromIter.talkback 1); FD Ret; FU Ret; FD Ret]
              [EvD (ForEach.SourceCall 0);
               EvU (FromIter.Sink 0 FromIter.talkback_ref);
               EvD (ForEach.TalkbackCall FromIter.talkback_ref 1)]
              false).
    rewrite lrun_add.
    replace (5 * List.length iter + 3)%nat
      with (Datatypes.S (5 * List.length iter + 2)) by lia.
    rewrite drain_first_pull.
    replace (Datatypes.S (5 * List.length iter + 2))
      with (5 * List.length iter + 3)%nat by lia.
    rewrite drain_loop.
    rewrite lrun_add. apply lrun_stuck. reflexivity. }
  intros c. subst c. rewrite H. cbn [ltrace].
  split; [reflexivity|]. split.
  - rewrite !operations_app, operations_turns. simpl. apply app_nil_r.
  - rewrite !received_app, received_turns. reflexivity.
Qed.

(** ** combine *)

Lemma set_nth_length {A} (i : nat) (v : A) (l : list A) :
  List.length (set_nth i v l) = List.length l.
Proof.
  revert i; induction l as [|x l IH]; intros [|i]; simpl; auto.
Qed.

Lemma nth_set_nth_eq {A} (i : nat) (v d : A) (l : list A) :
  (i < List.length l)%nat -> nth i (set_nth i v l) d = v.
Proof.
  revert i; induction l as [|x l IH]; intros [|i] H; simpl in *; try lia; auto.
  apply IH; lia.
Qed.

Lemma nth_set_nth_neq {A} (i j : nat) (v d : A) (l : list A) :
  i <> j -> nth j (set_nth i v l) d = nth j l d.
Proof.
  revert i j; induction l as [|x l IH]; intros [|i] [|j] H; simpl; auto;
    congruence.
Qed.

Lemma latest_snoc (j i : nat) (d : Val) (h : list (nat * Val)) :
  Combine.latest j (h ++ [(i, d)]) =
  if Nat.eqb i j then Some d else Combine.latest j h.
Proof.
  induction h as [|[a b] h IH]; simpl.
  - reflexivity.
  - rewrite IH. destruct (Nat.eqb i j); reflexivity.
Qed.

Lemma has_sent_snoc (j i : nat) (d : Val) (h : list (nat * Val)) :
  Combine.has_sent (h ++ [(i, d)]) j = Nat.eqb i j || Combine.has_sent h j.
Proof.
  unfold Combine.has_sent. rewrite latest_snoc.
  destruct (Nat.eqb i j); reflexivity.
Qed.

Lemma missing_snoc_same (n i : nat) (d : Val) (h : list (nat * Val)) :
  (n <= i)%nat \/ Combine.has_sent h i = true ->
  Combine.missing n (h ++ [(i, d)]) = Combine.missing n h.
Proof.
  induction n as [|n IH]; intros H; simpl; [reflexivity|].
  rewrite has_sent_snoc.
  destruct (Nat.eqb_spec i n) as [->|Hne]; simpl.
  - destruct H as [H|H]; [lia|]. rewrite H, IH; auto.
  - rewrite IH; [reflexivity|]. destruct H; [left; lia | right; assumption].
Qed.

Lemma missing_snoc_new (n i : nat) (d : Val) (h : list (nat * Val)) :
  (i < n)%nat -> Combine.has_sent h i = false ->
  Datatypes.S (Combine.missing n (h ++ [(i, d)])) = Combine.missing n h.
Proof.
  induction n as [|n IH]; intros Hi Hs; simpl; [lia|].
  rewrite has_sent_snoc.
  destruct (Nat.eqb_spec i n) as [->|Hne]; simpl.
  - rewrite Hs, missing_snoc_same by (left; lia). lia.
  - rewrite <- IH by (auto; lia). lia.
Qed.

Lemma filled_missing (n : nat) (h : list (nat * Val)) :
  Combine.filled n h = true <-> Combine.missing n h = 0%nat.
Proof.
  unfold Combine.filled.
  induction n as [|n IH]; [simpl; tauto|].
  rewrite seq_S, forallb_app; simpl.
  rewrite andb_true_iff, IH, andb_true_r.
  destruct (Combine.has_sent h n); split; intros H;
    try lia; try (destruct H; (lia || discriminate));
    try (split; [lia | reflexivity]).
Qed.

Section CombineFacts.
Variable n : nat.

Lemma combine_advance_start (i : nat) (d : Val) (s : Combine.State) :
  advance (Combine.from_source n i 0 d) s =
  let s' := Combine.set_Ns (Combine.Ns s - 1) (Combine.set_talkback i d s) in
  if Combine.Ns s - 1 =? 0 then Pending s' Combine.SinkStart Ret else Finished s'.
Proof.
  cbn. destruct (Combine.Ns s - 1 =? 0); reflexivity.
Qed.

Lemma combine_advance_data (i : nat) (d : Val) (s : Combine.State) :
  advance (Combine.from_source n i 1 d) s =
  let fresh := negb (Combine.Nd s =? 0)
               && Combine.is_EMPTY (nth i (Combine.vals s) VUndef) in
  let s1 := if fresh then Combine.set_Nd (Combine.Nd s - 1) s else s in
  let s2 := Combine.set_val i d s1 in
  if (if Combine.Nd s =? 0 then 0
      else if fresh then Combine.Nd s - 1 else Combine.Nd s) =? 0
  then Pending s2 (Combine.Sink 1 (VArr (Combine.copy_vals n s2))) Ret
  else Finished s2.
Proof.
  cbn.
  destruct (Combine.Nd s =? 0) eqn:E0; cbn.
  - reflexivity.
  - destruct (Combine.is_EMPTY (nth i (Combine.vals s) VUndef)); cbn.
    + destruct (Combine.Nd s - 1 =? 0); reflexivity.
    + rewrite E0. reflexivity.
Qed.

Lemma combine_advance_end (i : nat) (d : Val) (s : Combine.State) :
  advance (Combine.from_source n i 2 d) s =
  let s' := Combine.set_Ne (Combine.Ne s - 1) s in
  if Combine.Ne s - 1 =? 0 then Pending s' (Combine.Sink 2 VUndef) Ret
  else Finished s'.
Proof.
  cbn. destruct (Combine.Ne s - 1 =? 0); reflexivity.
Qed.

Lemma combine_advance_other (i : nat) (t : Z) (d : Val) (s : Combine.State) :
  t <> 0 -> t <> 1 -> t <> 2 ->
  advance (Combine.from_source n i t d) s = Pending s (Combine.Sink t d) Ret.
Proof.
  intros H0 H1 H2. unfold Combine.from_source.
  apply Z.eqb_neq in H0, H1, H2. rewrite H0, H1, H2. reflexivity.
Qed.

Lemma stack_ok_push (k : nat) (p : Prog Combine.State Combine.Out) st :
  Combine.inert n p -> Combine.stack_ok n k st -> Combine.stack_ok n k (p :: st).
Proof.
  intros Hp (top & bottom & -> & Htop & Hb).
  exists (p :: top), bottom. repeat split; auto.
Qed.

Lemma copy_vals_tuple (k : nat) (h : list (nat * Val)) (s : Combine.State) :
  (forall j, (j < n)%nat ->
     nth j (Combine.vals s) VUndef =
       match Combine.latest j h with
       | Some v => v
       | None => if Nat.ltb j k then Combine.EMPTY else VUndef
       end) ->
  Combine.filled n h = true ->
  Combine.copy_vals n s = Combine.tuple n h.
Proof.
  intros Hv Hf. unfold Combine.copy_vals, Combine.tuple.
  apply map_ext_in. intros j Hj. apply in_seq in Hj.
  rewrite Hv by lia.
  unfold Combine.filled in Hf. rewrite forallb_forall in Hf.
  specialize (Hf j). unfold Combine.has_sent in Hf.
  destruct (Combine.latest j h); [reflexivity|].
  discriminate Hf. apply in_seq. lia.
Qed.

End CombineFacts.

Lemma latest_In (j : nat) (v : Val) (h : list (nat * Val)) :
  Combine.latest j h = Some v -> In (j, v) h.
Proof.
  induction h as [|[a b] h IH]; simpl; [discriminate|].
  destruct (Combine.latest j h) as [w|].
  - intros H. right. apply IH. exact H.
  - destruct (Nat.eqb_spec a j) as [->|]; [|discriminate].
    intros H; inversion H; subst. now left.
Qed.

Lemma combine_advance_talkback (n : nat) (idx : list nat) (t : Z) (d : Val)
      (s : Combine.State) :
  match advance (Combine.talkback_from idx t d) s with
  | Finished s' => s' = s
  | Crashed _ => True
  | Pending s' o k =>
      s' = s /\ (forall x, o <> Combine.Sink 1 x) /\
      Combine.invoked (Some o) = [] /\ Combine.inert n k
  end.
Proof.
  destruct idx as [|i rest]; simpl; [reflexivity|].
  destruct (callable (nth i (Combine.sourceTalkbacks s) VUndef)); simpl; [|exact I].
  repeat split; [discriminate|].
  right. now exists rest, t, d.
Qed.

(** The values kept in [vals] after source [i] has sent [d]. *)
Lemma combine_vals_after_data (n k i : nat) (d : Val) (h : list (nat * Val))
      (vs : list Val) :
  List.length vs = n ->
  (forall j, (j < n)%nat ->
     nth j vs VUndef =
       match Combine.latest j h with
       | Some v => v
       | None => if Nat.ltb j k then Combine.EMPTY else VUndef
       end) ->
  (i < n)%nat ->
  forall j, (j < n)%nat ->
    nth j (set_nth i d vs) VUndef =
      match Combine.latest j (h ++ [(i, d)]) with
      | Some v => v
      | None => if Nat.ltb j k then Combine.EMPTY else VUndef
      end.
Proof.
  intros Hlen Hv Hi j Hj. rewrite latest_snoc.
  destruct (Nat.eqb_spec i j) as [->|Hne].
  - apply nth_set_nth_eq. lia.
  - rewrite nth_set_nth_neq by assumption. apply Hv. assumption.
Qed.

(** Whether the slot of source [i] still holds [EMPTY]. *)
Lemma combine_slot_empty (n k i : nat) (h : list (nat * Val)) (vs : list Val) :
  (forall j, (j < n)%nat ->
     nth j vs VUndef =
       match Combine.latest j h with
       | Some v => v
       | None => if Nat.ltb j k then Combine.EMPTY else VUndef
       end) ->
  (forall i d, In (i, d) h -> (i < k)%nat /\ Combine.is_EMPTY d = false) ->
  (i < k)%nat -> (k <= n)%nat ->
  Combine.is_EMPTY (nth i vs VUndef) = negb (Combine.has_sent h i).
Proof.
  intros Hv Hh Hi Hk. rewrite Hv by lia. unfold Combine.has_sent.
  destruct (Combine.latest i h) as [v|] eqn:E; simpl.
  - apply latest_In in E. apply Hh in E. tauto.
  - apply Nat.ltb_lt in Hi. rewrite Hi. reflexivity.
Qed.

Lemma combine_step (n k : nat) (h : list (nat * Val)) (started : list nat)
      (c : Config) (m : Move) :
  Combine.invariant n k h c ->
  (forall i, In i started <-> (i < k)%nat) ->
  Combine.admissible started m = true ->
  crashed (fst (move (Combine.handler n) c m)) = false ->
  exists k',
    Combine.invariant n k' (h ++ Combine.datum m)
                      (fst (move (Combine.handler n) c m)) /\
    (forall i, In i (Combine.invoked (snd (move (Combine.handler n) c m)) ++ started)
               <-> (i < k')%nat) /\
    Combine.answers n (h ++ Combine.datum m) m
                    (snd (move (Combine.handler n) c m)).
Proof.
  destruct c as [s st cr].
  intros (Hk & Hlen & Hv & HNd & Hh & Hst & Hcr) Hstarted Hadm Hnc.
  simpl in Hk, Hlen, Hv, HNd, Hst, Hcr. subst cr.
  unfold move in *. cbn [crashed state stack] in *.
  assert (Hkeep : forall s2 st',
            Combine.vals s2 = Combine.vals s ->
            Combine.Nd s2 = Combine.Nd s ->
            Combine.stack_ok n k st' ->
            Combine.invariant n k h (mkConfig s2 st' false)).
  { intros s2 st' E2 EN Hst'. unfold Combine.invariant; simpl.
    rewrite E2, EN. tauto. }
  destruct m as [[i t d|t d]|].
  - (* a source speaks *)
    simpl in Hadm. apply andb_prop in Hadm as [Hi Hd].
    apply existsb_exists in Hi as (i' & Hi' & E). apply Nat.eqb_eq in E. subst i'.
    apply Hstarted in Hi'.
    cbn [Combine.handler] in *.
    destruct (Z.eq_dec t 1) as [->|Ht1].
    + (* DATA *)
      simpl in Hd. apply negb_true_iff in Hd.
      cbn [Combine.datum Z.eqb Pos.eqb].
      pose proof (combine_vals_after_data n k i d h (Combine.vals s) Hlen Hv
                    ltac:(lia)) as Hv'.
      pose proof (combine_slot_empty n k i h (Combine.vals s) Hv Hh Hi' Hk) as Hslot.
      assert (Hh' : forall i0 d0, In (i0, d0) (h ++ [(i, d)]) ->
                      (i0 < k)%nat /\ Combine.is_EMPTY d0 = false).
      { intros i0 d0 H. apply in_app_or in H as [H|[H|[]]]; [auto|].
        inversion H; subst; auto. }
      assert (Hinv : forall s2 st',
                Combine.vals s2 = set_nth i d (Combine.vals s) ->
                Combine.Nd s2 = Z.of_nat (Combine.missing n (h ++ [(i, d)])) ->
                Combine.stack_ok n k st' ->
                Combine.invariant n k (h ++ [(i, d)]) (mkConfig s2 st' false)).
      { intros s2 st' E2 EN Hst'. unfold Combine.invariant; simpl.
        rewrite E2, set_nth_length. tauto. }
      assert (Hans : forall s2 o,
                Combine.vals s2 = set_nth i d (Combine.vals s) ->
                o = (if Combine.filled n (h ++ [(i, d)])
                     then Some (Combine.Sink 1 (VArr (Combine.copy_vals n s2)))
                     else None) ->
                Combine.answers n (h ++ [(i, d)]) (Enter (Combine.Src i 1 d)) o).
      { intros s2 o E2 ->. split.
        - intros i0 d0 _.
          destruct (Combine.filled n (h ++ [(i, d)])) eqn:Ef; [|reflexivity].
          do 3 f_equal. apply (copy_vals_tuple n k); [|assumption].
          rewrite E2. exact Hv'.
        - intros x _. eauto. }
      rewrite combine_advance_data in *. cbv zeta in *.
      rewrite Hslot in *.
      destruct (Combine.Nd s =? 0) eqn:E0; cbn [negb andb] in *.
      * (* every slot was filled already *)
        apply Z.eqb_eq in E0.
        assert (Hm : Combine.missing n (h ++ [(i, d)]) = 0%nat).
        { destruct (Combine.has_sent h i) eqn:Es.
          - rewrite missing_snoc_same by auto. lia.
          - pose proof (missing_snoc_new n i d h ltac:(lia) Es). lia. }
        cbn [Z.eqb settle fst snd].
        exists k. split; [|split].
        -- apply Hinv; [reflexivity | simpl; lia |].
           apply stack_ok_push; [now left | assumption].
        -- exact Hstarted.
        -- apply (Hans (Combine.set_val i d s)); [reflexivity|].
           apply filled_missing in Hm. now rewrite Hm.
      * apply Z.eqb_neq in E0.
        destruct (Combine.has_sent h i) eqn:Es; cbn [negb] in *.
        -- (* source i had sent before *)
           apply Z.eqb_neq in E0. rewrite E0 in *. cbn [settle fst snd].
           apply Z.eqb_neq in E0.
           assert (Hm : Combine.missing n (h ++ [(i, d)]) = Combine.missing n h)
             by (apply missing_snoc_same; auto).
           exists k. split; [|split].
           ++ apply Hinv; [reflexivity | simpl; lia | assumption].
           ++ exact Hstarted.
           ++ apply (Hans (Combine.set_val i d s)); [reflexivity|].
              destruct (Combine.filled n (h ++ [(i, d)])) eqn:Ef; [|reflexivity].
              apply filled_missing in Ef. lia.
        -- (* the first value of source i *)
           pose proof (missing_snoc_new n i d h ltac:(lia) Es) as Hm.
           destruct (Combine.Nd s - 1 =? 0) eqn:E1; cbn [settle fst snd].
           ++ apply Z.eqb_eq in E1.
              exists k. split; [|split].
              ** apply Hinv; [reflexivity | simpl; lia |].
                 apply stack_ok_push; [now left | assumption].
              ** exact Hstarted.
              ** apply (Hans (Combine.set_val i d (Combine.set_Nd (Combine.Nd s - 1) s)));
                   [reflexivity|].
                 assert (Ef : Combine.filled n (h ++ [(i, d)]) = true)
                   by (apply filled_missing; lia).
                 now rewrite Ef.
           ++ apply Z.eqb_neq in E1.
              exists k. split; [|split].
              ** apply Hinv; [reflexivity | simpl; lia | assumption].
              ** exact Hstarted.
              ** apply (Hans (Combine.set_val i d (Combine.set_Nd (Combine.Nd s - 1) s)));
                   [reflexivity|].
                 destruct (Combine.filled n (h ++ [(i, d)])) eqn:Ef; [|reflexivity].
                 apply filled_missing in Ef. lia.
    + (* START, END or another tag *)
      assert (Hdat : Combine.datum (Enter (Combine.Src i t d)) = []).
      { simpl. apply Z.eqb_neq in Ht1. now rewrite Ht1. }
      rewrite Hdat, app_nil_r.
      assert (Hnot : forall o, (forall x, o <> Some (Combine.Sink 1 x)) ->
                Combine.answers n h (Enter (Combine.Src i t d)) o).
      { intros o Ho. split.
        - intros i0 d0 E. inversion E; subst. congruence.
        - intros x E. destruct (Ho x E). }
      destruct (Z.eq_dec t 0) as [->|Ht0]; [|destruct (Z.eq_dec t 2) as [->|Ht2]].
      * rewrite combine_advance_start in *. cbv zeta in *.
        destruct (Combine.Ns s - 1 =? 0); cbn [settle fst snd] in *;
          (exists k; split; [|split];
           [ apply Hkeep; [reflexivity | reflexivity |];
             first [assumption | apply stack_ok_push; [now left | assumption]]
           | exact Hstarted
           | apply Hnot; intros x; discriminate ]).
      * rewrite combine_advance_end in *. cbv zeta in *.
        destruct (Combine.Ne s - 1 =? 0); cbn [settle fst snd] in *;
          (exists k; split; [|split];
           [ apply Hkeep; [reflexivity | reflexivity |];
             first [assumption | apply stack_ok_push; [now left | assumption]]
           | exact Hstarted
           | apply Hnot; intros x; discriminate ]).
      * rewrite combine_advance_other in * by assumption.
        cbn [settle fst snd] in *.
        exists k; split; [|split].
        -- apply Hkeep; [reflexivity | reflexivity |].
           apply stack_ok_push; [now left | assumption].
        -- exact Hstarted.
        -- apply Hnot. intros x E. inversion E. congruence.
  - (* the talkback is called *)
    cbn [Combine.datum]. rewrite app_nil_r.
    assert (Hnot : forall o, (forall x, o <> Some (Combine.Sink 1 x)) ->
              Combine.answers n h (Enter (Combine.Tb t d)) o).
    { intros o Ho. split.
      - intros i0 d0 E. discriminate E.
      - intros x E. destruct (Ho x E). }
    cbn [Combine.handler] in *. unfold Combine.talkback in *.
    destruct (t =? 0); cbn [advance settle fst snd] in *.
    + exists k; split; [|split];
        [apply Hkeep; auto | exact Hstarted | apply Hnot; discriminate].
    + pose proof (combine_advance_talkback n (List.seq 0 n) t d s) as Htb.
      destruct (advance (Combine.talkback_from (List.seq 0 n) t d) s)
        as [s'|s'|s' o kk]; cbn [settle fst snd] in *.
      * subst s'. exists k; split; [|split];
          [apply Hkeep; auto | exact Hstarted | apply Hnot; discriminate].
      * discriminate Hnc.
      * destruct Htb as (-> & Ho & Hio & Hkk).
        exists k; split; [|split].
        -- apply Hkeep; [reflexivity | reflexivity |].
           apply stack_ok_push; assumption.
        -- rewrite Hio. exact Hstarted.
        -- apply Hnot. intros x E. inversion E. apply (Ho x). assumption.
  - (* the pending call returns *)
    cbn [Combine.datum]. rewrite app_nil_r.
    assert (Hnot : forall o, (forall x, o <> Some (Combine.Sink 1 x)) ->
              Combine.answers n h Return o).
    { intros o Ho. split.
      - intros i0 d0 E. discriminate E.
      - intros x E. destruct (Ho x E). }
    destruct Hst as (top & bottom & -> & Htop & Hb).
    destruct top as [|p top]; cbn [app] in *.
    + destruct Hb as [->|[-> Hkn]].
      * (* the body of combine resumes *)
        destruct (n - k)%nat as [|r] eqn:Er; cbn [List.seq Combine.invoke_from] in *.
        -- cbn [advance settle fst snd] in *.
           assert (Hkn : k = n) by lia.
           exists k; split; [|split].
           ++ apply Hkeep; [reflexivity | reflexivity |].
              exists [], []. repeat split; auto.
           ++ exact Hstarted.
           ++ apply Hnot; discriminate.
        -- cbn [advance seq upd settle fst snd] in *.
           exists (Datatypes.S k); split; [|split].
           ++ unfold Combine.invariant;
                cbn [state stack crashed Combine.vals Combine.Nd Combine.set_val].
              rewrite set_nth_length.
              split; [lia|]. split; [assumption|]. split; [|split; [|split; [|split]]].
              ** intros j Hj. destruct (Nat.eq_dec k j) as [<-|Hne].
                 --- rewrite nth_set_nth_eq by lia.
                     destruct (Combine.latest k h) as [v|] eqn:El.
                     +++ apply latest_In, Hh in El. lia.
                     +++ assert (E : (k <? Datatypes.S k)%nat = true)
                           by (apply Nat.ltb_lt; lia).
                         now rewrite E.
                 --- rewrite nth_set_nth_neq by assumption.
                     rewrite Hv by assumption.
                     destruct (Combine.latest j h); [reflexivity|].
                     destruct (Nat.ltb_spec j k), (Nat.ltb_spec j (Datatypes.S k));
                       try reflexivity; lia.
              ** assumption.
              ** intros i0 d0 H. apply Hh in H. split; [lia | tauto].
              ** exists [], [Combine.invoke_from (List.seq (Datatypes.S k) r)].
                 repeat split; auto. left.
                 replace (n - Datatypes.S k)%nat with r by lia. reflexivity.
              ** reflexivity.
           ++ intros i0. cbn. rewrite Hstarted. lia.
           ++ apply Hnot; discriminate.
      * cbn [fst snd].
        exists k; split; [|split].
        -- apply Hkeep; [reflexivity | reflexivity |].
           exists [], []. repeat split; auto.
        -- exact Hstarted.
        -- apply Hnot; discriminate.
    + pose proof (Forall_inv Htop) as Hp.
      pose proof (Forall_inv_tail Htop) as Htop'.
      assert (Hrest : Combine.stack_ok n k (top ++ bottom)).
      { exists top, bottom. repeat split; auto. }
      destruct Hp as [->|(idx & t & d & ->)].
      * cbn [advance settle fst snd] in *.
        exists k; split; [|split];
          [apply Hkeep; auto | exact Hstarted | apply Hnot; discriminate].
      * pose proof (combine_advance_talkback n idx t d s) as Htb.
        destruct (advance (Combine.talkback_from idx t d) s)
          as [s'|s'|s' o kk]; cbn [settle fst snd] in *.
        -- subst s'. exists k; split; [|split];
             [apply Hkeep; auto | exact Hstarted | apply Hnot; discriminate].
        -- discriminate Hnc.
        -- destruct Htb as (-> & Ho & Hio & Hkk).
           exists k; split; [|split].
           ++ apply Hkeep; [reflexivity | reflexivity |].
              apply stack_ok_push; assumption.
           ++ rewrite Hio. exact Hstarted.
           ++ apply Hnot. intros x E. inversion E. apply (Ho x). assumption.
Qed.

Lemma combine_history_cons (x : Move (I := Combine.In) * option Combine.Out) l :
  Combine.history (x :: l) = Combine.datum (fst x) ++ Combine.history l.
Proof. reflexivity. Qed.

Lemma combine_run (n : nat) (ms : list Move) :
  forall (k : nat) (h : list (nat * Val)) (started : list nat) (c : Config),
    Combine.invariant n k h c ->
    (forall i, In i started <-> (i < k)%nat) ->
    Combine.valid_from started (snd (run (Combine.handler n) c ms)) = true ->
    crashed (fst (run (Combine.handler n) c ms)) = false ->
    forall pre m o post,
      snd (run (Combine.handler n) c ms) = pre ++ (m, o) :: post ->
      Combine.answers n (h ++ Combine.history (pre ++ [(m, o)])) m o.
Proof.
  induction ms as [|m0 ms IH]; intros k h started c Hinv Hst Hval Hnc pre m o post E.
  - simpl in E. destruct pre; discriminate E.
  - rewrite run_cons in *. cbn [fst snd] in *.
    simpl in Hval. apply andb_prop in Hval as [Hadm Hval].
    assert (Hnc1 : crashed (fst (move (Combine.handler n) c m0)) = false).
    { destruct (crashed (fst (move (Combine.handler n) c m0))) eqn:Ec; [|reflexivity].
      rewrite (run_crashed _ _ ms Ec) in Hnc. discriminate Hnc. }
    destruct (combine_step n k h started c m0 Hinv Hst Hadm Hnc1)
      as (k' & Hinv' & Hst' & Hans).
    destruct pre as [|x pre]; simpl in E; inversion E; subst.
    + simpl. rewrite app_nil_r. exact Hans.
    + rewrite <- app_comm_cons, combine_history_cons, app_assoc.
      cbn [fst].
      eapply IH; eauto.
Qed.

Lemma missing_nil (n : nat) : Combine.missing n [] = n.
Proof. induction n as [|n IH]; simpl; [|rewrite IH]; lia. Qed.

Lemma combine_boot (n : nat) :
  (1 <= n)%nat ->
  snd (boot (Combine.body n 0) (Combine.init n)) = Some (Combine.SrcInvoke 0) /\
  Combine.invariant n 1 [] (fst (boot (Combine.body n 0) (Combine.init n))).
Proof.
  intros Hn. destruct n as [|r]; [lia|].
  split; [reflexivity|].
  unfold Combine.invariant. cbn.
  rewrite repeat_length, missing_nil.
  split; [lia|]. split; [reflexivity|]. split; [|split; [|split; [|split]]].
  - intros [|j] Hj; [reflexivity|]. apply nth_repeat.
  - lia.
  - intros i d [].
  - exists [], [Combine.invoke_from (List.seq 1 r)].
    repeat split; auto. left.
    replace (Datatypes.S r - 1)%nat with r by lia. reflexivity.
  - reflexivity.
Qed.

(** C6: [combine] over [n >= 1] sources, run against any surrounding code
    (whose moves are valid: a source speaks only once it has been invoked,
    and cannot send the private object [EMPTY]) without a TypeError.  At
    every move of the run, [h] being the DATA received from the sources up
    to and including that move: a DATA from a source is answered by one
    DATA downstream carrying the array of the latest value of every source,
    in argument order, if every source has sent at least one value by then,
    and by nothing otherwise; and nothing but a DATA from a source makes
    [combine] send DATA downstream. *)
Theorem combine_emits_latest_values_once_all_sent :
  forall (n : nat) (ms : list Move),
    (1 <= n)%nat ->
    let c0 := fst (boot (Combine.body n 0) (Combine.init n)) in
    let c := fst (run (Combine.handler n) c0 ms) in
    let log := snd (run (Combine.handler n) c0 ms) in
    Combine.valid_from [0%nat] log = true ->
    crashed c = false ->
    forall pre m o post,
      log = pre ++ (m, o) :: post ->
      let h := Combine.history (pre ++ [(m, o)]) in
      (forall i d, m = Enter (Combine.Src i 1 d) ->
         o = if Combine.filled n h
             then Some (Combine.Sink 1 (VArr (Combine.tuple n h)))
             else None) /\
      (forall x, o = Some (Combine.Sink 1 x) ->
         exists i d, m = Enter (Combine.Src i 1 d)).
Proof.
  intros n ms Hn c0 c log Hval Hnc pre m o post E h.
  destruct (combine_boot n Hn) as [_ Hinv].
  apply (combine_run n ms 1%nat [] [0%nat] c0 Hinv) with (post := post);
    try assumption.
  intros i. simpl. lia.
Qed.

Lemma combine_witness :
  let log := snd (run (Combine.handler 2)
                    (fst (boot (Combine.body 2 0) (Combine.init 2)))
                    Combine.two_sources) in
  let h := Combine.history (firstn 7 log) in
  Some (Combine.Sink 1 (VArr [VNum 10; VNum 20])) =
    (if Combine.filled 2 h
     then Some (Combine.Sink 1 (VArr (Combine.tuple 2 h)))
     else None).
Proof.
  exact (proj1 (combine_emits_latest_values_once_all_sent 2 Combine.two_sources
                  (le_S 1 1 (le_n 1)) eq_refl eq_refl
                  (firstn 6 (snd (run (Combine.handler 2)
                                   (fst (boot (Combine.body 2 0) (Combine.init 2)))
                                   Combine.two_sources)))
                  (Enter (Combine.Src 1 1 (VNum 20)))
                  (Some (Combine.Sink 1 (VArr [VNum 10; VNum 20])))
                  (skipn 7 (snd (run (Combine.handler 2)
                                  (fst (boot (Combine.body 2 0) (Combine.init 2)))
                                  Combine.two_sources)))
                  eq_refl)
               1%nat (VNum 20) eq_refl).
Defined.

(** ** concat *)

Section ConcatFacts.
Variable n : nat.

Lemma concat_advance_start (d : Val) (s : Concat.State) :
  advance (Concat.from_source n 0 d) s =
  let s' := Concat.set_sourceTalkback d s in
  if Concat.i s =? 0 then Pending s' Concat.SinkStart Ret
  else if callable d then Pending s' (Concat.Up d 1 VUndef) Ret
  else Crashed s'.
Proof.
  cbn. destruct (Concat.i s =? 0); [reflexivity|].
  cbn. destruct (callable d); reflexivity.
Qed.

Lemma concat_advance_end (d : Val) (s : Concat.State) :
  advance (Concat.from_source n 2 d) s =
  let s' := Concat.set_i (Concat.i s + 1) s in
  if Concat.i s + 1 =? Z.of_nat n then Pending s' (Concat.Sink 2 VUndef) Ret
  else if (0 <=? Concat.i s + 1) && (Concat.i s + 1 <? Z.of_nat n)
       then Pending s' (Concat.SrcInvoke (Concat.i s + 1)) Ret
       else Crashed s'.
Proof.
  cbn. destruct (Concat.i s + 1 =? Z.of_nat n); [reflexivity|].
  destruct ((0 <=? Concat.i s + 1) && (Concat.i s + 1 <? Z.of_nat n)); reflexivity.
Qed.

Lemma concat_advance_other (t : Z) (d : Val) (s : Concat.State) :
  t <> 0 -> t <> 1 -> t <> 2 ->
  advance (Concat.from_source n t d) s = Finished s.
Proof.
  intros H0 H1 H2. unfold Concat.from_source.
  apply Z.eqb_neq in H0, H1, H2. rewrite H0, H1, H2. reflexivity.
Qed.

Lemma concat_advance_talkback (t : Z) (d : Val) (s : Concat.State) :
  advance (Concat.talkback t d) s =
  if (t =? 1) || (t =? 2) then
    if callable (Concat.sourceTalkback s)
    then Pending s (Concat.Up (Concat.sourceTalkback s) t d) Ret
    else Crashed s
  else Finished s.
Proof.
  unfold Concat.talkback. destruct ((t =? 1) || (t =? 2)); [|reflexivity].
  cbn. destruct (callable (Concat.sourceTalkback s)); reflexivity.
Qed.

End ConcatFacts.

Lemma concat_valid_snoc (log : list Concat.Entry) (x : Concat.Entry) :
  Concat.valid (log ++ [x]) = Concat.admissible log (fst x) && Concat.valid log.
Proof.
  unfold Concat.valid. rewrite rev_app_distr. simpl.
  now rewrite rev_involutive.
Qed.

Lemma flat_map_agree {A B} (f g : A -> list B) (l : list A) :
  (forall a, In a l -> g a = f a) -> flat_map g l = flat_map f l.
Proof.
  induction l as [|a l IH]; intros H; simpl; [reflexivity|].
  rewrite H by (now left). rewrite IH; [reflexivity|].
  intros b Hb. apply H. now right.
Qed.

(** The sources, in the order of the arguments, with the DATA of the
    current one growing at its end. *)
Lemma flat_map_seq_grow {A} (f g : nat -> list A) (k n : nat) (extra : list A) :
  (k < n)%nat ->
  (forall j, j <> k -> g j = f j) ->
  g k = f k ++ extra ->
  (forall j, (k < j)%nat -> f j = []) ->
  flat_map g (List.seq 0 n) = flat_map f (List.seq 0 n) ++ extra.
Proof.
  intros Hk Hne Hk' Hlater.
  replace n with (k + (1 + (n - k - 1)))%nat by lia.
  rewrite !seq_app, !flat_map_app. simpl.
  assert (E1 : flat_map g (List.seq 0 k) = flat_map f (List.seq 0 k)).
  { apply flat_map_agree. intros j Hj. apply in_seq in Hj. apply Hne. lia. }
  assert (E2 : forall l, (forall j, In j l -> (k < j)%nat) ->
                 flat_map g l = [] /\ flat_map f l = []).
  { induction l as [|a l IH]; intros Hl; simpl; [auto|].
    assert (Ha : (k < a)%nat) by (apply Hl; now left).
    rewrite Hne by lia. rewrite Hlater by assumption. simpl.
    apply IH. intros j Hj. apply Hl. now right. }
  destruct (E2 (List.seq (k + 1) (n - k - 1))) as [Eg Ef].
  { intros j Hj. apply in_seq in Hj. lia. }
  rewrite E1, Eg, Ef, Hk', !app_nil_r, app_assoc. reflexivity.
Qed.

Section ConcatLog.
Variable log : list Concat.Entry.
Variable m : Move (I := Concat.In).
Variable o : option Concat.Out.

Lemma concat_invoked_snoc :
  Concat.invoked (log ++ [(m, o)]) =
  Concat.invoked log ++ match o with
                        | Some (Concat.SrcInvoke z) => [z]
                        | _ => []
                        end.
Proof.
  unfold Concat.invoked. rewrite flat_map_app. simpl.
  now rewrite app_nil_r.
Qed.

Lemma concat_ended_snoc :
  Concat.ended (log ++ [(m, o)]) =
  Concat.ended log ++ match m with
                      | Enter (Concat.Src j t _) => if t =? 2 then [j] else []
                      | _ => []
                      end.
Proof.
  unfold Concat.ended. rewrite flat_map_app. simpl.
  now rewrite app_nil_r.
Qed.

Lemma concat_greeted_snoc :
  Concat.greeted (log ++ [(m, o)]) =
  Concat.greeted log ++ match m with
                        | Enter (Concat.Src j t _) => if t =? 0 then [j] else []
                        | _ => []
                        end.
Proof.
  unfold Concat.greeted. rewrite flat_map_app. simpl.
  now rewrite app_nil_r.
Qed.

Lemma concat_src_data_snoc (j : nat) :
  Concat.src_data j (log ++ [(m, o)]) =
  Concat.src_data j log ++ match m with
                           | Enter (Concat.Src j' t d) =>
                               if (t =? 1) && Nat.eqb j' j then [d] else []
                           | _ => []
                           end.
Proof.
  unfold Concat.src_data. rewrite flat_map_app. simpl.
  now rewrite app_nil_r.
Qed.

Lemma concat_sink_data_snoc :
  Concat.sink_data (log ++ [(m, o)]) =
  Concat.sink_data log ++ match o with
                          | Some (Concat.Sink t d) => if t =? 1 then [d] else []
                          | _ => []
                          end.
Proof.
  unfold Concat.sink_data. rewrite flat_map_app. simpl.
  now rewrite app_nil_r.
Qed.

Lemma concat_starts_down_snoc :
  Concat.starts_down (log ++ [(m, o)]) =
  (Concat.starts_down log + match o with
                            | Some Concat.SinkStart => 1
                            | _ => 0
                            end)%nat.
Proof.
  unfold Concat.starts_down. rewrite filter_app, length_app. simpl.
  destruct o as [[]|]; reflexivity.
Qed.

End ConcatLog.

(** A move that changes nothing of what the invariant speaks about. *)
Lemma concat_silent (n : nat) (log : list Concat.Entry) (c : Config)
      (s' : Concat.State) st' (m : Move) (o : option Concat.Out) :
  Concat.invariant n log c ->
  Concat.i s' = Concat.i (state c) ->
  Forall (eq Ret) st' ->
  match m with
  | Enter (Concat.Src _ t _) => t <> 0 /\ t <> 1 /\ t <> 2
  | _ => True
  end ->
  match o with
  | None => True
  | Some (Concat.Up _ _ _) => True
  | _ => False
  end ->
  Concat.invariant n (log ++ [(m, o)]) (mkConfig s' st' false).
Proof.
  intros (Hk & Hi & Hst & Hcr & Hended & Hinv & Hnd & Hans & Hsd & Hlater & Hdata)
         Hi' Hst' Hm Ho.
  assert (Eended : Concat.ended (log ++ [(m, o)]) = Concat.ended log).
  { rewrite concat_ended_snoc. destruct m as [[j t d|t d]|]; try apply app_nil_r.
    destruct Hm as (_ & _ & H2). apply Z.eqb_neq in H2. rewrite H2. apply app_nil_r. }
  assert (Egreeted : Concat.greeted (log ++ [(m, o)]) = Concat.greeted log).
  { rewrite concat_greeted_snoc. destruct m as [[j t d|t d]|]; try apply app_nil_r.
    destruct Hm as (H0 & _ & _). apply Z.eqb_neq in H0. rewrite H0. apply app_nil_r. }
  assert (Edata : forall j, Concat.src_data j (log ++ [(m, o)]) = Concat.src_data j log).
  { intros j. rewrite concat_src_data_snoc.
    destruct m as [[j' t d|t d]|]; try apply app_nil_r.
    destruct Hm as (_ & H1 & _). apply Z.eqb_neq in H1. rewrite H1. apply app_nil_r. }
  assert (Einvoked : Concat.invoked (log ++ [(m, o)]) = Concat.invoked log).
  { rewrite concat_invoked_snoc. destruct o as [[]|]; try contradiction; apply app_nil_r. }
  assert (Esink : Concat.sink_data (log ++ [(m, o)]) = Concat.sink_data log).
  { rewrite concat_sink_data_snoc. destruct o as [[]|]; try contradiction; apply app_nil_r. }
  assert (Estarts : Concat.starts_down (log ++ [(m, o)]) = Concat.starts_down log).
  { rewrite concat_starts_down_snoc. destruct o as [[]|]; try contradiction; lia. }
  unfold Concat.invariant. cbn [state stack crashed].
  rewrite Eended, Egreeted, Einvoked, Esink, Estarts.
  repeat (split; [assumption|]).
  split; [congruence|].
  split; [assumption|].
  split; [reflexivity|].
  repeat (split; [assumption|]).
  split.
  { apply Forall_app. split; [assumption|]. constructor; [|constructor].
    cbn [fst snd]. unfold Concat.answers. repeat split.
    - intros z E. subst o. contradiction.
    - intros E. subst o. contradiction.
    - intros [d E]. subst m. destruct Hm as (H0 & _). congruence.
    - intros j d E. subst m. destruct Hm as (H0 & _). congruence.
    - intros j d E. subst m. destruct Hm as (_ & H1 & _). congruence. }
  split; [assumption|].
  split.
  { intros j Hj. rewrite Edata. apply Hlater. assumption. }
  rewrite Hdata. apply flat_map_agree. intros j _. symmetry. apply Edata.
Qed.

(** Among well-behaved sources only the current one can speak. *)
Lemma concat_speaker (n : nat) (log : list Concat.Entry) (c : Config)
      (j : nat) (t : Z) (d : Val) :
  Concat.invariant n log c ->
  Concat.admissible log (Enter (Concat.Src j t d)) = true ->
  j = List.length (Concat.ended log) /\ (j < n)%nat /\
  (t = 0 -> ~ In j (Concat.greeted log)).
Proof.
  intros (Hk & Hi & Hst & Hcr & Hended & Hinv & _) Hadm.
  unfold Concat.admissible in Hadm. apply andb_prop in Hadm as [Hadm Hg].
  apply andb_prop in Hadm as [Hin Hend].
  apply existsb_exists in Hin as (z & Hz & E). apply Z.eqb_eq in E. subst z.
  rewrite Hinv in Hz. apply in_map_iff in Hz as (j' & E & Hj').
  apply Nat2Z.inj in E. subst j'. apply in_seq in Hj'.
  apply negb_true_iff, mem_not_In in Hend.
  rewrite Hended, in_seq in Hend.
  split; [lia|]. split; [lia|].
  intros ->. cbn [Z.eqb andb] in Hg.
  apply negb_true_iff, mem_not_In in Hg. exact Hg.
Qed.

Lemma concat_step (n : nat) (log : list Concat.Entry) (c : Config) (m : Move) :
  (1 <= n)%nat ->
  Concat.invariant n log c ->
  Concat.admissible log m = true ->
  crashed (fst (move (Concat.handler n) c m)) = false ->
  Concat.invariant n (log ++ [(m, snd (move (Concat.handler n) c m))])
                   (fst (move (Concat.handler n) c m)).
Proof.
  intros Hn Hinvariant Hadm Hnc.
  pose proof Hinvariant as
    (Hk & Hi & Hst & Hcr & Hended & Hinv & Hnd & Hans & Hsd & Hlater & Hdata).
  destruct c as [s st cr]. cbn [state stack crashed] in *. subst cr.
  unfold move in *. cbn [crashed state stack] in *.
  destruct m as [[j t d|t d]|].
  - (* a source speaks *)
    destruct (concat_speaker n log _ j t d Hinvariant Hadm) as (Hj & Hjn & Hfresh).
    cbn [Concat.handler] in *.
    destruct (Z.eq_dec t 0) as [->|Ht0];
      [|destruct (Z.eq_dec t 1) as [->|Ht1];
        [|destruct (Z.eq_dec t 2) as [->|Ht2]]].
    + (* START *)
      specialize (Hfresh eq_refl).
      rewrite concat_advance_start in *. cbv zeta in *.
      assert (Eended : forall o, Concat.ended (log ++ [(Enter (Concat.Src j 0 d), o)])
                                 = Concat.ended log)
        by (intros o; rewrite concat_ended_snoc; apply app_nil_r).
      assert (Egreeted : forall o, Concat.greeted (log ++ [(Enter (Concat.Src j 0 d), o)])
                                   = Concat.greeted log ++ [j])
        by (intros o; rewrite concat_greeted_snoc; reflexivity).
      assert (Edata : forall o j', Concat.src_data j' (log ++ [(Enter (Concat.Src j 0 d), o)])
                                   = Concat.src_data j' log)
        by (intros o j'; rewrite concat_src_data_snoc; apply app_nil_r).
      assert (Hnd' : NoDup (Concat.greeted log ++ [j])).
      { apply NoDup_app; [assumption | repeat constructor; auto |].
        intros a Ha [<-|[]]. contradiction. }
      destruct (Concat.i s =? 0) eqn:E0.
      * (* the first source *)
        apply Z.eqb_eq in E0. assert (Hj0 : j = 0%nat) by lia.
        clear Hj. subst j.
        cbn [settle fst snd] in *.
        unfold Concat.invariant. cbn [state stack crashed].
        rewrite Eended, Egreeted, concat_invoked_snoc, concat_sink_data_snoc,
          concat_starts_down_snoc, !app_nil_r.
        repeat (split; [assumption|]).
        split; [constructor; [reflexivity | assumption]|].
        split; [reflexivity|].
        repeat (split; [assumption|]).
        split.
        { apply Forall_app. split; [assumption|]. constructor; [|constructor].
          cbn [fst snd]. unfold Concat.answers. repeat split.
          - intros z E. discriminate E.
          - intros _. now exists d.
          - intros j' d' E. discriminate E.
          - intros j' d' E. discriminate E. }
        split.
        { rewrite count_occ_app. simpl. lia. }
        split.
        { intros j' Hj'. rewrite Edata. apply Hlater. assumption. }
        rewrite Hdata. apply flat_map_agree. intros j' _. symmetry. apply Edata.
      * (* a later source *)
        apply Z.eqb_neq in E0. assert (j <> 0%nat) by lia.
        destruct (callable d); cbn [settle fst snd] in *; [|discriminate Hnc].
        unfold Concat.invariant. cbn [state stack crashed].
        rewrite Eended, Egreeted, concat_invoked_snoc, concat_sink_data_snoc,
          concat_starts_down_snoc, !app_nil_r.
        repeat (split; [assumption|]).
        split; [constructor; [reflexivity | assumption]|].
        split; [reflexivity|].
        repeat (split; [assumption|]).
        split.
        { apply Forall_app. split; [assumption|]. constructor; [|constructor].
          cbn [fst snd]. unfold Concat.answers. repeat split.
          - intros z E. discriminate E.
          - intros E. discriminate E.
          - intros [d' E]. inversion E. congruence.
          - intros j' d' E. inversion E; subst. reflexivity.
          - intros j' d' E. discriminate E. }
        split.
        { rewrite count_occ_app. simpl.
          destruct (Nat.eq_dec j 0); [contradiction | lia]. }
        split.
        { intros j' Hj'. rewrite Edata. apply Hlater. assumption. }
        rewrite Hdata. apply flat_map_agree. intros j' _. symmetry. apply Edata.
    + (* DATA *)
      change (advance (Concat.from_source n 1 d) s)
        with (Pending s (Concat.Sink 1 d) (@Ret Concat.State Concat.Out)) in *.
      cbn [settle fst snd] in *.
      set (x := (Enter (Concat.Src j 1 d), Some (Concat.Sink 1 d))).
      assert (Eended : Concat.ended (log ++ [x]) = Concat.ended log)
        by (unfold x; rewrite concat_ended_snoc; apply app_nil_r).
      assert (Egreeted : Concat.greeted (log ++ [x]) = Concat.greeted log)
        by (unfold x; rewrite concat_greeted_snoc; apply app_nil_r).
      assert (Einvoked : Concat.invoked (log ++ [x]) = Concat.invoked log)
        by (unfold x; rewrite concat_invoked_snoc; apply app_nil_r).
      assert (Estarts : Concat.starts_down (log ++ [x]) = Concat.starts_down log)
        by (unfold x; rewrite concat_starts_down_snoc; lia).
      assert (Esink : Concat.sink_data (log ++ [x]) = Concat.sink_data log ++ [d])
        by (unfold x; rewrite concat_sink_data_snoc; reflexivity).
      assert (Edata : forall j', Concat.src_data j' (log ++ [x]) =
                        Concat.src_data j' log ++ if Nat.eqb j j' then [d] else [])
        by (intros j'; unfold x; rewrite concat_src_data_snoc; reflexivity).
      unfold Concat.invariant. cbn [state stack crashed].
      rewrite Eended, Egreeted, Einvoked, Esink, Estarts.
      repeat (split; [assumption|]).
      split; [constructor; [reflexivity | assumption]|].
      split; [reflexivity|].
      repeat (split; [assumption|]).
      split.
      { apply Forall_app. split; [assumption|]. constructor; [|constructor].
        unfold x; cbn [fst snd]. unfold Concat.answers. repeat split.
        - intros z E. discriminate E.
        - intros E. discriminate E.
        - intros [d' E]. discriminate E.
        - intros j' d' E. discriminate E.
        - intros j' d' E. inversion E; subst. reflexivity. }
      split; [assumption|].
      split.
      { intros j' Hj'. rewrite Edata, Hlater by assumption.
        destruct (Nat.eqb_spec j j'); [lia | reflexivity]. }
      rewrite Hdata. symmetry.
      apply (flat_map_seq_grow _ _ j n [d]); try assumption.
      * intros j' Hne. rewrite Edata.
        destruct (Nat.eqb_spec j j'); [congruence | apply app_nil_r].
      * rewrite Edata, Nat.eqb_refl. reflexivity.
      * intros j' Hj'. apply Hlater. lia.
    + (* END *)
      rewrite concat_advance_end in *. cbv zeta in *.
      assert (Eended : forall o, Concat.ended (log ++ [(Enter (Concat.Src j 2 d), o)])
                                 = Concat.ended log ++ [j])
        by (intros o; rewrite concat_ended_snoc; reflexivity).
      assert (Egreeted : forall o, Concat.greeted (log ++ [(Enter (Concat.Src j 2 d), o)])
                                   = Concat.greeted log)
        by (intros o; rewrite concat_greeted_snoc; apply app_nil_r).
      assert (Edata : forall o j', Concat.src_data j' (log ++ [(Enter (Concat.Src j 2 d), o)])
                                   = Concat.src_data j' log)
        by (intros o j'; rewrite concat_src_data_snoc; apply app_nil_r).
      assert (Hseq : Concat.ended log ++ [j] = List.seq 0 (List.length (Concat.ended log) + 1)).
      { rewrite Nat.add_1_r, seq_S, <- Hended, <- Hj. reflexivity. }
      assert (Hmin : Nat.min (List.length (Concat.ended log) + 1) n
                     = (List.length (Concat.ended log) + 1)%nat) by lia.
      rewrite Hmin in Hinv.
      assert (Hrange : Concat.i s + 1 <> Z.of_nat n ->
                       (0 <=? Concat.i s + 1) && (Concat.i s + 1 <? Z.of_nat n) = true).
      { intros Hne. apply andb_true_iff. split; [apply Z.leb_le | apply Z.ltb_lt]; lia. }
      destruct (Concat.i s + 1 =? Z.of_nat n) eqn:En;
        [|apply Z.eqb_neq in En; rewrite (Hrange En) in *; apply Z.eqb_neq in En];
        cbn [settle fst snd] in *.
      * (* it was the last source *)
        apply Z.eqb_eq in En.
        unfold Concat.invariant. cbn [state stack crashed Concat.i Concat.set_i].
        rewrite Eended, Egreeted, concat_invoked_snoc, concat_sink_data_snoc,
          concat_starts_down_snoc, !app_nil_r, length_app. cbn [List.length].
        split; [lia|]. split; [lia|].
        split; [constructor; [reflexivity | assumption]|].
        split; [reflexivity|].
        split; [assumption|].
        split.
        { rewrite Hinv. do 2 f_equal. lia. }
        split; [assumption|].
        split.
        { apply Forall_app. split; [assumption|]. constructor; [|constructor].
          cbn [fst snd]. unfold Concat.answers. repeat split.
          - intros z E. discriminate E.
          - intros E. discriminate E.
          - intros [d' E]. discriminate E.
          - intros j' d' E. discriminate E.
          - intros j' d' E. discriminate E. }
        split; [lia|].
        split.
        { intros j' Hj'. rewrite Edata. apply Hlater. lia. }
        rewrite Hdata. apply flat_map_agree. intros j' _. symmetry. apply Edata.
      * (* the next source is invoked *)
        apply Z.eqb_neq in En.
        unfold Concat.invariant. cbn [state stack crashed Concat.i Concat.set_i].
        rewrite Eended, Egreeted, concat_invoked_snoc, concat_sink_data_snoc,
          concat_starts_down_snoc, !app_nil_r, length_app. cbn [List.length].
        split; [lia|]. split; [lia|].
        split; [constructor; [reflexivity | assumption]|].
        split; [reflexivity|].
        split; [assumption|].
        split.
        { rewrite Hinv.
          replace (Nat.min (List.length (Concat.ended log) + 1 + 1) n)
            with (Datatypes.S (List.length (Concat.ended log) + 1)) by lia.
          rewrite seq_S, map_app. simpl. do 2 f_equal. lia. }
        split; [assumption|].
        split.
        { apply Forall_app. split; [assumption|]. constructor; [|constructor].
          cbn [fst snd]. unfold Concat.answers. repeat split.
          - intros z E. inversion E. exists j, d. split; [reflexivity | lia].
          - intros E. discriminate E.
          - intros [d' E]. discriminate E.
          - intros j' d' E. discriminate E.
          - intros j' d' E. discriminate E. }
        split; [lia|].
        split.
        { intros j' Hj'. rewrite Edata. apply Hlater. lia. }
        rewrite Hdata. apply flat_map_agree. intros j' _. symmetry. apply Edata.
    + rewrite concat_advance_other in * by assumption. cbn [settle fst snd] in *.
      apply (concat_silent n log _ s st _ None Hinvariant); auto.
  - (* the talkback is called *)
    cbn [Concat.handler] in *. rewrite concat_advance_talkback in *.
    destruct ((t =? 1) || (t =? 2));
      [destruct (callable (Concat.sourceTalkback s))|];
      cbn [settle fst snd] in *.
    + apply (concat_silent n log _ s (Ret :: st) _ _ Hinvariant); simpl; auto.
    + discriminate Hnc.
    + apply (concat_silent n log _ s st _ None Hinvariant); simpl; auto.
  - (* the pending call returns *)
    destruct st as [|p st]; cbn [fst snd].
    + apply (concat_silent n log _ s [] _ None Hinvariant); simpl; auto.
    + pose proof (Forall_inv Hst) as Hp. pose proof (Forall_inv_tail Hst) as Hst'.
      rewrite <- Hp. cbn [advance settle fst snd].
      apply (concat_silent n log _ s st _ None Hinvariant); simpl; auto.
Qed.

Lemma concat_boot (n : nat) :
  (1 <= n)%nat ->
  snd (boot (Concat.body n 0) Concat.init) = Some (Concat.SrcInvoke 0) /\
  Concat.invariant n [] (fst (boot (Concat.body n 0) Concat.init)).
Proof.
  intros Hn. destruct n as [|r]; [lia|].
  split; [reflexivity|].
  unfold Concat.invariant. cbn.
  repeat split; auto; try lia; try constructor.
  induction (List.seq 1 r) as [|a l IH]; simpl; auto.
Qed.

Lemma concat_run (n : nat) (c0 : Config) :
  (1 <= n)%nat ->
  Concat.invariant n [] c0 ->
  forall ms : list Move,
    Concat.valid (snd (run (Concat.handler n) c0 ms)) = true ->
    crashed (fst (run (Concat.handler n) c0 ms)) = false ->
    Concat.invariant n (snd (run (Concat.handler n) c0 ms))
                     (fst (run (Concat.handler n) c0 ms)).
Proof.
  intros Hn H0 ms. induction ms as [|m ms IH] using rev_ind; intros Hval Hnc.
  - exact H0.
  - rewrite run_app in *. cbn [fst snd] in *.
    set (c1 := fst (run (Concat.handler n) c0 ms)) in *.
    set (log := snd (run (Concat.handler n) c0 ms)) in *.
    rewrite run_cons in *. cbn [run fst snd] in *.
    rewrite concat_valid_snoc in Hval. cbn [fst] in Hval.
    apply andb_prop in Hval as [Hadm Hval].
    assert (Hnc1 : crashed c1 = false).
    { destruct (crashed c1) eqn:E; [|reflexivity].
      unfold move in Hnc. rewrite E in Hnc. cbn [fst] in Hnc. congruence. }
    apply concat_step; auto.
Qed.

Lemma concat_hands_over_step (n : nat) (log : list Concat.Entry) (c : Config)
      (m : Move) :
  Concat.invariant n log c ->
  Concat.admissible log m = true ->
  crashed (fst (move (Concat.handler n) c m)) = false ->
  Concat.hands_over n m (snd (move (Concat.handler n) c m)).
Proof.
  intros Hinvariant Hadm Hnc.
  pose proof Hinvariant as
    (Hk & Hi & Hst & Hcr & Hended & Hinv & Hnd & Hans & Hsd & Hlater & Hdata).
  destruct c as [s st cr]. cbn [state stack crashed] in *. subst cr.
  unfold move in *. cbn [crashed state stack] in *.
  destruct m as [[j t d|t d]|].
  - destruct (concat_speaker n log _ j t d Hinvariant Hadm) as (Hj & Hjn & _).
    cbn [Concat.handler] in *.
    destruct (Z.eq_dec t 0) as [->|Ht0];
      [|destruct (Z.eq_dec t 1) as [->|Ht1];
        [|destruct (Z.eq_dec t 2) as [->|Ht2]]].
    + rewrite concat_advance_start in *. cbv zeta in *.
      destruct (Concat.i s =? 0); [|destruct (callable d)];
        cbn [settle fst snd] in *; try discriminate Hnc;
        (split; [intros j' d' E; discriminate E | intros d' E; discriminate E]).
    + change (advance (Concat.from_source n 1 d) s)
        with (Pending s (Concat.Sink 1 d) (@Ret Concat.State Concat.Out)) in *.
      cbn [settle fst snd].
      split; [intros j' d' E; discriminate E | intros d' E; discriminate E].
    + rewrite concat_advance_end in *. cbv zeta in *.
      replace (Concat.i s) with (Z.of_nat j) in * by lia.
      destruct (Z.of_nat j + 1 =? Z.of_nat n) eqn:En.
      * cbn [settle fst snd]. split.
        -- intros j' d' E. inversion E; subst. now rewrite En.
        -- intros d' E. inversion E. split; [reflexivity|].
           exists j, d. split; [reflexivity|]. now apply Z.eqb_eq.
      * destruct ((0 <=? Z.of_nat j + 1) && (Z.of_nat j + 1 <? Z.of_nat n));
          cbn [settle fst snd] in *; [|discriminate Hnc]. split.
        -- intros j' d' E. inversion E; subst. now rewrite En.
        -- intros d' E. discriminate E.
    + rewrite concat_advance_other in * by assumption. cbn [settle fst snd].
      split; [intros j' d' E; congruence | intros d' E; discriminate E].
  - cbn [Concat.handler] in *. rewrite concat_advance_talkback in *.
    destruct ((t =? 1) || (t =? 2));
      [destruct (callable (Concat.sourceTalkback s))|];
      cbn [settle fst snd] in *; try discriminate Hnc;
      (split; [intros j' d' E; discriminate E | intros d' E; discriminate E]).
  - destruct st as [|p st]; cbn [fst snd].
    + split; [intros j' d' E; discriminate E | intros d' E; discriminate E].
    + rewrite <- (Forall_inv Hst). cbn [advance settle fst snd].
      split; [intros j' d' E; discriminate E | intros d' E; discriminate E].
Qed.

Lemma concat_hands_over_run (n : nat) (c0 : Config) :
  (1 <= n)%nat ->
  Concat.invariant n [] c0 ->
  forall ms : list Move,
    Concat.valid (snd (run (Concat.handler n) c0 ms)) = true ->
    crashed (fst (run (Concat.handler n) c0 ms)) = false ->
    Forall (fun x => Concat.hands_over n (fst x) (snd x))
           (snd (run (Concat.handler n) c0 ms)).
Proof.
  intros Hn H0 ms. induction ms as [|m ms IH] using rev_ind; intros Hval Hnc.
  - constructor.
  - pose proof (concat_run n c0 Hn H0 ms) as Hrun.
    rewrite run_app in *. cbn [fst snd] in *.
    rewrite run_cons in *. cbn [run fst snd] in *.
    rewrite concat_valid_snoc in Hval. cbn [fst] in Hval.
    apply andb_prop in Hval as [Hadm Hval].
    assert (Hnc1 : crashed (fst (run (Concat.handler n) c0 ms)) = false).
    { destruct (crashed (fst (run (Concat.handler n) c0 ms))) eqn:E; [|reflexivity].
      unfold move in Hnc. rewrite E in Hnc. cbn [fst] in Hnc. congruence. }
    apply Forall_app. split; [now apply IH|].
    constructor; [|constructor]. cbn [fst snd].
    apply (concat_hands_over_step n _ _ m (Hrun Hval Hnc1) Hadm Hnc).
Qed.

(** [sourceTalkback] holds what the latest START brought. *)
Lemma concat_talkback_run (n : nat) (ms : list Move) :
  let r := run (Concat.handler n) (fst (boot (Concat.body n 0) Concat.init)) ms in
  (1 <= n)%nat ->
  crashed (fst r) = false ->
  Concat.sourceTalkback (state (fst r)) = last (Concat.greetings (snd r)) VUndef.
Proof.
  intros r Hn Hnc. subst r.
  pose proof (run_invariant (Concat.handler n) (fun _ => True)
                (fun c log => crashed c = false ->
                              Forall (eq Ret) (stack c) /\
                              Concat.sourceTalkback (state c) =
                                last (Concat.greetings log) VUndef)) as H.
  apply H; [| | apply Forall_forall; auto | exact Hnc]; clear H Hnc.
  - intros c log m _ Hinv Hnc1.
    pose proof (move_not_crashed _ _ _ Hnc1) as Hnc.
    destruct (Hinv Hnc) as (Hst & Htb). clear Hinv.
    destruct c as [s st cr]. cbn [crashed stack state] in *. subst cr.
    unfold Concat.greetings in *. rewrite flat_map_app.
    unfold move in *. cbn [crashed state stack] in *.
    destruct m as [[j t d|t d]|].
    + cbn [Concat.handler] in *.
      destruct (Z.eq_dec t 0) as [->|Ht0];
        [|destruct (Z.eq_dec t 1) as [->|Ht1];
          [|destruct (Z.eq_dec t 2) as [->|Ht2]]].
      * rewrite concat_advance_start in *. cbv zeta in *.
        destruct (Concat.i s =? 0); [|destruct (callable d)];
          cbn [settle fst snd state stack] in *; try discriminate Hnc1;
          (split; [constructor; [reflexivity | exact Hst]|]);
          cbn; now rewrite last_last.
      * change (advance (Concat.from_source n 1 d) s)
          with (Pending s (Concat.Sink 1 d) (@Ret Concat.State Concat.Out)) in *.
        cbn. rewrite app_nil_r. split; [constructor; [reflexivity | exact Hst] | exact Htb].
      * rewrite concat_advance_end in *. cbv zeta in *.
        destruct (Concat.i s + 1 =? Z.of_nat n);
          [|destruct ((0 <=? Concat.i s + 1) && (Concat.i s + 1 <? Z.of_nat n))];
          cbn [settle fst snd state stack] in *; try discriminate Hnc1;
          cbn; rewrite app_nil_r;
          (split; [constructor; [reflexivity | exact Hst] | exact Htb]).
      * rewrite concat_advance_other in * by assumption. cbn.
        apply Z.eqb_neq in Ht0. rewrite Ht0. cbn. rewrite app_nil_r. auto.
    + cbn [Concat.handler] in *. rewrite concat_advance_talkback in *.
      destruct ((t =? 1) || (t =? 2));
        [destruct (callable (Concat.sourceTalkback s))|];
        cbn [settle fst snd state stack] in *; try discriminate Hnc1;
        cbn; rewrite app_nil_r; auto.
    + destruct st as [|p st]; cbn; rewrite app_nil_r; [auto|].
      rewrite <- (Forall_inv Hst). cbn. split; [exact (Forall_inv_tail Hst) | exact Htb].
  - intros _. destruct n as [|n']; [lia|]. cbn. auto.
Qed.

(** C7: [concat] over [n >= 1] sources (for [concat(a, b)], [n = 2], [a] is
    source 0 and [b] source 1), run against well-behaved sources and any
    downstream code, without a TypeError.  The body invokes source 0.  At
    every move of the run ([Concat.answers]): a later source is invoked only
    in answer to the END of the source before it; START is sent downstream
    in answer to the START of source 0 and to nothing else, while the START
    of a later source is answered by a PULL on the talkback it brings; and a
    DATA is passed on as it is.  The END of a source is answered by
    invoking the source after it, or by an END downstream when it was the
    last ([Concat.hands_over]), so that the sources invoked so far are
    source 0 and one more for each source that has ended.  START is sent
    downstream as many times as source 0 greets, which is at most once.  The DATA delivered downstream
    are the DATA of source 0, followed by the DATA of source 1, and so on
    in argument order.  When START goes downstream, [sourceTalkback] holds
    the talkback that source 0 brought; at any time it holds the talkback
    that the latest START brought; and the talkback handed downstream
    passes every PULL and END on to [sourceTalkback]. *)
Theorem concat_runs_sources_in_sequence :
  forall (n : nat) (ms : list Move),
    (1 <= n)%nat ->
    let c0 := fst (boot (Concat.body n 0) Concat.init) in
    let c := fst (run (Concat.handler n) c0 ms) in
    let log := snd (run (Concat.handler n) c0 ms) in
    Concat.valid log = true ->
    crashed c = false ->
    snd (boot (Concat.body n 0) Concat.init) = Some (Concat.SrcInvoke 0) /\
    (forall m o, In (m, o) log -> Concat.answers m o) /\
    (forall m o, In (m, o) log -> Concat.hands_over n m o) /\
    Concat.invoked log =
      map Z.of_nat
          (List.seq 0 (Nat.min (List.length (Concat.ended log) + 1) n)) /\
    Concat.starts_down log = count_occ Nat.eq_dec (Concat.greeted log) 0%nat /\
    (Concat.starts_down log <= 1)%nat /\
    Concat.sink_data log =
      flat_map (fun j => Concat.src_data j log) (List.seq 0 n) /\
    (forall (s : Concat.State) (d : Val) env,
       Concat.i s = 0 ->
       fst (play (Concat.handler n (Concat.Src 0 0 d)) s env) =
         [(Concat.SinkStart, Concat.set_sourceTalkback d s)]) /\
    Concat.sourceTalkback (state c) = last (Concat.greetings log) VUndef /\
    (forall (s : Concat.State) (t : Z) (d : Val) env,
       t = 1 \/ t = 2 ->
       callable (Concat.sourceTalkback s) = true ->
       calls (Concat.handler n (Concat.Tb t d)) s env =
         [Concat.Up (Concat.sourceTalkback s) t d]).
Proof.
  intros n ms Hn c0 c log Hval Hnc.
  destruct (concat_boot n Hn) as [Hboot H0].
  pose proof (concat_run n c0 Hn H0 ms Hval Hnc) as
    (Hk & Hi & Hst & Hcr & Hended & Hinv & Hnd & Hans & Hsd & Hlater & Hdata).
  fold log in Hans, Hsd, Hdata, Hnd, Hinv.
  split; [exact Hboot|].
  split.
  { intros m o H. rewrite Forall_forall in Hans. apply (Hans (m, o) H). }
  split.
  { intros m o H.
    pose proof (concat_hands_over_run n c0 Hn H0 ms Hval Hnc) as Hho.
    rewrite Forall_forall in Hho. apply (Hho (m, o) H). }
  split; [exact Hinv|].
  split; [exact Hsd|].
  split; [rewrite Hsd; apply NoDup_count_occ; exact Hnd|].
  split; [exact Hdata|].
  split; [|split].
  - intros s d env E0. cbn. rewrite E0. reflexivity.
  - apply (concat_talkback_run n ms Hn Hnc).
  - intros s t d env Ht Hcb. unfold calls. cbn. unfold Concat.talkback.
    assert (E : (t =? 1) || (t =? 2) = true) by (destruct Ht; subst; reflexivity).
    rewrite E. cbn. rewrite Hcb. reflexivity.
Qed.

Lemma concat_witness :
  let log := snd (run (Concat.handler 2)
                    (fst (boot (Concat.body 2 0) Concat.init))
                    Concat.a_then_b) in
  Concat.starts_down log = 1%nat /\
  Concat.sink_data log = Concat.src_data 0 log ++ Concat.src_data 1 log ++ [] /\
  Concat.invoked log = [0; 1].
Proof.
  pose proof (concat_runs_sources_in_sequence 2 Concat.a_then_b
                (le_S 1 1 (le_n 1)) eq_refl eq_refl) as H.
  destruct H as (_ & _ & _ & Hinv & Hsd & _ & Hdata & _).
  split; [|split].
  - rewrite Hsd. reflexivity.
  - exact Hdata.
  - rewrite Hinv. reflexivity.
Defined.

(** ** share *)

Lemma share_advance_attach (k : nat) (s : Share.State) :
  advance (Share.shared k 0) s =
  let s' := Share.set_sinks (Share.sinks s ++ [k]) s in
  match Share.sinks s with
  | [] => Pending s' (Share.SrcInvoke k) Ret
  | _ => Pending s' (Share.SinkStart k) Ret
  end.
Proof.
  cbn. rewrite length_app, Nat.add_1_r.
  destruct (Share.sinks s); reflexivity.
Qed.

Lemma share_advance_talkback (k : nat) (t : Z) (d : Val) (s : Share.State) :
  t <> 2 ->
  advance (Share.talkback k t d) s =
  if t =? 0 then Finished s
  else if callable (Share.sourceTalkback s)
       then Pending s (Share.Up (Share.sourceTalkback s) t d) Ret
       else Crashed s.
Proof.
  intros H2. unfold Share.talkback. destruct (t =? 0); [reflexivity|].
  apply Z.eqb_neq in H2. rewrite H2. cbn.
  destruct (callable (Share.sourceTalkback s)); reflexivity.
Qed.

Lemma share_advance_dispatch (copy : list nat) (t : Z) (d : Val) (s : Share.State) :
  t <> 2 ->
  advance (Share.rest_of_dispatch copy t d) s =
  match copy with
  | [] => Finished s
  | k :: rest => Pending s (Share.Sink k t d) (Share.rest_of_dispatch rest t d)
  end.
Proof.
  intros H2. unfold Share.rest_of_dispatch.
  apply Z.eqb_neq in H2. rewrite H2.
  destruct copy; reflexivity.
Qed.

Lemma share_advance_source (k : nat) (t : Z) (d : Val) (s : Share.State) :
  t <> 2 ->
  advance (Share.from_source k t d) s =
  if t =? 0 then Pending (Share.set_sourceTalkback d s) (Share.SinkStart k) Ret
  else advance (Share.rest_of_dispatch (Share.sinks s) t d) s.
Proof.
  intros H2. unfold Share.from_source, Share.rest_of_dispatch.
  destruct (t =? 0) eqn:E0.
  - apply Z.eqb_eq in E0. subst t. reflexivity.
  - reflexivity.
Qed.

Lemma share_quiet_step (c : Config) (m : Move) :
  crashed c = false ->
  Forall Share.benign (stack c) ->
  Share.quiet m = true ->
  crashed (fst (move Share.handler c m)) = false ->
  Forall Share.benign (stack (fst (move Share.handler c m))) /\
  match snd (move Share.handler c m) with
  | Some (Share.SrcInvoke _) =>
      Share.sinks (state c) = [] /\ Share.attaches m = true
  | _ => Share.sinks (state c) <> [] \/ Share.attaches m = false
  end /\
  (Share.sinks (state (fst (move Share.handler c m))) = [] <->
   Share.sinks (state c) = [] /\ Share.attaches m = false).
Proof.
  destruct c as [s st cr]. cbn [state stack crashed].
  intros -> Hst Hq Hnc.
  unfold move in *. cbn [crashed state stack] in *.
  assert (Hret : Share.benign Ret) by (now left).
  destruct m as [[k start|k t d|k t d]|]; cbn [Share.handler Share.attaches] in *.
  - (* a sink attaches *)
    destruct (start =? 0) eqn:E0.
    + apply Z.eqb_eq in E0. subst start.
      rewrite share_advance_attach in *. cbv zeta in *.
      destruct (Share.sinks s) as [|k0 rest] eqn:Es;
        cbn [settle fst snd state stack Share.sinks Share.set_sinks] in *.
      * repeat split; auto; try discriminate. intros [_ H]; discriminate H.
      * repeat split; auto; try discriminate.
        -- left. discriminate.
        -- intros [H _]; discriminate H.
    + unfold Share.shared in *. rewrite E0 in *.
      cbn [negb advance settle fst snd state stack] in *.
      repeat split; auto. tauto.
  - (* a talkback is called *)
    cbn [Share.quiet] in Hq. apply negb_true_iff, Z.eqb_neq in Hq.
    rewrite share_advance_talkback in * by assumption.
    destruct (t =? 0); [|destruct (callable (Share.sourceTalkback s))];
      cbn [settle fst snd state stack] in *;
      try discriminate Hnc; repeat split; auto; tauto.
  - (* the upstream source speaks *)
    cbn [Share.quiet] in Hq. apply negb_true_iff, Z.eqb_neq in Hq.
    rewrite share_advance_source in * by assumption.
    destruct (t =? 0).
    + cbn [settle fst snd state stack Share.sinks Share.set_sourceTalkback] in *.
      repeat split; auto; tauto.
    + rewrite share_advance_dispatch in * by assumption.
      destruct (Share.sinks s) as [|k0 rest] eqn:Es;
        cbn [settle fst snd state stack] in *; rewrite ?Es.
      * repeat split; auto; tauto.
      * repeat split; auto; try tauto.
        constructor; [|assumption]. right. now exists rest, t, d.
  - (* the pending call returns *)
    destruct st as [|p st]; cbn [fst snd state stack].
    + repeat split; auto; tauto.
    + pose proof (Forall_inv Hst) as Hp. pose proof (Forall_inv_tail Hst) as Hst'.
      destruct Hp as [->|(copy & t & d & Ht & ->)].
      * cbn [advance settle fst snd state stack]. repeat split; auto; tauto.
      * rewrite share_advance_dispatch in * by assumption.
        destruct copy as [|k0 rest]; cbn [settle fst snd state stack] in *.
        -- repeat split; auto; tauto.
        -- repeat split; auto; try tauto.
           constructor; [|assumption]. right. now exists rest, t, d.
Qed.

Lemma share_upstream_starts_cons x (l : list (Move (I := Share.In) * option Share.Out)) :
  Share.upstream_starts (x :: l) =
  (match snd x with Some (Share.SrcInvoke _) => 1 | _ => 0 end
   + Share.upstream_starts l)%nat.
Proof.
  unfold Share.upstream_starts. simpl.
  destruct (snd x) as [[]|]; reflexivity.
Qed.

Lemma share_quiet_run (ms : list Move) :
  forall c : Config,
    crashed c = false ->
    Forall Share.benign (stack c) ->
    forallb Share.quiet ms = true ->
    crashed (fst (run Share.handler c ms)) = false ->
    Share.upstream_starts (snd (run Share.handler c ms)) =
      match Share.sinks (state c) with
      | [] => if existsb Share.attaches ms then 1%nat else 0%nat
      | _ => 0%nat
      end.
Proof.
  induction ms as [|m ms IH]; intros c Hc Hst Hq Hnc.
  - simpl. destruct (Share.sinks (state c)); reflexivity.
  - rewrite run_cons in *. cbn [fst snd] in *.
    simpl in Hq. apply andb_prop in Hq as [Hqm Hq].
    assert (Hnc1 : crashed (fst (move Share.handler c m)) = false).
    { destruct (crashed (fst (move Share.handler c m))) eqn:Ec; [|reflexivity].
      rewrite (run_crashed _ _ ms Ec) in Hnc. discriminate Hnc. }
    destruct (share_quiet_step c m Hc Hst Hqm Hnc1) as (Hst1 & Ho & Hs1).
    rewrite share_upstream_starts_cons. cbn [snd].
    rewrite (IH _ Hnc1 Hst1 Hq Hnc).
    cbn [existsb].
    destruct (snd (move Share.handler c m)) as [[k|k|k t d|f t d]|];
      destruct (Share.sinks (state c)) eqn:Ec0;
      destruct (Share.attaches m) eqn:Ea;
      destruct (Share.sinks (state (fst (move Share.handler c m)))) eqn:Ec1;
      cbn [orb Nat.add]; try reflexivity; exfalso;
      intuition (try discriminate; try congruence).
Qed.

(** One message of the upstream source goes to every sink of the copy, in
    order, whatever the sinks do meanwhile. *)
Lemma share_dispatch_calls (t : Z) (d : Val) (copy : list nat) :
  forall (s : Share.State) env,
    calls (Share.rest_of_dispatch copy t d) s env =
    map (fun k => Share.Sink k t d) copy.
Proof.
  unfold calls, Share.rest_of_dispatch.
  induction copy as [|k rest IH]; intros s env.
  - destruct (t =? 2); reflexivity.
  - simpl. f_equal. apply IH.
Qed.

(** The sinks return at once: the dispatch runs to its end and leaves the
    machine as it was. *)
Lemma share_dispatch_returns (d : Val) (copy : list nat) :
  forall (s : Share.State) st,
    run Share.handler
        (mkConfig s (Share.rest_of_dispatch copy 1 d :: st) false)
        (repeat Return (Datatypes.S (List.length copy))) =
    (mkConfig s st false,
     map (fun k => (Return, Some (Share.Sink k 1 d))) copy ++ [(Return, None)]).
Proof.
  induction copy as [|k rest IH]; intros s st.
  - reflexivity.
  - change (repeat (@Return Share.In) (Datatypes.S (List.length (k :: rest))))
      with (@Return Share.In :: repeat Return (Datatypes.S (List.length rest))).
    rewrite run_cons.
    unfold move. cbn [crashed stack state].
    rewrite share_advance_dispatch by discriminate.
    cbn [settle fst snd]. rewrite (IH s st). reflexivity.
Qed.

Lemma share_deliver_run (j : nat) (d : Val) (s : Share.State) st :
  fst (run Share.handler (mkConfig s st false)
           (Share.deliver_moves j d (Share.sinks s))) = mkConfig s st false /\
  outs (snd (run Share.handler (mkConfig s st false)
                 (Share.deliver_moves j d (Share.sinks s)))) =
    map (fun k => Share.Sink k 1 d) (Share.sinks s).
Proof.
  unfold Share.deliver_moves. rewrite run_cons.
  unfold move. cbn [crashed stack state Share.handler].
  rewrite share_advance_source, share_advance_dispatch by discriminate.
  cbn [Z.eqb].
  destruct (Share.sinks s) as [|k rest].
  - split; reflexivity.
  - cbn [settle fst snd List.length]. rewrite share_dispatch_returns.
    cbn [fst snd]. split; [reflexivity|].
    unfold outs. cbn [flat_map snd app map]. f_equal.
    rewrite flat_map_app. cbn [flat_map snd app]. rewrite app_nil_r.
    clear. induction rest as [|k' rest IH]; simpl; [|rewrite IH]; reflexivity.
Qed.

Lemma share_deliver_all (j : nat) (ds : list Val) (s : Share.State) st :
  fst (run Share.handler (mkConfig s st false)
           (flat_map (fun d => Share.deliver_moves j d (Share.sinks s)) ds))
    = mkConfig s st false /\
  outs (snd (run Share.handler (mkConfig s st false)
                 (flat_map (fun d => Share.deliver_moves j d (Share.sinks s)) ds))) =
    flat_map (fun d => map (fun k => Share.Sink k 1 d) (Share.sinks s)) ds.
Proof.
  induction ds as [|d ds IH].
  - split; reflexivity.
  - cbn [flat_map]. rewrite run_app. cbn [fst snd].
    destruct (share_deliver_run j d s st) as [E1 E2].
    rewrite E1, outs_app, E2.
    destruct IH as [IH1 IH2]. rewrite IH1, IH2. split; reflexivity.
Qed.

Lemma share_advance_detach (k : nat) (d : Val) (s : Share.State) :
  advance (Share.talkback k 2 d) s =
  let s' := Share.set_sinks (remove_first k (Share.sinks s)) s in
  match remove_first k (Share.sinks s) with
  | [] => if callable (Share.sourceTalkback s)
          then Pending s' (Share.Up (Share.sourceTalkback s) 2 VUndef) Ret
          else Crashed s'
  | _ => Finished s'
  end.
Proof.
  cbn. destruct (remove_first k (Share.sinks s)); [|reflexivity].
  cbn. destruct (callable (Share.sourceTalkback s)); reflexivity.
Qed.

(** What entering a closure leads to, from the closure variables. *)
Lemma share_calls (i : Share.In) (s : Share.State) env :
  (Share.needs_upstream (Share.sinks s) i = true ->
   callable (Share.sourceTalkback s) = true) ->
  calls (Share.handler i) s env =
    Share.answers (Share.sinks s) (Share.sourceTalkback s) i.
Proof.
  intros Hcb. unfold calls. destruct i as [k start|k t d|j t d];
    cbn [Share.handler Share.answers Share.needs_upstream] in *.
  - unfold Share.shared. destruct (start =? 0); [|reflexivity].
    cbn. rewrite length_app, Nat.add_1_r.
    destruct (Share.sinks s); reflexivity.
  - unfold Share.talkback. destruct (t =? 0); [reflexivity|].
    destruct (t =? 2).
    + cbn. destruct (remove_first k (Share.sinks s)); [|reflexivity].
      cbn. rewrite (Hcb eq_refl). reflexivity.
    + cbn. rewrite (Hcb eq_refl). reflexivity.
  - destruct (t =? 0) eqn:E0.
    + apply Z.eqb_eq in E0. subst t. reflexivity.
    + pose proof (share_dispatch_calls t d (Share.sinks s) s env) as H.
      unfold calls, Share.rest_of_dispatch in H.
      unfold Share.from_source. rewrite E0. exact H.
Qed.

Lemma fold_left_snoc {A B} (f : A -> B -> A) (l : list B) (b : B) (a : A) :
  fold_left f (l ++ [b]) a = f (fold_left f l a) b.
Proof. now rewrite fold_left_app. Qed.

Definition share_invariant (c : Config (S := Share.State) (O := Share.Out))
           (log : list (Move (I := Share.In) * option Share.Out)) : Prop :=
  crashed c = false ->
  Forall Share.benign (stack c) /\
  Share.sinks (state c) = Share.attached (map fst log) /\
  Share.sourceTalkback (state c) = Share.upstream_talkback (map fst log).

Lemma share_live_step (c : Config)
      (log : list (Move (I := Share.In) * option Share.Out)) (m : Move) :
  Share.live m = true ->
  share_invariant c log ->
  share_invariant (fst (move Share.handler c m))
                  (log ++ [(m, snd (move Share.handler c m))]).
Proof.
  intros Hlive Hinv Hnc1.
  pose proof (move_not_crashed _ _ _ Hnc1) as Hnc.
  destruct (Hinv Hnc) as (Hst & Hs & Htb). clear Hinv.
  destruct c as [s st cr]. cbn [crashed stack state] in *. subst cr.
  unfold Share.attached, Share.upstream_talkback in *.
  rewrite map_app. cbn [map fst]. rewrite !fold_left_snoc, <- Hs, <- Htb.
  unfold move in *. cbn [crashed state stack] in *.
  assert (Hret : Share.benign Ret) by (now left).
  destruct m as [[k start|k t d|j t d]|];
    cbn [Share.handler Share.attach_step Share.greeting_step] in *.
  - destruct (start =? 0) eqn:E0.
    + apply Z.eqb_eq in E0. subst start.
      rewrite share_advance_attach in *. cbv zeta in *.
      destruct (Share.sinks s); cbn; auto.
    + unfold Share.shared. rewrite E0. cbn. auto.
  - destruct (t =? 2) eqn:E2.
    + apply Z.eqb_eq in E2. subst t.
      rewrite share_advance_detach in *. cbv zeta in *.
      destruct (remove_first k (Share.sinks s));
        [destruct (callable (Share.sourceTalkback s))|];
        cbn in *; try discriminate Hnc1; auto.
    + apply Z.eqb_neq in E2.
      rewrite share_advance_talkback in * by assumption.
      destruct (t =? 0); [|destruct (callable (Share.sourceTalkback s))];
        cbn in *; try discriminate Hnc1; auto.
  - cbn [Share.live] in Hlive. apply negb_true_iff, Z.eqb_neq in Hlive.
    rewrite share_advance_source in * by assumption.
    destruct (t =? 0).
    + cbn. auto.
    + rewrite share_advance_dispatch in * by assumption.
      destruct (Share.sinks s) as [|k0 rest] eqn:Es; cbn; rewrite ?Es; [auto|].
      split; [|auto]. constructor; [|assumption]. right. now exists rest, t, d.
  - destruct st as [|p st]; cbn [fst snd state stack]; [auto|].
    pose proof (Forall_inv Hst) as Hp. pose proof (Forall_inv_tail Hst) as Hst'.
    destruct Hp as [->|(copy & t & d & Ht & ->)].
    + cbn. auto.
    + rewrite share_advance_dispatch in * by assumption.
      destruct copy as [|k0 rest]; cbn; [auto|].
      split; [|auto]. constructor; [|assumption]. right. now exists rest, t, d.
Qed.

(** In a run in which the upstream source does not end, the closure
    variables hold what the moves tell: the sinks that attached and did
    not detach, and the talkback that the upstream source brought last. *)
Lemma share_live_run (ms : list Move) :
  forallb Share.live ms = true ->
  crashed (fst (run Share.handler (mkConfig Share.init [] false) ms)) = false ->
  Forall Share.benign
         (stack (fst (run Share.handler (mkConfig Share.init [] false) ms))) /\
  Share.sinks (state (fst (run Share.handler (mkConfig Share.init [] false) ms))) =
    Share.attached ms /\
  Share.sourceTalkback
    (state (fst (run Share.handler (mkConfig Share.init [] false) ms))) =
    Share.upstream_talkback ms.
Proof.
  intros Hlive Hnc.
  pose proof (run_invariant Share.handler (fun m => Share.live m = true)
                share_invariant
                (fun c log m Hm H => share_live_step c log m Hm H)
                (mkConfig Share.init [] false)) as H.
  assert (H0 : share_invariant (mkConfig Share.init [] false) []).
  { intros _. cbn. auto. }
  assert (Hok : Forall (fun m => Share.live m = true) ms).
  { apply Forall_forall. intros m Hm. rewrite forallb_forall in Hlive.
    now apply Hlive. }
  specialize (H H0 ms Hok Hnc). rewrite run_moves in H. exact H.
Qed.

(** C8, as stated, fails on the code.  Sinks 1 and 2 are attached and the
    upstream source sends 1.  Sink 1 pulls from inside its callback, and
    the upstream source answers from inside that pull with 2: the loop over
    the sinks that delivers 2 runs to its end before the loop that delivers
    1 reaches sink 2.  Sink 1 has received 1 and then 2, sink 2 receives 2
    and then 1.  The upstream source has not ended, no sink has detached
    and nothing was thrown. *)
Theorem share_nested_delivery_out_of_order :
  let r := run Share.handler (mkConfig Share.init [] false) Share.nested_pull in
  forallb Share.quiet Share.nested_pull = true /\
  crashed (fst r) = false /\
  Share.attached Share.nested_pull = [1; 2]%nat /\
  Share.received 1 (snd r) = [VNum 1; VNum 2] /\
  Share.received 2 (snd r) = [VNum 2; VNum 1].
Proof. cbv zeta. repeat split; reflexivity. Qed.

(** C8, amended to what the code does: [share(source)], in every run from
    its creation in which the upstream source does not end and nothing is
    thrown.
    - As long as no sink detaches, the upstream source is invoked exactly
      once if a sink attaches at all, however many attach.
    - Entering any closure of [share] after the run leads to the calls of
      [Share.answers], whatever the surrounding code does meanwhile: a sink
      that attaches has the upstream source invoked if no sink is attached
      and is greeted otherwise; a sink that detaches has the upstream
      source cancelled, through the talkback that the upstream source
      brought, if it was the last one, and leaves it alone otherwise; a
      DATA of the upstream source goes to every sink attached at that
      moment, in the order they attached.
    - When the upstream source sends [ds] one after the other, each
      delivery being over before the next DATA comes, every attached sink
      gets the DATA of [ds] in that order.
    - When the only attached sink detaches, the upstream source is
      cancelled; a sink that attaches after that has the upstream source
      invoked again, and nothing else is sent: nothing is replayed. *)
Theorem share_delivery_amended :
  forall ms : list Move,
    forallb Share.live ms = true ->
    let r := run Share.handler (mkConfig Share.init [] false) ms in
    crashed (fst r) = false ->
    (forallb Share.quiet ms = true ->
     Share.upstream_starts (snd r) =
       if existsb Share.attaches ms then 1%nat else 0%nat) /\
    (forall (i : Share.In) env,
       (Share.needs_upstream (Share.attached ms) i = true ->
        callable (Share.upstream_talkback ms) = true) ->
       calls (Share.handler i) (state (fst r)) env =
         Share.answers (Share.attached ms) (Share.upstream_talkback ms) i) /\
    (forall (j : nat) (ds : list Val),
       outs (snd (run Share.handler (fst r)
                      (flat_map (fun d => Share.deliver_moves j d (Share.attached ms))
                                ds))) =
         flat_map (fun d => map (fun k => Share.Sink k 1 d) (Share.attached ms)) ds) /\
    (forall (k k' : nat) (d : Val),
       Share.attached ms = [k] ->
       callable (Share.upstream_talkback ms) = true ->
       outs (snd (run Share.handler (fst r)
                      [Enter (Share.Tb k 2 d); Return;
                       Enter (Share.Attach k' 0); Return])) =
         [Share.Up (Share.upstream_talkback ms) 2 VUndef; Share.SrcInvoke k']).
Proof.
  intros ms Hlive r Hnc. subst r.
  destruct (share_live_run ms Hlive Hnc) as (Hst & Hs & Htb).
  destruct (run Share.handler (mkConfig Share.init [] false) ms) as [c log] eqn:Er.
  cbn [fst snd] in *.
  split; [|split; [|split]].
  - intros Hq.
    pose proof (share_quiet_run ms (mkConfig Share.init [] false) eq_refl
                  (Forall_nil _) Hq) as H.
    rewrite Er in H. cbn [fst snd] in H. apply H. exact Hnc.
  - intros i env Hcb. rewrite <- Hs, <- Htb in *. now apply share_calls.
  - intros j ds. destruct c as [s st cr]. cbn [crashed state] in *. subst cr.
    rewrite <- Hs. apply share_deliver_all.
  - intros k k' d Hk Hcb. destruct c as [s st cr]. cbn [crashed state] in *.
    subst cr. rewrite <- Hs in Hk. rewrite <- Htb in *.
    cbn. rewrite Hk. cbn. rewrite Nat.eqb_refl. cbn. rewrite Hcb. reflexivity.
Qed.

Lemma share_delivery_amended_witness :
  let r := run Share.handler (mkConfig Share.init [] false) Share.one_left in
  forallb Share.live Share.one_left = true /\
  crashed (fst r) = false /\
  Share.attached Share.one_left = [2%nat] /\
  Share.upstream_starts
    (snd (run Share.handler (mkConfig Share.init [] false) Share.three_sinks)) = 1%nat /\
  calls (Share.handler (Share.Src 1 1 (VNum 5))) (state (fst r)) [] =
    [Share.Sink 2 1 (VNum 5)] /\
  calls (Share.handler (Share.Tb 2 1 VUndef)) (state (fst r)) [] =
    [Share.Up (VFn 9) 1 VUndef] /\
  outs (snd (run Share.handler (fst r)
                 [Enter (Share.Tb 2 2 VUndef); Return;
                  Enter (Share.Attach 3 0); Return])) =
    [Share.Up (VFn 9) 2 VUndef; Share.SrcInvoke 3].
Proof.
  pose proof (share_delivery_amended Share.one_left eq_refl eq_refl) as H.
  cbv zeta in *. destruct H as (_ & Hb & _ & Hd).
  split; [reflexivity|]. split; [reflexivity|]. split; [reflexivity|].
  split; [|split; [|split]].
  - apply (proj1 (share_delivery_amended Share.three_sinks eq_refl eq_refl)).
    reflexivity.
  - rewrite (Hb (Share.Src 1 1 (VNum 5)) []); [reflexivity | discriminate].
  - rewrite (Hb (Share.Tb 2 1 VUndef) []); [reflexivity | reflexivity].
  - rewrite (Hd 2%nat 3%nat VUndef eq_refl eq_refl). reflexivity.
Defined.

(** ** take: what holds in every run *)

(** Over [fromIter], whose loop does not answer a pull from inside the
    delivery, [take(2)] sends one END downstream and one cancellation
    upstream. *)
Example take_ends_once_over_fromIter :
  outs (snd (run (Take.handler 2) (fst (boot (Take.body 0) Take.init))
               Take.iter_moves)) =
    [ Take.SinkStart;
      Take.Up (VFn 1) 1 VUndef; Take.Sink 1 (VNum 10);
      Take.Up (VFn 1) 1 VUndef; Take.Sink 1 (VNum 11);
      Take.Sink 2 VUndef; Take.Up (VFn 1) 2 VUndef ].
Proof. reflexivity. Qed.

(** [forEach] does pull from inside its callback, on START and on DATA. *)
Example forEach_pulls_inside_its_callback :
  calls (ForEach.handler (ForEach.Msg 0 (VFn 7))) ForEach.init [] =
    [ForEach.TalkbackCall (VFn 7) 1] /\
  calls (ForEach.handler (ForEach.Msg 1 (VNum 10))) (ForEach.mkState (VFn 7)) [] =
    [ForEach.Operation (VNum 10); ForEach.TalkbackCall (VFn 7) 1].
Proof. split; reflexivity. Qed.

Lemma take_step (max : Z) (c : Config) (m : Move) :
  Take.taken (state c) <= max ->
  Forall (Take.harmless max) (stack c) ->
  Forall (Take.harmless max) (stack (fst (move (Take.handler max) c m))) /\
  Take.taken (state (fst (move (Take.handler max) c m))) <= max /\
  Take.taken (state (fst (move (Take.handler max) c m))) =
    Take.taken (state c)
    + Z.of_nat (List.length (Take.forwarded [(m, snd (move (Take.handler max) c m))])).
Proof.
  destruct c as [s st cr]. cbn [state stack]. intros Ht Hst.
  assert (Hret : Take.harmless max Ret) by (now left).
  unfold move. cbn [crashed state stack].
  destruct cr; [cbn; repeat split; auto; lia|].
  destruct m as [[t d|t d]|]; cbn [Take.handler].
  - (* the source speaks *)
    unfold Take.from_source.
    destruct (t =? 0) eqn:E0; [|destruct (t =? 1) eqn:E1].
    + cbn. repeat split; auto; lia.
    + apply Z.eqb_eq in E1. subst t. cbn.
      destruct (Take.taken s <? max) eqn:El; cbn.
      * apply Z.ltb_lt in El. repeat split; try lia.
        constructor; [|assumption]. right. now left.
      * repeat split; auto; lia.
    + cbn. rewrite E1. cbn. repeat split; auto; lia.
  - (* the talkback is called *)
    unfold Take.talkback. cbn.
    destruct (Take.taken s <? max); cbn;
      [destruct (callable (Take.sourceTalkback s)); cbn|];
      repeat split; auto; lia.
  - (* the pending call returns *)
    destruct st as [|p st]; [cbn; repeat split; auto; lia|].
    pose proof (Forall_inv Hst) as Hp. pose proof (Forall_inv_tail Hst) as Hst'.
    destruct Hp as [->|[->| ->]]; cbn.
    + repeat split; auto; lia.
    + destruct (Take.taken s =? max); cbn.
      * repeat split; try lia. constructor; [|assumption]. right. now right.
      * repeat split; auto; lia.
    + destruct (callable (Take.sourceTalkback s)); cbn;
        repeat split; auto; lia.
Qed.

Lemma take_forwarded_cons x (l : list (Move (I := Take.In) * option Take.Out)) :
  Take.forwarded (x :: l) = Take.forwarded [x] ++ Take.forwarded l.
Proof. unfold Take.forwarded. simpl. now rewrite app_nil_r. Qed.

Lemma take_run (max : Z) (ms : list Move) :
  forall c : Config,
    Take.taken (state c) <= max ->
    Forall (Take.harmless max) (stack c) ->
    Take.taken (state c)
    + Z.of_nat (List.length (Take.forwarded (snd (run (Take.handler max) c ms))))
    <= max.
Proof.
  induction ms as [|m ms IH]; intros c Ht Hst.
  - simpl. lia.
  - rewrite run_cons. cbn [snd].
    destruct (take_step max c m Ht Hst) as (Hst1 & Ht1 & E).
    specialize (IH _ Ht1 Hst1).
    rewrite take_forwarded_cons.
    rewrite length_app. lia.
Qed.

(** The part of the description of [take] that holds in every run, also
    against code that re-enters: [take(max)] never sends more than [max]
    DATA downstream, and a call of its talkback once [max] items were taken
    does nothing. *)
Theorem take_forwards_at_most_max :
  forall (max : Z) (ms : list Move),
    0 <= max ->
    Z.of_nat (List.length
                (Take.forwarded
                   (snd (run (Take.handler max)
                           (fst (boot (Take.body 0) Take.init)) ms)))) <= max /\
    forall (s : Take.State) (t : Z) (d : Val) env,
      max <= Take.taken s ->
      calls (Take.handler max (Take.Tb t d)) s env = [].
Proof.
  intros max ms Hmax. split.
  - pose proof (take_run max ms (fst (boot (Take.body 0) Take.init))) as H.
    cbn [boot Take.body Take.init settle advance fst state stack] in H.
    cbn in H. cbn. apply H; [lia|].
    constructor; [now left | constructor].
  - intros s t d env H. unfold calls. cbn.
    apply Z.ltb_ge in H. rewrite H. reflexivity.
Qed.

(** * More properties *)

(** ** map *)

Lemma map_step (f : Val -> Val) (c : Config) (log : list _) (m : Move) :
  (crashed c = false /\ Forall (eq Ret) (stack c) /\
   outs log = flat_map (Map.owed f) (map fst log)) ->
  (crashed (fst (move (Map.handler f) c m)) = false /\
   Forall (eq Ret) (stack (fst (move (Map.handler f) c m))) /\
   outs (log ++ [(m, snd (move (Map.handler f) c m))]) =
     flat_map (Map.owed f) (map fst (log ++ [(m, snd (move (Map.handler f) c m))]))).
Proof.
  destruct c as [s st cr]. cbn [crashed stack]. intros (-> & Hst & Hlog).
  rewrite outs_app, map_app, flat_map_app, Hlog.
  unfold move. cbn [crashed state stack].
  destruct m as [[t d]|].
  - cbn. repeat split; auto.
  - destruct st as [|p st]; cbn.
    + repeat split; auto.
    + pose proof (Forall_inv Hst) as Hp. pose proof (Forall_inv_tail Hst) as Hst'.
      rewrite <- Hp. cbn. repeat split; auto.
Qed.

(** [map(f)], in every run and whatever the surrounding code does: the
    messages sent downstream are the messages received from the source, in
    the order received, with [f] applied to the payload of each DATA and to
    nothing else (START and END travel on untouched).  Two maps in a row
    send what one map with the composed function sends. *)
Theorem map_relays_every_message :
  forall (f g : Val -> Val) (ms : list Move),
    outs (snd (run (Map.handler f) (fst (boot (Map.body 0) tt)) ms)) =
      flat_map (Map.owed f) ms /\
    (forall t d,
       calls (Map.handler g (Map.Src t (Map.payload f t d))) tt [] =
       calls (Map.handler (fun x => g (f x)) (Map.Src t d)) tt []).
Proof.
  intros f g ms. split.
  - pose proof (run_invariant (Map.handler f) (fun _ => True)
                  (fun c log => crashed c = false /\ Forall (eq Ret) (stack c) /\
                                outs log = flat_map (Map.owed f) (map fst log))
                  (fun c log m _ H => map_step f c log m H)
                  (fst (boot (Map.body 0) tt))) as H.
    destruct (H (conj eq_refl (conj (Forall_cons _ eq_refl (Forall_nil _)) eq_refl)) ms)
      as (_ & _ & E).
    { apply Forall_forall. auto. }
    rewrite E. f_equal.
    clear. generalize (fst (boot (Map.body 0) tt)).
    induction ms as [|m ms IH]; intros c; [reflexivity|].
    rewrite run_cons. cbn [snd map fst]. f_equal. apply IH.
  - intros t d. unfold calls. cbn. unfold Map.payload.
    destruct (t =? 1); reflexivity.
Qed.

(** ** filter *)

Definition filter_invariant (condition : Val -> bool)
           (c : Config (S := Filter.State) (O := Filter.Out))
           (log : list Filter.Entry) : Prop :=
  crashed c = false ->
  Forall (eq Ret) (stack c) /\
  Filter.sink_data log = filter condition (Filter.src_data log) /\
  Filter.pulls log =
    List.length (filter (fun d => negb (condition d)) (Filter.src_data log)) /\
  (Forall (fun u => snd u = 1) (Filter.ups log) /\
   List.length (Filter.ups log) =
     List.length (filter (fun d => negb (condition d)) (Filter.src_data log))) /\
  Filter.sink_other log = Filter.src_other log.

Lemma filter_step (condition : Val -> bool) (c : Config) (log : list Filter.Entry)
      (m : Move) :
  filter_invariant condition c log ->
  filter_invariant condition (fst (move (Filter.handler condition) c m))
                   (log ++ [(m, snd (move (Filter.handler condition) c m))]).
Proof.
  intros Hinv Hnc1.
  pose proof (move_not_crashed _ _ _ Hnc1) as Hnc.
  destruct (Hinv Hnc) as (Hst & Hd & Hp & (Hall & Hlen) & Ho). clear Hinv.
  destruct c as [s st cr]. cbn [crashed stack state] in *. subst cr.
  unfold Filter.sink_data, Filter.src_data, Filter.pulls, Filter.ups,
    Filter.sink_other, Filter.src_other in *.
  rewrite ?flat_map_app, ?filter_app, ?length_app.
  rewrite ?filter_app, ?length_app.
  unfold move in *. cbn [crashed state stack] in *.
  assert (Hclose : forall (A B C D E F : Prop),
             A -> B -> C -> D -> E -> F -> A /\ B /\ C /\ (D /\ E) /\ F)
    by tauto.
  destruct m as [[t d]|].
  - cbn [Filter.handler] in *.
    destruct (t =? 0) eqn:E0; [|destruct (t =? 1) eqn:E1].
    + assert (E1 : (t =? 1) = false)
        by (apply Z.eqb_eq in E0; subst; reflexivity).
      cbn. rewrite E1. cbn. rewrite ?app_nil_r, ?Nat.add_0_r.
      apply Hclose; auto; f_equal; exact Ho.
    + destruct (condition d) eqn:Ec.
      * cbn. rewrite E1. cbn. rewrite Ec. cbn. rewrite ?app_nil_r, ?Nat.add_0_r.
        apply Hclose; auto; f_equal; exact Hd.
      * cbn in *. destruct (callable (Filter.talkback s)); cbn in *;
          [|discriminate Hnc1].
        rewrite E1. cbn. rewrite Ec. cbn. rewrite ?app_nil_r, ?Nat.add_0_r.
        apply Hclose; auto.
        all: first [ f_equal; assumption
                   | apply Forall_app; split; [exact Hall | repeat constructor] ].
    + cbn. rewrite E1. cbn. rewrite ?app_nil_r, ?Nat.add_0_r.
      apply Hclose; auto; f_equal; exact Ho.
  - destruct st as [|p st]; cbn; rewrite ?app_nil_r, ?Nat.add_0_r.
    + apply Hclose; auto.
    + pose proof (Forall_inv Hst) as Hp'. pose proof (Forall_inv_tail Hst) as Hst'.
      rewrite <- Hp'. cbn. rewrite ?app_nil_r, ?Nat.add_0_r.
      apply Hclose; auto.
Qed.

Lemma filter_ups_run (condition : Val -> bool) (ms : list Move) :
  forall c : Config,
    crashed c = false ->
    Forall (eq Ret) (stack c) ->
    crashed (fst (run (Filter.handler condition) c ms)) = false ->
    Filter.ups (snd (run (Filter.handler condition) c ms)) =
      Filter.expected_ups condition (Filter.talkback (state c)) ms.
Proof.
  induction ms as [|m ms IH]; intros c Hc Hst Hnc; [reflexivity|].
  rewrite run_cons in *. cbn [fst snd] in *.
  destruct (crashed (fst (move (Filter.handler condition) c m))) eqn:Ec1.
  { rewrite (run_crashed (Filter.handler condition) _ ms Ec1) in Hnc.
    discriminate Hnc. }
  specialize (IH (fst (move (Filter.handler condition) c m)) Ec1).
  unfold Filter.ups in *. cbn [flat_map snd].
  destruct c as [s st cr]. cbn [crashed stack state] in *. subst cr.
  unfold move in *. cbn [crashed state stack] in *.
  destruct m as [[t d]|]; cbn [Filter.expected_ups].
  - cbn [Filter.handler] in *.
    destruct (t =? 0) eqn:E0; [|destruct (t =? 1) eqn:E1].
    + cbn in *. apply IH; auto.
    + destruct (condition d) eqn:Ec.
      * cbn in *. apply IH; auto.
      * cbn in *. destruct (callable (Filter.talkback s)); cbn in *;
          [|discriminate Ec1].
        f_equal. apply IH; auto.
    + cbn in *. apply IH; auto.
  - destruct st as [|p st]; cbn in *.
    + apply IH; auto.
    + pose proof (Forall_inv Hst) as Hp'. pose proof (Forall_inv_tail Hst) as Hst'.
      subst p. cbn in *. apply IH; auto.
Qed.

(** [filter(condition)], in every run that throws no TypeError and whatever
    the surrounding code does: the DATA sent downstream are exactly the
    DATA of the source that satisfy [condition], in the order received;
    every DATA that does not is answered by one PULL upstream and nothing
    else is: the calls made upstream are, in order, one call with tag 1 for
    each such DATA, on the talkback that the source brought last; START,
    END and any other message are passed on as they are. *)
Theorem filter_keeps_the_satisfying_data :
  forall (condition : Val -> bool) (ms : list Move),
    let r := run (Filter.handler condition)
                 (fst (boot (Filter.body 0) Filter.init)) ms in
    crashed (fst r) = false ->
    Filter.sink_data (snd r) = filter condition (Filter.src_data (snd r)) /\
    Filter.ups (snd r) = Filter.expected_ups condition VUndef ms /\
    Forall (fun u => snd u = 1) (Filter.ups (snd r)) /\
    List.length (Filter.ups (snd r)) =
      List.length (filter (fun d => negb (condition d)) (Filter.src_data (snd r))) /\
    Filter.pulls (snd r) =
      List.length (filter (fun d => negb (condition d)) (Filter.src_data (snd r))) /\
    Filter.sink_other (snd r) = Filter.src_other (snd r).
Proof.
  intros condition ms r Hnc.
  pose proof (run_invariant (Filter.handler condition) (fun _ => True)
                (filter_invariant condition)
                (fun c log m _ H => filter_step condition c log m H)
                (fst (boot (Filter.body 0) Filter.init))) as H.
  assert (H0 : filter_invariant condition
                 (fst (boot (Filter.body 0) Filter.init)) []).
  { intros _. cbn. repeat split; auto. }
  destruct (H H0 ms) as (_ & Hd & Hp & Hu & Ho);
    [apply Forall_forall; auto | exact Hnc |].
  fold r in Hd, Hp, Hu, Ho.
  split; [exact Hd|]. split.
  { apply (filter_ups_run condition ms (fst (boot (Filter.body 0) Filter.init)));
      [reflexivity | repeat constructor | exact Hnc]. }
  destruct Hu as (Hall & Hlen).
  repeat split; assumption.
Qed.

Lemma filter_keeps_the_satisfying_data_witness :
  let r := run (Filter.handler is_even)
               (fst (boot (Filter.body 0) Filter.init)) filter_scenario in
  crashed (fst r) = false /\
  Filter.sink_data (snd r) = [VNum 2; VNum 4] /\
  Filter.ups (snd r) = [(VFn 7, 1); (VFn 7, 1)] /\
  Filter.pulls (snd r) = 2%nat.
Proof.
  pose proof (filter_keeps_the_satisfying_data is_even filter_scenario) as H.
  cbv zeta in *. split; [reflexivity|].
  destruct (H eq_refl) as (Hd & Hu & _ & _ & Hp & _). split; [|split].
  - rewrite Hd. reflexivity.
  - rewrite Hu. reflexivity.
  - rewrite Hp. reflexivity.
Defined.

(** ** skip *)

Definition skip_invariant (max : Z)
           (c : Config (S := Skip.State) (O := Skip.Out))
           (log : list (Move (I := Skip.In) * option Skip.Out)) : Prop :=
  crashed c = false ->
  Forall (eq Ret) (stack c) /\
  Skip.skipped (state c) =
    Z.of_nat (Nat.min (List.length (Skip.src_data log)) (Z.to_nat max)) /\
  Skip.sink_data log = skipn (Z.to_nat max) (Skip.src_data log) /\
  Skip.pulls log = Nat.min (List.length (Skip.src_data log)) (Z.to_nat max).

Lemma skip_ups_run (max : Z) (ms : list Move) :
  forall (c : Config) (seen : nat),
    crashed c = false ->
    Forall (eq Ret) (stack c) ->
    Skip.skipped (state c) = Z.of_nat (Nat.min seen (Z.to_nat max)) ->
    crashed (fst (run (Skip.handler max) c ms)) = false ->
    Skip.ups (snd (run (Skip.handler max) c ms)) =
      Skip.expected_ups max seen (Skip.talkback (state c)) ms.
Proof.
  induction ms as [|m ms IH]; intros c seen Hc Hst Hsk Hnc; [reflexivity|].
  rewrite run_cons in *. cbn [fst snd] in *.
  destruct (crashed (fst (move (Skip.handler max) c m))) eqn:Ec1.
  { rewrite (run_crashed (Skip.handler max) _ ms Ec1) in Hnc.
    discriminate Hnc. }
  pose proof (fun seen' => IH (fst (move (Skip.handler max) c m)) seen' Ec1) as IH'.
  clear IH.
  destruct c as [s st cr]. cbn [crashed stack state] in *. subst cr.
  unfold Skip.ups in *. cbn [flat_map snd].
  unfold move in *. cbn [crashed state stack] in *.
  destruct m as [[t d]|]; cbn [Skip.expected_ups].
  - cbn [Skip.handler] in *.
    destruct (t =? 0) eqn:E0; [|destruct (t =? 1) eqn:E1].
    + cbn in *. apply IH'; auto.
    + cbn in *.
      assert (Heq : (Skip.skipped s <? max) = (Z.of_nat seen <? max)).
      { destruct (Z.of_nat seen <? max) eqn:E.
        - apply Z.ltb_lt in E. apply Z.ltb_lt. lia.
        - apply Z.ltb_ge in E. apply Z.ltb_ge. lia. }
      rewrite <- Heq. destruct (Skip.skipped s <? max) eqn:Elt.
      * symmetry in Heq. apply Z.ltb_lt in Elt, Heq.
        cbn in *. destruct (callable (Skip.talkback s)); cbn in *;
          [|discriminate Ec1].
        f_equal. apply IH'; auto. lia.
      * symmetry in Heq. apply Z.ltb_ge in Elt, Heq.
        cbn in *. apply IH'; auto. lia.
    + cbn in *. apply IH'; auto.
  - destruct st as [|p st]; cbn in *.
    + apply IH'; auto.
    + pose proof (Forall_inv Hst) as Hp'. pose proof (Forall_inv_tail Hst) as Hst'.
      subst p. cbn in *. apply IH'; auto.
Qed.

Lemma skip_expected_ups_tags (max : Z) (ms : list Move) :
  forall (seen : nat) (tb : Val),
    Forall (fun u => snd u = 1) (Skip.expected_ups max seen tb ms).
Proof.
  induction ms as [|[[t d]|] ms IH]; intros seen tb; cbn [Skip.expected_ups];
    [constructor| |apply IH].
  destruct (t =? 0); [apply IH|]. destruct (t =? 1); [|apply IH].
  destruct (Z.of_nat seen <? max); [constructor; [reflexivity|]|]; apply IH.
Qed.

Lemma skip_pulls_ups (log : list (Move (I := Skip.In) * option Skip.Out)) :
  Forall (fun u => snd u = 1) (Skip.ups log) ->
  Skip.pulls log = List.length (Skip.ups log).
Proof.
  unfold Skip.pulls, Skip.ups.
  induction log as [|[m [[| t d | f t]|]] log IH]; cbn; intros H; auto.
  inversion H as [|u l Hu Hl]; subst. cbn in Hu. subst t. cbn. f_equal. now apply IH.
Qed.

Lemma skip_log_snoc (log : list (Move (I := Skip.In) * option Skip.Out))
      (m : Move) (o : option Skip.Out) :
  Skip.src_data (log ++ [(m, o)]) = Skip.src_data log ++ Skip.src_data [(m, o)] /\
  Skip.sink_data (log ++ [(m, o)]) = Skip.sink_data log ++ Skip.sink_data [(m, o)] /\
  Skip.pulls (log ++ [(m, o)]) = (Skip.pulls log + Skip.pulls [(m, o)])%nat.
Proof.
  unfold Skip.src_data, Skip.sink_data, Skip.pulls.
  rewrite !flat_map_app, filter_app, length_app. repeat split; reflexivity.
Qed.

Lemma skipn_snoc_short {A} (n : nat) (l : list A) (x : A) :
  (List.length l < n)%nat -> skipn n (l ++ [x]) = skipn n l.
Proof.
  intros H. rewrite !skipn_all2; [reflexivity | lia |].
  rewrite length_app. simpl. lia.
Qed.

Lemma skipn_snoc_long {A} (n : nat) (l : list A) (x : A) :
  (n <= List.length l)%nat -> skipn n (l ++ [x]) = skipn n l ++ [x].
Proof.
  intros H. rewrite skipn_app. replace (n - List.length l)%nat with 0%nat by lia.
  reflexivity.
Qed.

Lemma skip_step (max : Z) (c : Config)
      (log : list (Move (I := Skip.In) * option Skip.Out)) (m : Move) :
  skip_invariant max c log ->
  skip_invariant max (fst (move (Skip.handler max) c m))
                 (log ++ [(m, snd (move (Skip.handler max) c m))]).
Proof.
  intros Hinv Hnc1.
  pose proof (move_not_crashed _ _ _ Hnc1) as Hnc.
  destruct (Hinv Hnc) as (Hst & Hs & Hd & Hp). clear Hinv.
  destruct c as [s st cr]. cbn [crashed stack state] in *. subst cr.
  destruct (skip_log_snoc log m (snd (move (Skip.handler max)
              {| state := s; stack := st; crashed := false |} m)))
    as (-> & -> & ->).
  rewrite length_app, Hd, Hp.
  remember (Skip.src_data log) as SD eqn:ESD. clear ESD Hd Hp.
  unfold move in *. cbn [crashed state stack] in *.
  unfold Skip.src_data, Skip.sink_data, Skip.pulls.
  destruct m as [[t d]|].
  - cbn [Skip.handler] in *.
    destruct (t =? 0) eqn:E0; [|destruct (t =? 1) eqn:E1].
    + assert (E1 : (t =? 1) = false)
        by (apply Z.eqb_eq in E0; subst; reflexivity).
      cbn. rewrite E1. cbn. rewrite ?app_nil_r, ?Nat.add_0_r. auto.
    + cbn in *. destruct (Skip.skipped s <? max) eqn:Elt.
      * apply Z.ltb_lt in Elt.
        cbn in *. destruct (callable (Skip.talkback s)); cbn in *;
          [|discriminate Hnc1].
        rewrite E1. cbn. rewrite ?app_nil_r.
        split; [auto | split; [lia | split; [| lia]]].
        symmetry. apply skipn_snoc_short. lia.
      * apply Z.ltb_ge in Elt.
        cbn. rewrite E1. cbn. rewrite ?Nat.add_0_r.
        split; [auto | split; [lia | split; [| lia]]].
        symmetry. apply skipn_snoc_long. lia.
    + cbn. rewrite E1. cbn. rewrite ?app_nil_r, ?Nat.add_0_r. auto.
  - destruct st as [|p st]; cbn; rewrite ?app_nil_r, ?Nat.add_0_r.
    + auto.
    + pose proof (Forall_inv Hst) as Hp'. pose proof (Forall_inv_tail Hst) as Hst'.
      rewrite <- Hp'. cbn. rewrite ?app_nil_r, ?Nat.add_0_r. auto.
Qed.

(** [skip(max)], for every integer [max], in every run that throws no
    TypeError and whatever the surrounding code does: the DATA sent
    downstream are the DATA of the source without the first [max] of them,
    in the order received, and one PULL is sent upstream for each DATA that
    is dropped, none for the others: the calls made upstream are, in
    order, one call with tag 1 for each of the first [max] DATA, on the
    talkback that the source brought last. *)
Theorem skip_drops_the_first_max :
  forall (max : Z) (ms : list Move),
    let r := run (Skip.handler max) (fst (boot (Skip.body 0) Skip.init)) ms in
    crashed (fst r) = false ->
    Skip.sink_data (snd r) = skipn (Z.to_nat max) (Skip.src_data (snd r)) /\
    Skip.ups (snd r) = Skip.expected_ups max 0 VUndef ms /\
    Forall (fun u => snd u = 1) (Skip.ups (snd r)) /\
    List.length (Skip.ups (snd r)) =
      Nat.min (List.length (Skip.src_data (snd r))) (Z.to_nat max) /\
    Skip.pulls (snd r) =
      Nat.min (List.length (Skip.src_data (snd r))) (Z.to_nat max).
Proof.
  intros max ms r Hnc.
  pose proof (run_invariant (Skip.handler max) (fun _ => True)
                (skip_invariant max)
                (fun c log m _ H => skip_step max c log m H)
                (fst (boot (Skip.body 0) Skip.init))) as H.
  assert (H0 : skip_invariant max (fst (boot (Skip.body 0) Skip.init)) []).
  { intros _. cbn. rewrite skipn_nil. repeat split; auto. }
  destruct (H H0 ms) as (_ & _ & Hd & Hp); [apply Forall_forall; auto | exact Hnc |].
  fold r in Hd, Hp.
  assert (Hu : Skip.ups (snd r) = Skip.expected_ups max 0 VUndef ms).
  { apply (skip_ups_run max ms (fst (boot (Skip.body 0) Skip.init)) 0%nat);
      [reflexivity | repeat constructor | reflexivity | exact Hnc]. }
  assert (Ht : Forall (fun u => snd u = 1) (Skip.ups (snd r))).
  { rewrite Hu. apply skip_expected_ups_tags. }
  split; [exact Hd|]. split; [exact Hu|]. split; [exact Ht|].
  split; [|exact Hp].
  rewrite <- (skip_pulls_ups _ Ht). exact Hp.
Qed.

Lemma skip_drops_the_first_max_witness :
  let r := run (Skip.handler 3) (fst (boot (Skip.body 0) Skip.init))
               skip_scenario in
  crashed (fst r) = false /\
  Skip.sink_data (snd r) = [VNum 4] /\
  Skip.ups (snd r) = [(VFn 7, 1); (VFn 7, 1); (VFn 7, 1)] /\
  Skip.pulls (snd r) = 3%nat.
Proof.
  pose proof (skip_drops_the_first_max 3 skip_scenario) as H.
  cbv zeta in *. split; [reflexivity|].
  destruct (H eq_refl) as (Hd & Hu & _ & _ & Hp). split; [|split].
  - rewrite Hd. reflexivity.
  - rewrite Hu. reflexivity.
  - rewrite Hp. reflexivity.
Defined.

(** ** merge *)

Lemma merge_advance_loop (p : Prog Merge.State Merge.Out) (s : Merge.State) :
  MergeLog.in_a_loop p ->
  match advance p s with
  | Finished s' => s' = s
  | Crashed _ => True
  | Pending s' o k =>
      s' = s /\ MergeLog.in_a_loop k /\ MergeLog.not_to_sink o = true
  end.
Proof.
  intros [-> | [(idx & t & ->) | (idx & ->)]].
  - reflexivity.
  - induction idx as [|i rest IH]; cbn; [reflexivity|].
    destruct (truthy _); [|exact IH].
    destruct (callable _); cbn; [|exact I].
    repeat split. right. left. now exists rest, t.
  - destruct idx as [|i rest]; cbn; [reflexivity|].
    repeat split. right. right. now exists rest.
Qed.

Definition merge_invariant (n : nat)
           (c : Config (S := Merge.State) (O := Merge.Out))
           (log : list (Move (I := Merge.In) * option Merge.Out)) : Prop :=
  crashed c = false ->
  Forall MergeLog.in_a_loop (stack c) /\
  Merge.startCount (state c) = Z.of_nat (MergeLog.received 0 log) /\
  Merge.endCount (state c) = Z.of_nat (MergeLog.received 2 log) /\
  MergeLog.sink_passed log = MergeLog.src_passed log /\
  MergeLog.sink_starts log = Nat.min 1 (MergeLog.received 0 log) /\
  MergeLog.sink_ends log =
    if Nat.leb 1 n && Nat.leb n (MergeLog.received 2 log) then 1%nat else 0%nat.

Lemma merge_log_snoc (log : list (Move (I := Merge.In) * option Merge.Out))
      (m : Move) (o : option Merge.Out) :
  (forall tag, MergeLog.received tag (log ++ [(m, o)]) =
     (MergeLog.received tag log + MergeLog.received tag [(m, o)])%nat) /\
  MergeLog.src_passed (log ++ [(m, o)]) =
    MergeLog.src_passed log ++ MergeLog.src_passed [(m, o)] /\
  MergeLog.sink_passed (log ++ [(m, o)]) =
    MergeLog.sink_passed log ++ MergeLog.sink_passed [(m, o)] /\
  MergeLog.sink_starts (log ++ [(m, o)]) =
    (MergeLog.sink_starts log + MergeLog.sink_starts [(m, o)])%nat /\
  MergeLog.sink_ends (log ++ [(m, o)]) =
    (MergeLog.sink_ends log + MergeLog.sink_ends [(m, o)])%nat.
Proof.
  unfold MergeLog.received, MergeLog.src_passed, MergeLog.sink_passed,
    MergeLog.sink_starts, MergeLog.sink_ends.
  rewrite !flat_map_app, !filter_app, !length_app.
  repeat split; try reflexivity.
  intros tag. now rewrite filter_app, length_app.
Qed.

(** A move that resumes or starts one of the loops changes no counter and
    sends nothing to the sink. *)
Lemma merge_loop_move (n : nat) (s : Merge.State) (p : Prog Merge.State Merge.Out)
      (rest : list (Prog Merge.State Merge.Out))
      (log : list (Move (I := Merge.In) * option Merge.Out)) (m : Move) :
  match m with Enter (Merge.Src _ _ _) => False | _ => True end ->
  MergeLog.in_a_loop p ->
  merge_invariant n (mkConfig s (p :: rest) false) log ->
  merge_invariant n (fst (settle (advance p s) rest))
                  (log ++ [(m, snd (settle (advance p s) rest))]).
Proof.
  intros Hm Hp Hinv Hnc1.
  destruct (Hinv eq_refl) as (Hst & Hsc & Hec & Hpass & Hstart & Hend).
  cbn [stack state] in *.
  pose proof (Forall_inv_tail Hst) as Hrest.
  destruct (merge_log_snoc log m (snd (settle (advance p s) rest)))
    as (Hrec & -> & -> & -> & ->).
  rewrite !Hrec, Hpass, Hstart, Hend.
  pose proof (merge_advance_loop p s Hp) as Hadv.
  assert (Hsrc : forall tag o, MergeLog.received tag [(m, o)] = 0%nat /\
                               MergeLog.src_passed [(m, o)] = []).
  { intros tag o. destruct m as [[i t d|t]|]; [destruct Hm | |]; now cbn. }
  destruct (advance p s) as [s' | s' | s' o k]; cbn in *.
  - subst s'. destruct (Hsrc 0 (@None Merge.Out)) as [-> ->].
    destruct (Hsrc 2 (@None Merge.Out)) as [-> _].
    rewrite ?app_nil_r, ?Nat.add_0_r. auto 10.
  - discriminate Hnc1.
  - destruct Hadv as (-> & Hk & Ho).
    destruct (Hsrc 0 (Some o)) as [-> ->].
    destruct (Hsrc 2 (Some o)) as [-> _].
    destruct o; try discriminate Ho; cbn;
      rewrite ?app_nil_r, ?Nat.add_0_r; auto 10.
Qed.

Opaque Nat.min Nat.leb.

Lemma merge_step (n : nat) (c : Config)
      (log : list (Move (I := Merge.In) * option Merge.Out)) (m : Move) :
  merge_invariant n c log ->
  merge_invariant n (fst (move (Merge.handler n) c m))
                  (log ++ [(m, snd (move (Merge.handler n) c m))]).
Proof.
  intros Hinv.
  destruct c as [s st cr]. destruct cr.
  { intros Hnc1. unfold move in Hnc1. cbn in Hnc1. discriminate Hnc1. }
  unfold move. cbn [crashed state stack].
  destruct m as [[i t d|t]|].
  - (* a message of a source *)
    intros Hnc1.
    destruct (Hinv eq_refl) as (Hst & Hsc & Hec & Hpass & Hstart & Hend).
    cbn [stack state] in *.
    destruct (merge_log_snoc log (Enter (Merge.Src i t d))
                (snd (settle (advance (Merge.handler n (Merge.Src i t d)) s) st)))
      as (Hrec & -> & -> & -> & ->).
    rewrite !Hrec, Hpass, Hstart, Hend. clear Hrec Hpass Hstart.
    cbn [Merge.handler] in *. unfold Merge.from_source in *.
    destruct (t =? 0) eqn:E0; [|destruct (t =? 2) eqn:E2].
    + apply Z.eqb_eq in E0. subst t. cbn.
      destruct (Merge.startCount s + 1 =? 1) eqn:E1; cbn;
        [apply Z.eqb_eq in E1 | apply Z.eqb_neq in E1];
        rewrite ?app_nil_r, ?Nat.add_0_r;
        (split; [first [exact Hst | constructor; [now left | exact Hst]] |
          split; [lia | split; [lia | split; [reflexivity | split; [lia | reflexivity]]]]]).
    + apply Z.eqb_eq in E2. subst t. cbn.
      destruct (Merge.endCount s + 1 =? Z.of_nat n) eqn:E1; cbn;
        [apply Z.eqb_eq in E1 | apply Z.eqb_neq in E1];
        rewrite ?app_nil_r, ?Nat.add_0_r;
        (split; [first [exact Hst | constructor; [now left | exact Hst]] |
          split; [lia | split; [lia | split; [reflexivity | split; [reflexivity |]]]]]).
      * destruct (Nat.leb_spec 1 n); destruct (Nat.leb_spec n (MergeLog.received 2 log));
          destruct (Nat.leb_spec n (MergeLog.received 2 log + 1)); cbn; lia.
      * destruct (Nat.leb_spec 1 n); destruct (Nat.leb_spec n (MergeLog.received 2 log));
          destruct (Nat.leb_spec n (MergeLog.received 2 log + 1)); cbn; lia.
    + cbn. rewrite ?E0, ?E2. cbn. rewrite ?E0, ?E2. cbn.
      rewrite ?app_nil_r, ?Nat.add_0_r.
      split; [constructor; [now left | exact Hst] |
        split; [lia | split; [lia | split; [reflexivity | split; [reflexivity | reflexivity]]]]].
  - (* the talkback *)
    apply (merge_loop_move n s (Merge.handler n (Merge.Tb t)) st log
             (Enter (Merge.Tb t)) I).
    + cbn. unfold Merge.talkback. destruct (t =? 0); [now left|].
      right. left. now exists (List.seq 0 n), t.
    + intros _. destruct (Hinv eq_refl) as (Hst & Hrest).
      split; [|exact Hrest]. constructor; [|exact Hst].
      cbn. unfold Merge.talkback. destruct (t =? 0); [now left|].
      right. left. now exists (List.seq 0 n), t.
  - (* a return *)
    destruct st as [|p rest].
    + intros _. destruct (Hinv eq_refl) as (Hst & Hsc & Hec & Hpass & Hstart & Hend).
      cbn [fst snd state stack] in *.
      destruct (merge_log_snoc log Return (@None Merge.Out))
        as (Hrec & -> & -> & -> & ->).
      rewrite !Hrec, Hpass, Hstart, Hend. cbn.
      rewrite ?app_nil_r, ?Nat.add_0_r. auto 10.
    + apply (merge_loop_move n s p rest log Return I); [|exact Hinv].
      destruct (Hinv eq_refl) as (Hst & _). exact (Forall_inv Hst).
Qed.

Transparent Nat.min Nat.leb.

(** [merge(...sources)] with any number [n] of sources, in every run that
    throws no TypeError and whatever the surrounding code does: every
    message of a source that is neither START nor END is passed to the sink
    as it is, in the order received; the sink is greeted once, when the
    first START of a source arrives; and it receives one END, when the
    [n]-th END of the sources arrives, whichever sources sent them. *)
Theorem merge_passes_data_and_counts_the_ends :
  forall (n : nat) (ms : list Move),
    let r := run (Merge.handler n)
                 (fst (boot (Merge.body n 0) (Merge.init n))) ms in
    crashed (fst r) = false ->
    MergeLog.sink_passed (snd r) = MergeLog.src_passed (snd r) /\
    MergeLog.sink_starts (snd r) = Nat.min 1 (MergeLog.received 0 (snd r)) /\
    MergeLog.sink_ends (snd r) =
      if Nat.leb 1 n && Nat.leb n (MergeLog.received 2 (snd r))
      then 1%nat else 0%nat.
Proof.
  intros n ms r Hnc.
  pose proof (run_invariant (Merge.handler n) (fun _ => True)
                (merge_invariant n)
                (fun c log m _ H => merge_step n c log m H)
                (fst (boot (Merge.body n 0) (Merge.init n)))) as H.
  assert (H0 : merge_invariant n (fst (boot (Merge.body n 0) (Merge.init n))) []).
  { intros Hc. unfold boot in *. cbn [Merge.body Z.eqb negb] in *.
    pose proof (merge_advance_loop (Merge.invoke_from (List.seq 0 n)) (Merge.init n)
                  (or_intror (or_intror (ex_intro _ _ eq_refl)))) as Hadv.
    destruct (advance _ _) as [s' | s' | s' o k]; cbn in *.
    - subst s'. cbn. repeat split; auto; destruct n; reflexivity.
    - discriminate Hc.
    - destruct Hadv as (-> & Hk & _). cbn.
      split; [constructor; [exact Hk | constructor] |].
      repeat split; auto; destruct n; reflexivity. }
  destruct (H H0 ms) as (_ & _ & _ & Hp & Hs & He);
    [apply Forall_forall; auto | exact Hnc |].
  auto.
Qed.

Lemma merge_passes_data_and_counts_the_ends_witness :
  let r := run (Merge.handler 2)
               (fst (boot (Merge.body 2 0) (Merge.init 2))) MergeLog.scenario in
  crashed (fst r) = false /\
  MergeLog.sink_passed (snd r) = [(1, VNum 10); (1, VNum 20); (1, VNum 30)] /\
  MergeLog.sink_starts (snd r) = 1%nat /\
  MergeLog.sink_ends (snd r) = 1%nat.
Proof.
  pose proof (merge_passes_data_and_counts_the_ends 2 MergeLog.scenario) as H.
  cbv zeta in *. split; [reflexivity|].
  destruct (H eq_refl) as (Hp & Hs & He). split; [|split].
  - rewrite Hp. reflexivity.
  - rewrite Hs. reflexivity.
  - rewrite He. reflexivity.
Defined.

(** ** Silent activations *)

Section QuietFacts.
Context {S O : Type}.
Variable silent : O -> bool.
Variable puts : bool.

Lemma advance_quiet (p : Prog S O) (s : S) :
  Quiet silent puts p ->
  match advance p s with
  | Finished s' => puts = false -> s' = s
  | Crashed _ => True
  | Pending s' o k =>
      (puts = false -> s' = s) /\ silent o = true /\ Quiet silent puts k
  end.
Proof.
  intros H. revert s.
  induction H as [| | k Hk IH | s1 k Hp Hk IH | o k Ho Hk IH]; intros s; cbn.
  - auto.
  - exact I.
  - exact (IH s s).
  - specialize (IH s1). destruct (advance k s1).
    + intros E. congruence.
    + exact I.
    + destruct IH as (IH1 & IH2). split; [intros E; congruence | exact IH2].
  - auto.
Qed.

(** Resuming or starting a silent activation: the stack stays silent, the
    call made, if any, is a silent one, and the variables stay unless
    [puts] allows assignments. *)
Lemma settle_quiet (p : Prog S O) (s : S) (rest : list (Prog S O)) :
  Quiet silent puts p -> Forall (Quiet silent puts) rest ->
  let r := settle (advance p s) rest in
  crashed (fst r) = false ->
  (puts = false -> state (fst r) = s) /\
  Forall (Quiet silent puts) (stack (fst r)) /\
  match snd r with Some o => silent o = true | None => True end.
Proof.
  intros Hp Hrest r. subst r.
  pose proof (advance_quiet p s Hp) as H.
  destruct (advance p s) as [s' | s' | s' o k]; cbn; intros Hc.
  - auto.
  - discriminate Hc.
  - destruct H as (Hs & Ho & Hk). auto.
Qed.

End QuietFacts.

Ltac quiet :=
  repeat (cbn;
          first [ constructor
                | intro
                | match goal with
                  | |- context [if ?b then _ else _] => destruct b
                  end ]).

(** ** sample *)

Lemma sample_silent_log (m : Move (I := Sample.In)) (o : option Sample.Out) :
  match o with Some o => SampleLog.silent o = true | None => True end ->
  SampleLog.sink_data [(m, o)] = [] /\ SampleLog.pulls [(m, o)] = 0%nat.
Proof.
  destruct o as [[| | |t d|f t|f t]|]; cbn; intros H; auto;
    apply negb_true_iff in H; rewrite H; auto.
Qed.

Lemma sample_move (c : Config) (m : Move (I := Sample.In)) :
  crashed c = false ->
  Forall (Quiet SampleLog.silent true) (stack c) ->
  crashed (fst (move Sample.handler c m)) = false ->
  Forall (Quiet SampleLog.silent true) (stack (fst (move Sample.handler c m))) /\
  SampleLog.sink_data [(m, snd (move Sample.handler c m))] =
    SampleLog.pullable_data [m] /\
  SampleLog.pulls [(m, snd (move Sample.handler c m))] =
    List.length (SampleLog.listenable_data [m]).
Proof.
  destruct c as [s st cr]. cbn [crashed stack]. intros -> Hst.
  unfold move. cbn [crashed state stack].
  assert (Hquiet : forall p rest m',
             SampleLog.pullable_data [m'] = [] ->
             SampleLog.listenable_data [m'] = [] ->
             Quiet SampleLog.silent true p -> Forall (Quiet SampleLog.silent true) rest ->
             crashed (fst (settle (advance p s) rest)) = false ->
             Forall (Quiet SampleLog.silent true) (stack (fst (settle (advance p s) rest))) /\
             SampleLog.sink_data [(m', snd (settle (advance p s) rest))] =
               SampleLog.pullable_data [m'] /\
             SampleLog.pulls [(m', snd (settle (advance p s) rest))] =
               List.length (SampleLog.listenable_data [m'])).
  { intros p rest m' -> -> Hp Hrest Hc.
    destruct (settle_quiet SampleLog.silent true p s rest Hp Hrest Hc) as (_ & Hst' & Ho).
    destruct (sample_silent_log m' _ Ho) as [-> ->]. auto. }
  destruct m as [[lt ld|pt pd|t]|].
  - cbn [Sample.handler]. unfold Sample.from_listenable.
    destruct (lt =? 1) eqn:E1.
    + apply Z.eqb_eq in E1. subst lt. cbn.
      destruct (callable (Sample.ptalkback s)); cbn; [|discriminate].
      intros _. split; [constructor; [constructor | exact Hst] | auto].
    + apply Hquiet; try exact Hst; try reflexivity; try (cbn; now rewrite E1).
      destruct (lt =? 0), (lt =? 2); quiet.
  - cbn [Sample.handler]. unfold Sample.from_pullable.
    destruct (pt =? 1) eqn:E1.
    + apply Z.eqb_eq in E1. subst pt. cbn.
      intros _. split; [constructor; [constructor | exact Hst] | auto].
    + apply Hquiet; try exact Hst; try reflexivity; try (cbn; now rewrite E1).
      destruct (pt =? 0), (pt =? 2); quiet.
  - apply Hquiet; try exact Hst; try reflexivity.
    cbn. unfold Sample.talkback. quiet.
  - destruct st as [|p rest].
    + intros _. cbn. auto.
    + apply Hquiet; try reflexivity;
        [exact (Forall_inv Hst) | exact (Forall_inv_tail Hst)].
Qed.

Lemma flat_map_one {A B} (f : A -> list B) (x : A) (l : list A) :
  flat_map f (x :: l) = flat_map f [x] ++ flat_map f l.
Proof. simpl. now rewrite app_nil_r. Qed.

Lemma count_one {A} (f : A -> bool) (x : A) (l : list A) :
  List.length (filter f (x :: l)) =
  (List.length (filter f [x]) + List.length (filter f l))%nat.
Proof. simpl. destruct (f x); reflexivity. Qed.

Lemma sample_run (ms : list (Move (I := Sample.In))) :
  forall c : Config,
    Forall (Quiet SampleLog.silent true) (stack c) ->
    crashed (fst (run Sample.handler c ms)) = false ->
    SampleLog.sink_data (snd (run Sample.handler c ms)) =
      SampleLog.pullable_data ms /\
    SampleLog.pulls (snd (run Sample.handler c ms)) =
      List.length (SampleLog.listenable_data ms).
Proof.
  induction ms as [|m ms IH]; intros c Hst Hfin; [cbn; auto|].
  rewrite run_cons in *. cbn [fst snd] in *.
  destruct (crashed (fst (move Sample.handler c m))) eqn:Ec1.
  { rewrite (run_crashed Sample.handler _ ms Ec1) in Hfin. discriminate Hfin. }
  pose proof (move_not_crashed _ _ _ Ec1) as Ec.
  destruct (sample_move c m Ec Hst Ec1) as (Hst1 & Hd & Hp).
  destruct (IH _ Hst1 Hfin) as (IHd & IHp).
  unfold SampleLog.pullable_data, SampleLog.listenable_data,
    SampleLog.sink_data, SampleLog.pulls in *.
  rewrite (flat_map_one _ m ms), (flat_map_one _ (m, _)), (count_one _ (m, _)).
  rewrite (flat_map_one _ m ms), length_app.
  rewrite Hd, Hp, IHd, IHp. auto.
Qed.

(** [sample(pullable)(listenable)], in every run that throws no TypeError
    and whatever the surrounding code does: the DATA sent downstream are
    exactly the DATA of the pullable side, in the order received, so that
    no payload of the listenable side ever reaches the sink; and one PULL
    is sent to the pullable side for each DATA of the listenable side, none
    for anything else, a PULL from downstream included. *)
Theorem sample_pulls_on_each_listenable_data :
  forall ms : list Move,
    let r := run Sample.handler (fst (boot (Sample.body 0) Sample.init)) ms in
    crashed (fst r) = false ->
    SampleLog.sink_data (snd r) = SampleLog.pullable_data ms /\
    SampleLog.pulls (snd r) = List.length (SampleLog.listenable_data ms).
Proof.
  intros ms r Hc. apply sample_run; [|exact Hc].
  cbn. constructor; constructor.
Qed.

Lemma sample_pulls_on_each_listenable_data_witness :
  let r := run Sample.handler (fst (boot (Sample.body 0) Sample.init))
               (SampleLog.scenario (VStr "a") (VStr "b")) in
  crashed (fst r) = false /\
  SampleLog.sink_data (snd r) = [VNum 1; VNum 2] /\
  SampleLog.pulls (snd r) = 2%nat.
Proof.
  pose proof (sample_pulls_on_each_listenable_data
                (SampleLog.scenario (VStr "a") (VStr "b"))) as H.
  cbv zeta in *. split; [reflexivity|].
  destruct (H eq_refl) as (Hd & Hp). split.
  - rewrite Hd. reflexivity.
  - rewrite Hp. reflexivity.
Defined.

(** ** sampleWhen *)

Lemma sampleWhen_silent_log (m : Move (I := SampleWhen.In))
      (o : option SampleWhen.Out) :
  match o with Some o => SampleWhen.silent o = true | None => True end ->
  SampleWhen.sink_data [(m, o)] = [].
Proof.
  destruct o as [[| | |t d|f t|f t]|]; cbn; intros H; auto.
  apply negb_true_iff in H. now rewrite H.
Qed.

Lemma sampleWhen_move (c : Config) (m : Move (I := SampleWhen.In))
      (rest : list Move) :
  crashed c = false ->
  Forall (Quiet SampleWhen.silent false) (stack c) ->
  crashed (fst (move SampleWhen.handler c m)) = false ->
  Forall (Quiet SampleWhen.silent false)
         (stack (fst (move SampleWhen.handler c m))) /\
  SampleWhen.sink_data [(m, snd (move SampleWhen.handler c m))] ++
  SampleWhen.sampled
    (SampleWhen.held (state (fst (move SampleWhen.handler c m)))) rest =
  SampleWhen.sampled (SampleWhen.held (state c)) (m :: rest).
Proof.
  destruct c as [s st cr]. cbn [crashed stack state]. intros -> Hst.
  unfold move. cbn [crashed state stack].
  assert (Hquiet : forall p st' m',
             SampleWhen.sampled (SampleWhen.held s) (m' :: rest) =
               SampleWhen.sampled (SampleWhen.held s) rest ->
             Quiet SampleWhen.silent false p ->
             Forall (Quiet SampleWhen.silent false) st' ->
             crashed (fst (settle (advance p s) st')) = false ->
             Forall (Quiet SampleWhen.silent false)
                    (stack (fst (settle (advance p s) st'))) /\
             SampleWhen.sink_data [(m', snd (settle (advance p s) st'))] ++
             SampleWhen.sampled
               (SampleWhen.held (state (fst (settle (advance p s) st')))) rest =
             SampleWhen.sampled (SampleWhen.held s) (m' :: rest)).
  { intros p st' m' -> Hp Hst' Hc.
    destruct (settle_quiet SampleWhen.silent false p s st' Hp Hst' Hc)
      as (Hs & Hst'' & Ho).
    rewrite (sampleWhen_silent_log m' _ Ho), (Hs eq_refl). auto. }
  destruct m as [[t d|t d|t]|].
  - cbn [SampleWhen.handler]. unfold SampleWhen.from_listenable.
    destruct (t =? 0) eqn:E0; [|destruct (t =? 1) eqn:E1].
    + apply Z.eqb_eq in E0. subst t. cbn. intros _.
      split; [constructor; [quiet | exact Hst] | reflexivity].
    + cbn. rewrite E1. intros _. split; [exact Hst | reflexivity].
    + apply Hquiet; [cbn; now rewrite E1 | | exact Hst].
      destruct (t =? 2); quiet.
  - cbn [SampleWhen.handler]. unfold SampleWhen.from_sampler.
    destruct (t =? 0) eqn:E0; [|destruct (t =? 1) eqn:E1].
    + apply Z.eqb_eq in E0. subst t. cbn. intros _.
      split; [exact Hst | reflexivity].
    + apply Z.eqb_eq in E1. subst t. cbn. unfold SampleWhen.held.
      destruct (SampleWhen.inited s) eqn:Ei; cbn; unfold SampleWhen.held;
        rewrite ?Ei; intros _.
      * split; [constructor; [quiet | exact Hst] | reflexivity].
      * split; [exact Hst | reflexivity].
    + apply Hquiet; [cbn; now rewrite E1 | | exact Hst]. quiet.
  - apply Hquiet; [reflexivity | | exact Hst].
    cbn. unfold SampleWhen.talkback. destruct (negb (t =? 2)); quiet.
  - destruct st as [|p st'].
    + intros _. cbn. auto.
    + apply Hquiet; [reflexivity | exact (Forall_inv Hst)
                     | exact (Forall_inv_tail Hst)].
Qed.

Lemma sampleWhen_run (ms : list (Move (I := SampleWhen.In))) :
  forall c : Config,
    Forall (Quiet SampleWhen.silent false) (stack c) ->
    crashed (fst (run SampleWhen.handler c ms)) = false ->
    SampleWhen.sink_data (snd (run SampleWhen.handler c ms)) =
      SampleWhen.sampled (SampleWhen.held (state c)) ms.
Proof.
  induction ms as [|m ms IH]; intros c Hst Hfin; [reflexivity|].
  rewrite run_cons in *. cbn [fst snd] in *.
  destruct (crashed (fst (move SampleWhen.handler c m))) eqn:Ec1.
  { rewrite (run_crashed SampleWhen.handler _ ms Ec1) in Hfin. discriminate Hfin. }
  pose proof (move_not_crashed _ _ _ Ec1) as Ec.
  destruct (sampleWhen_move c m ms Ec Hst Ec1) as (Hst1 & Hd).
  rewrite <- Hd, <- (IH _ Hst1 Hfin).
  unfold SampleWhen.sink_data. now rewrite (flat_map_one _ (m, _)).
Qed.

(** [sampleWhen(sampler)(listenable)], in every run that throws no
    TypeError and whatever the surrounding code does: a DATA of the sampler
    that comes after at least one DATA of the listenable sends the latest
    DATA of the listenable downstream, a DATA of the sampler that comes
    before any sends nothing, and no other DATA is ever sent downstream. *)
Theorem sampleWhen_sends_the_latest_value :
  forall ms : list Move,
    let r := run SampleWhen.handler
                 (fst (boot (SampleWhen.body 0) SampleWhen.init)) ms in
    crashed (fst r) = false ->
    SampleWhen.sink_data (snd r) = SampleWhen.sampled None ms.
Proof.
  intros ms r Hc.
  apply (sampleWhen_run ms (fst (boot (SampleWhen.body 0) SampleWhen.init)));
    [|exact Hc].
  cbn. constructor; constructor.
Qed.

Lemma sampleWhen_sends_the_latest_value_witness :
  let r := run SampleWhen.handler
               (fst (boot (SampleWhen.body 0) SampleWhen.init))
               SampleWhen.scenario in
  crashed (fst r) = false /\
  SampleWhen.sink_data (snd r) = [VNum 2; VNum 2; VNum 3].
Proof.
  pose proof (sampleWhen_sends_the_latest_value SampleWhen.scenario) as H.
  cbv zeta in *. split; [reflexivity|].
  rewrite (H eq_refl). reflexivity.
Defined.

(** ** fromIter against any sink *)

Definition fromIter_invariant (iter : list Val)
           (c : Config (S := FromIter.State) (O := FromIter.Out))
           (log : list (Move (I := FromIter.In) * option FromIter.Out)) : Prop :=
  crashed c = false /\
  FromIterLog.stack_ok (state c) (stack c) /\
  FromIterLog.sink_data log ++ FromIter.iterator (state c) = iter /\
  (List.length (FromIterLog.sink_data log) +
     FromIterLog.b2n (FromIter.got1 (state c)) <=
   FromIterLog.pulls (map fst log))%nat /\
  FromIterLog.sink_ends log =
    FromIterLog.b2n (FromIter.res_done (FromIter.res (state c))) /\
  (FromIter.res_done (FromIter.res (state c)) = true ->
   FromIter.iterator (state c) = []).

Lemma fromIter_log_snoc
      (log : list (Move (I := FromIter.In) * option FromIter.Out))
      (m : Move) (o : option FromIter.Out) :
  FromIterLog.sink_data (log ++ [(m, o)]) =
    FromIterLog.sink_data log ++ FromIterLog.sink_data [(m, o)] /\
  FromIterLog.sink_ends (log ++ [(m, o)]) =
    (FromIterLog.sink_ends log + FromIterLog.sink_ends [(m, o)])%nat /\
  FromIterLog.pulls (map fst (log ++ [(m, o)])) =
    (FromIterLog.pulls (map fst log) + FromIterLog.pulls [m])%nat.
Proof.
  unfold FromIterLog.sink_data, FromIterLog.sink_ends, FromIterLog.pulls.
  rewrite map_app, !flat_map_app, !filter_app, !length_app. auto.
Qed.

Ltac fromIter_done :=
  unfold FromIterLog.stack_ok; cbn;
  rewrite ?app_nil_r, ?Nat.add_0_r, ?length_app, <- ?app_assoc; cbn;
  repeat match goal with
         | |- _ /\ _ => split
         | |- exists p rest, _ => first [assumption | eexists; eexists]
         end;
  unfold FromIterLog.b2n in *;
  try solve [ auto | reflexivity | discriminate | lia
            | right; split; reflexivity
            | left; split; reflexivity
            | match goal with
              | H : _ ++ [] = _ |- _ => rewrite app_nil_r in H; exact H
              end
            | match goal with
              | |- context [if ?b then _ else _] => destruct b
              end; cbn in *; lia ].

Lemma fromIter_step (iter : list Val) (c : Config)
      (log : list (Move (I := FromIter.In) * option FromIter.Out)) (m : Move) :
  FromIterLog.from_sink m = true ->
  fromIter_invariant iter c log ->
  fromIter_invariant iter (fst (move (FromIter.handler iter) c m))
                     (log ++ [(m, snd (move (FromIter.handler iter) c m))]).
Proof.
  intros Hm (Hc & Hst & Hd & Hp & He & Hr).
  destruct c as [s st cr]. cbn [crashed state stack] in *. subst cr.
  unfold fromIter_invariant.
  destruct (fromIter_log_snoc log m
              (snd (move (FromIter.handler iter)
                         {| state := s; stack := st; crashed := false |} m)))
    as (-> & -> & ->).
  unfold move. cbn [crashed state stack].
  destruct s as [it il g cp r]. unfold FromIterLog.stack_ok in Hst.
  cbn [FromIter.iterator FromIter.inloop FromIter.got1 FromIter.completed
       FromIter.res] in *.
  destruct m as [[start|t]|]; [discriminate Hm | |].
  - (* the talkback *)
    cbn [FromIter.handler]. unfold FromIter.talkback. cbn [advance].
    destruct cp.
    { destruct g; fromIter_done. }
    destruct (t =? 1) eqn:E1; [|destruct (t =? 2) eqn:E2].
    + destruct il.
      { destruct Hst as (p & rest & -> & Hrest & Hp'). cbn. rewrite E1.
        destruct g; cbn in *; fromIter_done; exact Hp'. }
      destruct r as [| |v0]; cbn in He, Hr.
      * destruct it as [|v rest]; cbn; rewrite E1; destruct g; cbn in *;
          rewrite ?He; fromIter_done.
      * cbn. rewrite E1. destruct g; cbn in *; fromIter_done.
      * destruct it as [|v rest]; cbn; rewrite E1; destruct g; cbn in *;
          rewrite ?He; fromIter_done.
    + cbn. rewrite E1. destruct il, g; cbn in *; fromIter_done.
    + cbn. rewrite E1. destruct il, g; cbn in *; fromIter_done.
  - (* a return *)
    destruct il.
    + destruct Hst as (p & rest & -> & Hrest & [[-> Hres] | [-> Hres]]).
      * destruct it as [|v rest']; destruct r as [| |v0], g, cp; cbn in *;
          try discriminate Hres;
          rewrite ?He; fromIter_done.
      * subst r. cbn in *. destruct g; cbn in *; fromIter_done.
    + destruct st as [|p rest]; cbn.
      * destruct g; cbn in *; fromIter_done.
      * rewrite <- (Forall_inv Hst). cbn. destruct g; cbn in *; fromIter_done;
          exact (Forall_inv_tail Hst).
Qed.

Lemma fromIter_boot (iter : list Val) :
  fromIter_invariant iter
    (fst (boot (FromIter.handler iter (FromIter.Invoke 0)) (FromIter.init iter))) [].
Proof.
  unfold fromIter_invariant, FromIterLog.stack_ok. cbn.
  repeat split; auto. discriminate.
Qed.

Lemma fromIter_run (iter : list Val) (ms : list Move) :
  forallb FromIterLog.from_sink ms = true ->
  fromIter_invariant iter
    (fst (run (FromIter.handler iter)
              (fst (boot (FromIter.handler iter (FromIter.Invoke 0))
                         (FromIter.init iter))) ms))
    (snd (run (FromIter.handler iter)
              (fst (boot (FromIter.handler iter (FromIter.Invoke 0))
                         (FromIter.init iter))) ms)).
Proof.
  intros Hms.
  apply (run_invariant (FromIter.handler iter)
           (fun m => FromIterLog.from_sink m = true)
           (fromIter_invariant iter)).
  - intros c log m Hm H. now apply fromIter_step.
  - apply fromIter_boot.
  - apply Forall_forall. intros m Hin.
    rewrite forallb_forall in Hms. now apply Hms.
Qed.

(** [fromIter(iter)] over a finite sequence, once invoked, against a sink
    that calls the talkback and returns in any order and nesting: the DATA
    sent so far, followed by what the iterator still holds, are [iter], so
    the sink gets the elements in order, each once; no more DATA are sent
    than PULLs were received; at most one END is sent, and only when every
    element has been sent. *)
Theorem fromIter_sends_a_prefix_on_demand :
  forall (iter : list Val) (ms : list Move),
    forallb FromIterLog.from_sink ms = true ->
    let r := run (FromIter.handler iter)
                 (fst (boot (FromIter.handler iter (FromIter.Invoke 0))
                            (FromIter.init iter))) ms in
    FromIterLog.sink_data (snd r) ++ FromIter.iterator (state (fst r)) = iter /\
    (List.length (FromIterLog.sink_data (snd r)) <= FromIterLog.pulls ms)%nat /\
    (FromIterLog.sink_ends (snd r) <= 1)%nat /\
    (FromIterLog.sink_ends (snd r) = 1%nat ->
     FromIterLog.sink_data (snd r) = iter).
Proof.
  intros iter ms Hms. cbv zeta.
  destruct (fromIter_run iter ms Hms) as (_ & _ & Hd & Hp & He & Hr).
  rewrite run_moves in Hp.
  set (r := run (FromIter.handler iter) _ ms) in *.
  split; [exact Hd|].
  split; [exact (Nat.le_trans _ _ _ (Nat.le_add_r _ _) Hp)|].
  destruct (FromIter.res_done (FromIter.res (state (fst r)))).
  - rewrite He. split; [apply Nat.le_refl|].
    intros _. rewrite (Hr eq_refl), app_nil_r in Hd. exact Hd.
  - rewrite He. split; [apply Nat.le_0_l|]. intros H. discriminate H.
Qed.

Lemma fromIter_sends_a_prefix_on_demand_witness :
  let r := run (FromIter.handler [VNum 10; VNum 20; VNum 30; VNum 40])
               (fst (boot (FromIter.handler [VNum 10; VNum 20; VNum 30; VNum 40]
                                            (FromIter.Invoke 0))
                          (FromIter.init [VNum 10; VNum 20; VNum 30; VNum 40])))
               FromIterLog.scenario in
  FromIterLog.sink_data (snd r) = [VNum 10; VNum 20; VNum 30] /\
  FromIter.iterator (state (fst r)) = [VNum 40] /\
  (List.length (FromIterLog.sink_data (snd r)) <=
   FromIterLog.pulls FromIterLog.scenario)%nat.
Proof.
  pose proof (fromIter_sends_a_prefix_on_demand
                [VNum 10; VNum 20; VNum 30; VNum 40] FromIterLog.scenario
                eq_refl) as H.
  cbv zeta in *. destruct H as (_ & Hp & _).
  split; [reflexivity|]. split; [reflexivity | exact Hp].
Defined.

Lemma fromIter_frames (s : FromIter.State)
      (st : list (Prog FromIter.State FromIter.Out)) :
  FromIterLog.stack_ok s st -> Forall FromIterLog.frame st.
Proof.
  unfold FromIterLog.stack_ok. destruct (FromIter.inloop s).
  - intros (p & rest & -> & Hrest & Hp). constructor.
    + destruct Hp as [[-> _] | [-> _]]; [right; left; eauto | right; right; reflexivity].
    + eapply Forall_impl; [|exact Hrest]. intros a <-. now left.
  - intros H. eapply Forall_impl; [|exact H]. intros a <-. now left.
Qed.

(** Once [completed] is set, no move of the sink makes fromIter call out. *)
Lemma fromIter_cancelled_run (iter : list Val) (ms : list Move) :
  forall c : Config,
    crashed c = false ->
    FromIter.completed (state c) = true ->
    Forall FromIterLog.frame (stack c) ->
    forallb FromIterLog.from_sink ms = true ->
    outs (snd (run (FromIter.handler iter) c ms)) = [].
Proof.
  induction ms as [|m ms IH]; intros c Hc Hcp Hst Hms; [reflexivity|].
  cbn [forallb] in Hms. apply andb_true_iff in Hms as [Hm Hms].
  rewrite run_cons. cbn [snd]. unfold outs. rewrite flat_map_one.
  fold (outs (snd (run (FromIter.handler iter)
                       (fst (move (FromIter.handler iter) c m)) ms))).
  assert (H : crashed (fst (move (FromIter.handler iter) c m)) = false /\
              FromIter.completed (state (fst (move (FromIter.handler iter) c m))) = true /\
              Forall FromIterLog.frame (stack (fst (move (FromIter.handler iter) c m))) /\
              snd (move (FromIter.handler iter) c m) = None).
  { destruct c as [s st cr]. cbn [crashed state stack] in *. subst cr.
    unfold move. cbn [crashed state stack].
    destruct s as [it il g cp r]. cbn [FromIter.completed] in Hcp. subst cp.
    destruct m as [[start|t]|]; [discriminate Hm | |].
    - cbn. auto.
    - destruct st as [|p rest]; [cbn; auto|].
      pose proof (Forall_inv_tail Hst) as Hrest.
      destruct (Forall_inv Hst) as [-> | [[it' ->] | ->]].
      + cbn. auto.
      + destruct it'; cbn; rewrite andb_false_r; cbn; auto.
      + cbn. auto. }
  destruct H as (Hc1 & Hcp1 & Hst1 & ->).
  now rewrite (IH _ Hc1 Hcp1 Hst1 Hms).
Qed.

(** [fromIter(iter)] after a cancellation: whatever the sink has done
    before, once it has called the talkback with END nothing more is sent
    to it, however often it pulls and wherever the loop was. *)
Theorem fromIter_sends_nothing_after_cancel :
  forall (iter : list Val) (before after : list Move),
    forallb FromIterLog.from_sink before = true ->
    forallb FromIterLog.from_sink after = true ->
    let c0 := fst (boot (FromIter.handler iter (FromIter.Invoke 0))
                        (FromIter.init iter)) in
    let c1 := fst (run (FromIter.handler iter) c0
                       (before ++ [Enter (FromIter.Tb 2)])) in
    outs (snd (run (FromIter.handler iter) c1 after)) = [].
Proof.
  intros iter before after Hb Ha c0 c1.
  assert (Hms : forallb FromIterLog.from_sink (before ++ [Enter (FromIter.Tb 2)]) = true).
  { rewrite forallb_app, Hb. reflexivity. }
  destruct (fromIter_run iter _ Hms) as (Hc & Hst & _).
  fold c0 in Hc, Hst. fold c1 in Hc, Hst.
  apply fromIter_cancelled_run; auto.
  - unfold c1. rewrite run_app. cbn [fst]. rewrite run_cons. cbn [fst run].
    destruct (fromIter_run iter before Hb) as (Hc' & _). fold c0 in Hc'.
    destruct (fst (run (FromIter.handler iter) c0 before)) as [s st cr].
    cbn in Hc'. subst cr. unfold move. cbn.
    destruct (FromIter.completed s) eqn:E; cbn; auto.
  - eapply fromIter_frames. exact Hst.
Qed.

Lemma fromIter_sends_nothing_after_cancel_witness :
  outs (snd (run (FromIter.handler [VNum 10; VNum 20; VNum 30])
               (fst (run (FromIter.handler [VNum 10; VNum 20; VNum 30])
                      (fst (boot (FromIter.handler [VNum 10; VNum 20; VNum 30]
                                                   (FromIter.Invoke 0))
                                 (FromIter.init [VNum 10; VNum 20; VNum 30])))
                      ([Enter (FromIter.Tb 1); Enter (FromIter.Tb 1)] ++
                       [Enter (FromIter.Tb 2)])))
               [Return; Return; Enter (FromIter.Tb 1)])) = [].
Proof.
  exact (fromIter_sends_nothing_after_cancel [VNum 10; VNum 20; VNum 30]
           [Enter (FromIter.Tb 1); Enter (FromIter.Tb 1)]
           [Return; Return; Enter (FromIter.Tb 1)] eq_refl eq_refl).
Defined.

(** ** of *)

(** Once [disposed] is set, [of] calls out no more. *)
Lemma of_disposed_run (ms : list (Move (I := Of.In))) :
  forall c : Config,
    crashed c = false ->
    Of.disposed (state c) = true ->
    Forall Of.frame (stack c) ->
    outs (snd (run Of.handler c ms)) = [].
Proof.
  induction ms as [|m ms IH]; intros c Hc Hd Hst; [reflexivity|].
  rewrite run_cons. cbn [snd]. unfold outs. rewrite flat_map_one.
  fold (outs (snd (run Of.handler (fst (move Of.handler c m)) ms))).
  assert (H : crashed (fst (move Of.handler c m)) = false /\
              Of.disposed (state (fst (move Of.handler c m))) = true /\
              Forall Of.frame (stack (fst (move Of.handler c m))) /\
              snd (move Of.handler c m) = None).
  { destruct c as [[d] st cr]. cbn [crashed state stack Of.disposed] in *.
    subst cr d. unfold move. cbn [crashed state stack].
    destruct m as [[t]|].
    - cbn. destruct (negb (t =? 2)); cbn; auto.
    - destruct st as [|p rest]; [cbn; auto|].
      pose proof (Forall_inv_tail Hst) as Hrest.
      destruct (Forall_inv Hst) as [-> | [vs ->]].
      + cbn. auto.
      + destruct vs; cbn; auto. }
  destruct H as (Hc1 & Hd1 & Hst1 & ->).
  now rewrite (IH _ Hc1 Hd1 Hst1).
Qed.

(** After the END, or with nothing suspended, [of] calls out no more. *)
Lemma of_finished_run (ms : list (Move (I := Of.In))) :
  forall (s : Of.State) (st : list (Prog Of.State Of.Out)),
    Forall (eq Ret) st ->
    outs (snd (run Of.handler (mkConfig s st false) ms)) = [].
Proof.
  induction ms as [|m ms IH]; intros s st Hst; [reflexivity|].
  rewrite run_cons. cbn [snd]. unfold outs. rewrite flat_map_one.
  fold (outs (snd (run Of.handler
                       (fst (move Of.handler (mkConfig s st false) m)) ms))).
  unfold move. cbn [crashed state stack].
  destruct m as [[t]|].
  - cbn [Of.handler]. destruct (negb (t =? 2)); cbn; now rewrite IH.
  - destruct st as [|p rest]; [cbn; now rewrite IH|].
    rewrite <- (Forall_inv Hst). cbn. rewrite IH; [reflexivity|].
    exact (Forall_inv_tail Hst).
Qed.

Lemma of_run (ms : list (Move (I := Of.In))) :
  forall values : list Val,
    outs (snd (run Of.handler
                   (mkConfig Of.init [Of.loop_from values] false) ms)) =
    firstn (Of.returns_before_cancel ms) (Of.script values).
Proof.
  induction ms as [|m ms IH]; intros values; [reflexivity|].
  rewrite run_cons. cbn [snd]. unfold outs. rewrite flat_map_one.
  fold (outs (snd (run Of.handler
                       (fst (move Of.handler
                                  (mkConfig Of.init [Of.loop_from values] false) m))
                       ms))).
  unfold move. cbn [crashed state stack].
  destruct m as [[t]|].
  - cbn [Of.handler Of.returns_before_cancel].
    destruct (t =? 2); cbn.
    + apply of_disposed_run; cbn; auto.
      constructor; [right; eauto | constructor].
    + apply IH.
  - destruct values as [|v rest]; cbn.
    + rewrite of_finished_run by (constructor; auto).
      now rewrite firstn_nil.
    + f_equal. apply IH.
Qed.

(** [of(...values)], invoked with START, against any sink: it greets with
    its talkback, and then each return of the sink is answered by the next
    message of [values[0]], ..., [values[n-1]], END; a cancellation stops
    this for good, and every other call of the talkback, a PULL included,
    changes nothing. *)
Theorem of_pushes_until_cancelled :
  forall (values : list Val) (ms : list Move),
    snd (boot (Of.body values 0) Of.init) = Some (Of.Sink 0 Of.talkback_ref) /\
    outs (snd (run Of.handler (fst (boot (Of.body values 0) Of.init)) ms)) =
      firstn (Of.returns_before_cancel ms) (Of.script values).
Proof.
  intros values ms. split; [reflexivity|]. apply (of_run ms values).
Qed.

(** ** forEach and observe over of *)

Lemma push_forEach_loop (values xs : list Val) :
  forall (tr : list (LEvent (OU := Of.Out) (OD := ForEach.Out))) rest,
    lrun (Push.handler values) ForEach.handler Push.to_forEach Push.from_forEach
         (5 * List.length xs + 3)%nat
         (mkLConfig Of.init (ForEach.mkState Of.talkback_ref)
                    (FU (Of.loop_from xs) :: rest) tr false) =
    mkLConfig Of.init (ForEach.mkState Of.talkback_ref) rest
              (tr ++ flat_map Push.forEach_turn xs ++ [EvU (Of.Sink 2 VUndef)])
              false.
Proof.
  induction xs as [|v xs IH]; intros tr rest.
  - reflexivity.
  - replace (5 * List.length (v :: xs) + 3)%nat
      with (5 + (5 * List.length xs + 3))%nat by (simpl; lia).
    rewrite lrun_add.
    change (lrun (Push.handler values) ForEach.handler Push.to_forEach
              Push.from_forEach 5
              (mkLConfig Of.init (ForEach.mkState Of.talkback_ref)
                 (FU (Of.loop_from (v :: xs)) :: rest) tr false))
      with (mkLConfig Of.init (ForEach.mkState Of.talkback_ref)
              (FU (Of.loop_from xs) :: rest)
              (((tr ++ [EvU (Of.Sink 1 v)]) ++ [EvD (ForEach.Operation v)])
                 ++ [EvD (ForEach.TalkbackCall Of.talkback_ref 1)])
              false).
    rewrite IH. f_equal.
    simpl. rewrite <- !app_assoc. reflexivity.
Qed.

Lemma push_observe_loop (values xs : list Val) :
  forall (tr : list (LEvent (OU := Of.Out) (OD := Observe.Out))) rest,
    lrun (Push.handler values) Observe.handler Push.to_observe Push.from_observe
         (3 * List.length xs + 3)%nat
         (mkLConfig Of.init tt (FU (Of.loop_from xs) :: rest) tr false) =
    mkLConfig Of.init tt rest
              (tr ++ flat_map Push.observe_turn xs ++ [EvU (Of.Sink 2 VUndef)])
              false.
Proof.
  induction xs as [|v xs IH]; intros tr rest.
  - reflexivity.
  - replace (3 * List.length (v :: xs) + 3)%nat
      with (3 + (3 * List.length xs + 3))%nat by (simpl; lia).
    rewrite lrun_add.
    change (lrun (Push.handler values) Observe.handler Push.to_observe
              Push.from_observe 3
              (mkLConfig Of.init tt (FU (Of.loop_from (v :: xs)) :: rest) tr false))
      with (mkLConfig Of.init tt (FU (Of.loop_from xs) :: rest)
              ((tr ++ [EvU (Of.Sink 1 v)]) ++ [EvD (Observe.Operation v)])
              false).
    rewrite IH. f_equal.
    simpl. rewrite <- !app_assoc. reflexivity.
Qed.

Lemma push_turns (xs : list Val) :
  Push.forEach_operations (flat_map Push.forEach_turn xs) = xs /\
  Push.sent (flat_map Push.forEach_turn xs) = map (fun v => (1, v)) xs /\
  Push.observe_operations (flat_map Push.observe_turn xs) = xs /\
  Push.sent (flat_map Push.observe_turn xs) = map (fun v => (1, v)) xs.
Proof.
  induction xs as [|v xs (IH1 & IH2 & IH3 & IH4)]; simpl; [auto|].
  unfold Push.forEach_operations, Push.observe_operations, Push.sent in *.
  rewrite IH1, IH2, IH3, IH4. auto.
Qed.

(** [forEach(operation)(of(...values))] and [observe(operation)(of(...values))]
    run to completion for any values: [operation] is called exactly on the
    values, in order, and [of] sends START, one DATA per value and one END.
    The PULLs of [forEach] change nothing: [observe], which never calls the
    talkback, sees the same messages. *)
Theorem forEach_and_observe_over_of :
  forall (values : list Val) (extra : nat),
    let c := Push.forEach_of (5 * List.length values + 9 + extra) values in
    let c' := Push.observe_of (3 * List.length values + 7 + extra) values in
    (lhalted c = true /\
     Push.forEach_operations (ltrace c) = values /\
     Push.sent (ltrace c) =
       (0, Of.talkback_ref) :: map (fun v => (1, v)) values ++ [(2, VUndef)]) /\
    (lhalted c' = true /\
     Push.observe_operations (ltrace c') = values /\
     Push.sent (ltrace c') = Push.sent (ltrace c)).
Proof.
  intros values extra.
  assert (H : Push.forEach_of (5 * List.length values + 9 + extra) values =
              mkLConfig Of.init (ForEach.mkState Of.talkback_ref) []
                ([EvD (ForEach.SourceCall 0);
                  EvU (Of.Sink 0 Of.talkback_ref);
                  EvD (ForEach.TalkbackCall Of.talkback_ref 1)]
                 ++ flat_map Push.forEach_turn values ++ [EvU (Of.Sink 2 VUndef)])
                false).
  { unfold Push.forEach_of.
    replace (5 * List.length values + 9 + extra)%nat
      with (5 + ((5 * List.length values + 3) + (1 + extra)))%nat by lia.
    rewrite lrun_add.
    change (lrun (Push.handler values) ForEach.handler Push.to_forEach
              Push.from_forEach 5
              (mkLConfig Of.init ForEach.init [FD ForEach.main] [] false))
      with (mkLConfig Of.init (ForEach.mkState Of.talkback_ref)
              [FU (Of.loop_from values); FD Ret]
              [EvD (ForEach.SourceCall 0);
               EvU (Of.Sink 0 Of.talkback_ref);
               EvD (ForEach.TalkbackCall Of.talkback_ref 1)]
              false).
    rewrite lrun_add, push_forEach_loop.
    rewrite lrun_add. apply lrun_stuck. reflexivity. }
  assert (H' : Push.observe_of (3 * List.length values + 7 + extra) values =
               mkLConfig Of.init tt []
                 ([EvD (Observe.SourceCall 0);
                   EvU (Of.Sink 0 Of.talkback_ref)]
                  ++ flat_map Push.observe_turn values ++ [EvU (Of.Sink 2 VUndef)])
                 false).
  { unfold Push.observe_of.
    replace (3 * List.length values + 7 + extra)%nat
      with (3 + ((3 * List.length values + 3) + (1 + extra)))%nat by lia.
    rewrite lrun_add.
    change (lrun (Push.handler values) Observe.handler Push.to_observe
              Push.from_observe 3
              (mkLConfig Of.init tt [FD Observe.main] [] false))
      with (mkLConfig Of.init tt [FU (Of.loop_from values); FD Ret]
              [EvD (Observe.SourceCall 0); EvU (Of.Sink 0 Of.talkback_ref)]
              false).
    rewrite lrun_add, push_observe_loop.
    rewrite lrun_add. apply lrun_stuck. reflexivity. }
  intros c c'. subst c c'. rewrite H, H'. cbn [ltrace].
  destruct (push_turns values) as (E1 & E2 & E3 & E4).
  unfold Push.forEach_operations, Push.observe_operations, Push.sent in *.
  rewrite !flat_map_app, E1, E2, E3, E4. cbn. rewrite !app_nil_r.
  repeat split; reflexivity.
Qed.

(** [observe(operation)(fromIter(iter))]: [observe] never pulls, and
    [fromIter] sends nothing unasked; so after the START the run is over,
    [operation] is never called and the iterator is untouched. *)
Theorem observe_over_fromIter_sees_nothing :
  forall (iter : list Val) (extra : nat),
    let c := Push.observe_fromIter (5 + extra) iter in
    lhalted c = true /\
    ltrace c = [EvD (Observe.SourceCall 0);
                EvU (FromIter.Sink 0 FromIter.talkback_ref)] /\
    Push.observe_operations (ltrace c) = [] /\
    FromIter.iterator (lsU c) = iter.
Proof.
  intros iter extra c. subst c. unfold Push.observe_fromIter.
  rewrite lrun_add.
  change (lrun (FromIter.handler iter) Observe.handler Push.to_observe_iter
            Push.from_observe_iter 5
            (mkLConfig (FromIter.init iter) tt [FD Observe.main] [] false))
    with (mkLConfig (FromIter.init iter) tt []
            [EvD (Observe.SourceCall 0);
             EvU (FromIter.Sink 0 FromIter.talkback_ref)]
            false).
  rewrite lrun_stuck by reflexivity.
  repeat split; reflexivity.
Qed.

(** ** scan with a seed *)




(** ** flatten *)

Lemma flatten_silent_log (m : Move (I := Flatten.In)) (o : option Flatten.Out) :
  match o with Some o => FlattenLog.silent o = true | None => True end ->
  FlattenLog.sink_data [(m, o)] = [].
Proof.
  destruct o as [[| |t d|src|f t d|f t d]|]; cbn; intros H; auto.
  apply negb_true_iff in H. now rewrite H.
Qed.

Lemma flatten_move (c : Config) (m : Move (I := Flatten.In)) :
  crashed c = false ->
  Forall (Quiet FlattenLog.silent true) (stack c) ->
  crashed (fst (move Flatten.handler c m)) = false ->
  Forall (Quiet FlattenLog.silent true) (stack (fst (move Flatten.handler c m))) /\
  FlattenLog.sink_data [(m, snd (move Flatten.handler c m))] =
    FlattenLog.inner_data [m].
Proof.
  destruct c as [s st cr]. cbn [crashed stack]. intros -> Hst.
  unfold move. cbn [crashed state stack].
  assert (Hquiet : forall p rest m',
             FlattenLog.inner_data [m'] = [] ->
             Quiet FlattenLog.silent true p ->
             Forall (Quiet FlattenLog.silent true) rest ->
             crashed (fst (settle (advance p s) rest)) = false ->
             Forall (Quiet FlattenLog.silent true)
                    (stack (fst (settle (advance p s) rest))) /\
             FlattenLog.sink_data [(m', snd (settle (advance p s) rest))] =
               FlattenLog.inner_data [m']).
  { intros p rest m' -> Hp Hrest Hc.
    destruct (settle_quiet FlattenLog.silent true p s rest Hp Hrest Hc)
      as (_ & Hst' & Ho).
    rewrite (flatten_silent_log m' _ Ho). auto. }
  destruct m as [[T D|t d|t d]|].
  - apply Hquiet; [reflexivity | | exact Hst].
    cbn. unfold Flatten.from_outer, Flatten.and_call.
    destruct (T =? 0); [quiet|]. destruct (T =? 1); [quiet|].
    destruct ((T =? 2) && absent D); [quiet|].
    destruct ((T =? 2) && exists_ D) eqn:E; [|quiet].
    apply andb_true_iff in E as [E _]. apply Z.eqb_eq in E. subst T. quiet.
  - cbn [Flatten.handler]. unfold Flatten.from_inner.
    destruct (t =? 1) eqn:E1.
    + apply Z.eqb_eq in E1. subst t. cbn. intros _.
      split; [constructor; [constructor | exact Hst] | reflexivity].
    + apply Hquiet; [cbn; now rewrite E1 | | exact Hst].
      destruct (t =? 0); [quiet|].
      destruct ((t =? 2) && absent d); [quiet|].
      destruct ((t =? 2) && exists_ d) eqn:E; [|quiet].
      apply andb_true_iff in E as [E _]. apply Z.eqb_eq in E. subst t. quiet.
  - apply Hquiet; [reflexivity | | exact Hst].
    cbn. unfold Flatten.talkback, Flatten.and_call.
    destruct (t =? 1), (t =? 2); quiet.
  - destruct st as [|p rest].
    + intros _. cbn. auto.
    + apply Hquiet; [reflexivity | exact (Forall_inv Hst)
                     | exact (Forall_inv_tail Hst)].
Qed.

Lemma flatten_run (ms : list (Move (I := Flatten.In))) :
  forall c : Config,
    Forall (Quiet FlattenLog.silent true) (stack c) ->
    crashed (fst (run Flatten.handler c ms)) = false ->
    FlattenLog.sink_data (snd (run Flatten.handler c ms)) =
      FlattenLog.inner_data ms.
Proof.
  induction ms as [|m ms IH]; intros c Hst Hfin; [reflexivity|].
  rewrite run_cons in *. cbn [fst snd] in *.
  destruct (crashed (fst (move Flatten.handler c m))) eqn:Ec1.
  { rewrite (run_crashed Flatten.handler _ ms Ec1) in Hfin. discriminate Hfin. }
  pose proof (move_not_crashed _ _ _ Ec1) as Ec.
  destruct (flatten_move c m Ec Hst Ec1) as (Hst1 & Hd).
  unfold FlattenLog.inner_data, FlattenLog.sink_data in *.
  rewrite (flat_map_one _ m ms), (flat_map_one _ (m, _)).
  now rewrite Hd, (IH _ Hst1 Hfin).
Qed.

(** [flatten(source)], in every run that throws no TypeError and whatever
    the surrounding code does: the DATA sent downstream are exactly the
    DATA of the inner sources, in the order received, also those of an
    inner source that was replaced and cancelled but goes on sending; a
    DATA of the outer source is never sent downstream itself. *)
Theorem flatten_forwards_the_inner_data :
  forall ms : list Move,
    let r := run Flatten.handler
                 (fst (boot (Flatten.body 0) Flatten.init)) ms in
    crashed (fst r) = false ->
    FlattenLog.sink_data (snd r) = FlattenLog.inner_data ms.
Proof.
  intros ms r Hc. apply flatten_run; [|exact Hc].
  cbn. constructor; constructor.
Qed.

Lemma flatten_forwards_the_inner_data_witness :
  let r := run Flatten.handler
               (fst (boot (Flatten.body 0) Flatten.init)) FlattenLog.scenario in
  crashed (fst r) = false /\
  FlattenLog.sink_data (snd r) = [VNum 1; VNum 2; VNum 3] /\
  outs (snd r) =
    [ Flatten.SinkStart; Flatten.InnerInvoke (VFn 10);
      Flatten.UpInner (VFn 2) 1 VUndef; Flatten.Sink 1 (VNum 1);
      Flatten.UpInner (VFn 2) 2 VUndef; Flatten.InnerInvoke (VFn 11);
      Flatten.UpInner (VFn 3) 1 VUndef; Flatten.Sink 1 (VNum 2);
      Flatten.Sink 1 (VNum 3); Flatten.Sink 2 VUndef ].
Proof.
  pose proof (flatten_forwards_the_inner_data FlattenLog.scenario) as H.
  cbv zeta in *. split; [reflexivity|].
  split; [rewrite (H eq_refl)|]; reflexivity.
Defined.

(** ** interval *)

Lemma interval_run (ms : list (Move (I := Interval.In))) :
  forall (k : nat) (st : list (Prog Interval.State Interval.Out)),
    Forall Interval.frame st ->
    Interval.sink_data
      (snd (run Interval.handler
                (mkConfig (Interval.mkState (Z.of_nat k)) st false) ms)) =
    Interval.count_from k (Interval.ticks ms).
Proof.
  induction ms as [|m ms IH]; intros k st Hst; [reflexivity|].
  rewrite run_cons. cbn [snd]. unfold Interval.sink_data, Interval.ticks.
  rewrite (flat_map_one _ (m, _)), (count_one _ m ms).
  fold (Interval.ticks ms).
  fold (Interval.sink_data (snd (run Interval.handler
          (fst (move Interval.handler
                     (mkConfig (Interval.mkState (Z.of_nat k)) st false) m)) ms))).
  unfold move. cbn [crashed state stack].
  destruct m as [[|t]|].
  - cbn.
    replace (Z.of_nat k + 1) with (Z.of_nat (Datatypes.S k)) by lia.
    rewrite IH by (constructor; [now left | exact Hst]).
    reflexivity.
  - cbn [Nat.add]. cbn. destruct (t =? 2); cbn.
    + apply IH. constructor; [now left | exact Hst].
    + now apply IH.
  - cbn [Nat.add]. destruct st as [|p rest].
    + cbn. now apply IH.
    + pose proof (Forall_inv_tail Hst) as Hrest.
      destruct (Forall_inv Hst) as [-> | ->]; cbn.
      * now apply IH.
      * apply IH. constructor; [now left | exact Hrest].
Qed.

(** [interval(period)], whatever the sink does and whenever the timer
    fires: the ticks send 0, 1, 2, ... downstream, one number per tick, and
    these are the only DATA sent. *)
Theorem interval_counts_its_ticks :
  forall (period : Val) (ms : list Move),
    Interval.sink_data
      (snd (run Interval.handler
                (fst (boot (Interval.body period 0) Interval.init)) ms)) =
    Interval.count_from 0 (Interval.ticks ms).
Proof.
  intros period ms. apply (interval_run ms 0).
  constructor; [now right | constructor].
Qed.

(** ** fromPromise *)

Lemma fromPromise_ended_run (ms : list (Move (I := FromPromise.In))) :
  forall st : list (Prog FromPromise.State FromPromise.Out),
    Forall (eq Ret) st ->
    outs (snd (run FromPromise.handler
                   (mkConfig (FromPromise.mkState true) st false) ms)) = [].
Proof.
  induction ms as [|m ms IH]; intros st Hst; [reflexivity|].
  rewrite run_cons. cbn [snd]. unfold outs. rewrite flat_map_one.
  fold (outs (snd (run FromPromise.handler
          (fst (move FromPromise.handler
                     (mkConfig (FromPromise.mkState true) st false) m)) ms))).
  unfold move. cbn [crashed state stack].
  destruct m as [[val|err|t]|].
  - cbn. now apply IH.
  - cbn. now apply IH.
  - cbn. destruct (t =? 2); cbn; now apply IH.
  - destruct st as [|p rest]; cbn; [now apply IH|].
    rewrite <- (Forall_inv Hst). cbn. apply IH. exact (Forall_inv_tail Hst).
Qed.

Lemma fromPromise_sink_run (ms : list (Move (I := FromPromise.In))) :
  forall (s : FromPromise.State) (st : list (Prog FromPromise.State FromPromise.Out)),
    Forall (eq Ret) st ->
    forallb FromPromise.from_sink ms = true ->
    exists s' st',
      fst (run FromPromise.handler (mkConfig s st false) ms) =
        mkConfig s' st' false /\
      Forall (eq Ret) st'.
Proof.
  induction ms as [|m ms IH]; intros s st Hst Hms; [cbn; eauto|].
  cbn [forallb] in Hms. apply andb_true_iff in Hms as [Hm Hms].
  rewrite run_cons. cbn [fst]. unfold move. cbn [crashed state stack].
  destruct m as [[val|err|t]|]; try discriminate Hm.
  - cbn. destruct (t =? 2); cbn; now apply IH.
  - destruct st as [|p rest]; cbn; [now apply IH|].
    rewrite <- (Forall_inv Hst). cbn. apply IH; [exact (Forall_inv_tail Hst) | exact Hms].
Qed.

(** While a call of [fromPromise] is pending, calls of the talkback make
    no call out and leave the pending call where it is. *)
Lemma fromPromise_talkback_calls (ts : list Z) :
  forall (s : FromPromise.State) (st : list (Prog FromPromise.State FromPromise.Out)),
    exists s',
      run FromPromise.handler (mkConfig s st false)
          (FromPromise.talkback_calls ts) =
      (mkConfig s' st false,
       map (fun t => (Enter (FromPromise.Tb t), None)) ts).
Proof.
  unfold FromPromise.talkback_calls.
  induction ts as [|t ts IH]; intros s st; [cbn; eauto|].
  cbn [map]. rewrite run_cons.
  unfold move. cbn [crashed state stack FromPromise.handler].
  destruct (t =? 2); cbn [advance settle fst snd upd state].
  - destruct (IH (FromPromise.mkState true) st) as (s' & ->). now exists s'.
  - destruct (IH s st) as (s' & ->). now exists s'.
Qed.

(** [fromPromise(promise)], after its START.  If the sink has cancelled,
    nothing is sent any more, whatever the promise does.  If it has not
    when the promise is fulfilled, the value is sent and then an END, and
    the END is sent even when the sink cancels while it receives the
    value; when the promise is rejected, a single END carrying the error
    is sent. *)
Theorem fromPromise_settles_unless_cancelled :
  forall (before : list Move),
    forallb FromPromise.from_sink before = true ->
    let c0 := fst (boot (FromPromise.body 0) FromPromise.init) in
    let c1 := fst (run FromPromise.handler c0 (Return :: before)) in
    (forall after : list Move,
       outs (snd (run FromPromise.handler
                      (fst (run FromPromise.handler c1 [Enter (FromPromise.Tb 2)]))
                      after)) = []) /\
    (FromPromise.ended (state c1) = false ->
     (forall (val : Val) (ts : list Z),
        outs (snd (run FromPromise.handler c1
                       (Enter (FromPromise.Onfulfilled val)
                        :: FromPromise.talkback_calls ts ++ [Return]))) =
        [FromPromise.Sink 1 val; FromPromise.Sink 2 VUndef]) /\
     (forall err : Val,
        outs (snd (run FromPromise.handler c1
                       [Enter (FromPromise.Onrejected err)])) =
        [FromPromise.Sink 2 err])).
Proof.
  intros before Hb c0 c1.
  destruct (fromPromise_sink_run before FromPromise.init [Ret]) as (s1 & st1 & E & Hst1);
    [constructor; auto | exact Hb |].
  assert (Ec1 : c1 = mkConfig s1 st1 false).
  { unfold c1. rewrite run_cons. cbn [fst]. exact E. }
  rewrite Ec1. clear Ec1 E c1. split.
  - intros after. cbn. destruct s1 as [[|]]; cbn; now apply fromPromise_ended_run.
  - cbn [state]. intros He. destruct s1 as [e]. cbn in He. subst e. split.
    + intros val ts. rewrite run_cons. unfold move. cbn.
      rewrite run_app. cbn [fst snd].
      destruct (fromPromise_talkback_calls ts (FromPromise.mkState false)
                  (call (FromPromise.Sink 2 VUndef) :: st1)) as (s' & ->).
      cbn [fst snd]. unfold outs. rewrite flat_map_app. cbn.
      replace (flat_map _ (map _ ts)) with (@nil FromPromise.Out); [reflexivity|].
      clear. induction ts as [|t ts IH]; [reflexivity | exact IH].
    + intros err. reflexivity.
Qed.

Lemma fromPromise_settles_unless_cancelled_witness :
  outs (snd (run FromPromise.handler
                 (fst (run FromPromise.handler
                           (fst (boot (FromPromise.body 0) FromPromise.init))
                           (Return :: [Enter (FromPromise.Tb 1); Return])))
                 (Enter (FromPromise.Onfulfilled (VNum 7))
                  :: FromPromise.talkback_calls [2] ++ [Return]))) =
  [FromPromise.Sink 1 (VNum 7); FromPromise.Sink 2 VUndef].
Proof.
  exact (proj1 (proj2 (fromPromise_settles_unless_cancelled
                         [Enter (FromPromise.Tb 1); Return] eq_refl) eq_refl)
               (VNum 7) [2]).
Defined.

(** ** makeSubject without interference *)

Lemma subject_attach_run (ks : list nat) :
  forall pre : list nat,
    run Subject.handler (mkConfig (Subject.mkState pre) [] false)
        (SubjectLog.attach ks) =
    (mkConfig (Subject.mkState (pre ++ ks)) [] false,
     flat_map (fun k => [(Enter (Subject.Subj 0 (VFn k)), Some (Subject.SinkStart k));
                         (Return, None)]) ks).
Proof.
  induction ks as [|k ks IH]; intros pre.
  - cbn. now rewrite app_nil_r.
  - change (SubjectLog.attach (k :: ks))
      with ([Enter (Subject.Subj 0 (VFn k)); Return] ++ SubjectLog.attach ks).
    rewrite run_app.
    change (run Subject.handler (mkConfig (Subject.mkState pre) [] false)
              [Enter (Subject.Subj 0 (VFn k)); Return])
      with (mkConfig (O := Subject.Out) (Subject.mkState (pre ++ [k])) [] false,
            [(Enter (Subject.Subj 0 (VFn k)), Some (Subject.SinkStart k));
             (@Return Subject.In, @None Subject.Out)]).
    cbn [fst snd]. rewrite IH. cbn [fst snd flat_map app].
    now rewrite <- app_assoc.
Qed.

Lemma subject_deliver_run (type : Z) (data : Val) (ks zinkz : list nat) :
  (forall k, In k zinkz -> In k ks) ->
  forall st,
    run Subject.handler
        (mkConfig (Subject.mkState ks)
                  (Subject.deliver zinkz type data :: st) false)
        (repeat Return (Datatypes.S (List.length zinkz))) =
    (mkConfig (Subject.mkState ks) st false,
     map (fun k => (Return, Some (Subject.Sink k type data))) zinkz
     ++ [(Return, None)]).
Proof.
  induction zinkz as [|k zinkz IH]; intros Hin st.
  - reflexivity.
  - change (repeat (@Return Subject.In) (Datatypes.S (List.length (k :: zinkz))))
      with (@Return Subject.In :: repeat Return (Datatypes.S (List.length zinkz))).
    rewrite run_cons. unfold move.
    cbn [crashed state stack Subject.deliver advance Subject.sinks].
    assert (Hk : mem k ks = true) by (apply mem_In, Hin; now left).
    rewrite Hk. cbn [advance settle fst snd].
    rewrite IH by (intros k' Hk'; apply Hin; now right).
    reflexivity.
Qed.

(** [makeSubject()] with sinks that do not interfere: after the sinks [ks]
    have been attached, in this order, a message that is not a START is
    delivered to them in the order of attachment, once for each time a
    sink was attached; the subject keeps its sinks whatever the message, an
    END included, so that a later message is delivered just the same. *)
Theorem subject_broadcasts_in_attach_order :
  forall (ks : list nat) (type : Z) (data : Val),
    type <> 0 ->
    let c := fst (run Subject.handler (mkConfig Subject.init [] false)
                      (SubjectLog.attach ks)) in
    let r := run Subject.handler c
                 (SubjectLog.push type data (List.length ks)) in
    outs (snd r) = map (fun k => Subject.Sink k type data) ks /\
    fst r = c /\
    Subject.sinks (state c) = ks.
Proof.
  intros ks type data Ht c r. subst r c.
  change Subject.init with (Subject.mkState []).
  rewrite subject_attach_run. cbn [fst app Subject.sinks state].
  unfold SubjectLog.push. rewrite run_cons. unfold move.
  cbn [crashed state stack Subject.handler Subject.subject].
  unfold Subject.subject. apply Z.eqb_neq in Ht. rewrite Ht.
  cbn [advance Subject.sinks].
  destruct ks as [|k ks]; [cbn; auto|].
  cbn [Subject.deliver advance Subject.sinks].
  assert (Hk : mem k (k :: ks) = true) by (apply mem_In; now left).
  rewrite Hk. cbn [advance settle fst snd List.length].
  rewrite (subject_deliver_run type data (k :: ks) ks) by (intros k' Hk'; now right).
  cbn [fst snd]. split; [|auto].
  unfold outs. cbn. rewrite flat_map_app. cbn. rewrite app_nil_r.
  f_equal. clear. induction ks as [|k' ks IH]; [reflexivity|].
  cbn. now rewrite IH.
Qed.

Lemma subject_broadcasts_in_attach_order_witness :
  outs (snd (run Subject.handler
               (fst (run Subject.handler (mkConfig Subject.init [] false)
                         (SubjectLog.attach [1; 2; 1]%nat)))
               (SubjectLog.push 2 VUndef (List.length [1; 2; 1]%nat)))) =
  [Subject.Sink 1 2 VUndef; Subject.Sink 2 2 VUndef; Subject.Sink 1 2 VUndef].
Proof.
  exact (proj1 (subject_broadcasts_in_attach_order [1; 2; 1]%nat 2 VUndef
                  ltac:(discriminate))).
Defined.

(** ** concat and combine without sources *)

Lemma run_returns_on_empty_stack {S I O} (handler : I -> Prog S O) (s : S) (k : nat) :
  outs (snd (run handler (mkConfig s [] false) (repeat Return k))) = [].
Proof.
  induction k as [|k IH]; [reflexivity|].
  cbn [repeat]. rewrite run_cons. unfold move. cbn. exact IH.
Qed.

(** [concat()] and [combine()] called with no source at all greet the sink
    with a talkback that does nothing and complete at once: [concat()]
    sends END, [combine()] sends one DATA, the empty array, and then END;
    nothing follows. *)
Theorem concat_and_combine_without_sources :
  forall k : nat,
    (snd (boot (Concat.body 0 0) Concat.init) = Some Concat.SinkStartInert /\
     outs (snd (run (Concat.handler 0) (fst (boot (Concat.body 0 0) Concat.init))
                    (repeat Return k))) =
       firstn k [Concat.Sink 2 VUndef]) /\
    (snd (boot (Combine.body 0 0) (Combine.init 0)) = Some Combine.SinkStartInert /\
     outs (snd (run (Combine.handler 0)
                    (fst (boot (Combine.body 0 0) (Combine.init 0)))
                    (repeat Return k))) =
       firstn k [Combine.Sink 1 (VArr []); Combine.Sink 2 VUndef]).
Proof.
  intros k. split; (split; [reflexivity|]).
  - destruct k as [|[|k]]; try reflexivity.
    change (repeat (@Return Concat.In) (Datatypes.S (Datatypes.S k)))
      with ([@Return Concat.In; Return] ++ repeat Return k).
    rewrite run_app. cbn [snd]. rewrite outs_app.
    change (fst (run (Concat.handler 0) (fst (boot (Concat.body 0 0) Concat.init))
                     [Return; Return]))
      with (mkConfig (O := Concat.Out) Concat.init [] false).
    now rewrite (run_returns_on_empty_stack (Concat.handler 0)).
  - destruct k as [|[|[|k]]]; try reflexivity.
    change (repeat (@Return Combine.In)
                   (Datatypes.S (Datatypes.S (Datatypes.S k))))
      with ([@Return Combine.In; Return; Return] ++ repeat Return k).
    rewrite run_app. cbn [snd]. rewrite outs_app.
    change (fst (run (Combine.handler 0)
                     (fst (boot (Combine.body 0 0) (Combine.init 0)))
                     [Return; Return; Return]))
      with (mkConfig (O := Combine.Out) (Combine.init 0) [] false).
    now rewrite (run_returns_on_empty_stack (Combine.handler 0)).
Qed.

(** ** forEach against any source *)

Definition forEach_invariant
           (c : Config (S := ForEach.State) (O := ForEach.Out))
           (log : list (Move (I := ForEach.In) * option ForEach.Out)) : Prop :=
  crashed c = false ->
  Forall (fun p => p = Ret \/ p = ForEachLog.after_operation) (stack c) /\
  ForEachLog.operations log = ForEachLog.data (map fst log) /\
  (ForEachLog.pulls log + ForEachLog.in_operation (stack c) =
   ForEachLog.starts_and_data (map fst log))%nat.

Lemma forEach_log_snoc
      (log : list (Move (I := ForEach.In) * option ForEach.Out))
      (m : Move) (o : option ForEach.Out) :
  ForEachLog.operations (log ++ [(m, o)]) =
    ForEachLog.operations log ++ ForEachLog.operations [(m, o)] /\
  ForEachLog.pulls (log ++ [(m, o)]) =
    (ForEachLog.pulls log + ForEachLog.pulls [(m, o)])%nat /\
  ForEachLog.data (map fst (log ++ [(m, o)])) =
    ForEachLog.data (map fst log) ++ ForEachLog.data [m] /\
  ForEachLog.starts_and_data (map fst (log ++ [(m, o)])) =
    (ForEachLog.starts_and_data (map fst log) + ForEachLog.starts_and_data [m])%nat.
Proof.
  unfold ForEachLog.operations, ForEachLog.pulls, ForEachLog.data,
    ForEachLog.starts_and_data.
  rewrite map_app, !flat_map_app, !filter_app, !length_app. auto.
Qed.

Lemma forEach_step (c : Config)
      (log : list (Move (I := ForEach.In) * option ForEach.Out)) (m : Move) :
  forEach_invariant c log ->
  forEach_invariant (fst (move ForEach.handler c m))
                    (log ++ [(m, snd (move ForEach.handler c m))]).
Proof.
  intros Hinv Hnc1.
  pose proof (move_not_crashed _ _ _ Hnc1) as Hnc.
  destruct (Hinv Hnc) as (Hst & Ho & Hp). clear Hinv.
  destruct c as [s st cr]. cbn [crashed stack state] in *. subst cr.
  destruct (forEach_log_snoc log m
              (snd (move ForEach.handler
                         {| state := s; stack := st; crashed := false |} m)))
    as (-> & -> & -> & ->).
  rewrite Ho, <- Hp. clear Ho Hp.
  unfold move in *. cbn [crashed state stack] in *.
  unfold ForEachLog.in_operation in *.
  destruct m as [[t d]|].
  - cbn [ForEach.handler] in *.
    destruct (t =? 0) eqn:E0; [|destruct (t =? 1) eqn:E1].
    + apply Z.eqb_eq in E0. subst t. cbn in *.
      destruct (callable d); cbn in *; [|discriminate Hnc1].
      split; [constructor; [now left | exact Hst]|].
      split; [now rewrite app_nil_r | lia].
    + apply Z.eqb_eq in E1. subst t. cbn in *.
      split; [constructor; [now right | exact Hst]|].
      split; [reflexivity | lia].
    + cbn in *. rewrite E0, E1. cbn.
      split; [exact Hst|]. split; [now rewrite app_nil_r | lia].
  - destruct st as [|p rest]; cbn in *.
    + split; [exact Hst|]. split; [now rewrite app_nil_r | lia].
    + pose proof (Forall_inv_tail Hst) as Hrest.
      destruct (Forall_inv Hst) as [-> | ->]; cbn in *.
      * split; [exact Hrest|]. split; [now rewrite app_nil_r | lia].
      * destruct (callable (ForEach.talkback s)); cbn in *; [|discriminate Hnc1].
        split; [constructor; [now left | exact Hrest]|].
        split; [now rewrite app_nil_r | lia].
Qed.

(** [forEach(operation)(source)] against any source, in every run that
    throws no TypeError: [operation] is called with each DATA, as it
    arrives and in the order received, and with nothing else; and the
    source is pulled once for each START and once for each DATA, for a DATA
    when [operation] has returned. *)
Theorem forEach_calls_operation_and_pulls :
  forall ms : list Move,
    let r := run ForEach.handler (mkConfig ForEach.init [] false) ms in
    crashed (fst r) = false ->
    ForEachLog.operations (snd r) = ForEachLog.data ms /\
    (ForEachLog.pulls (snd r) + ForEachLog.in_operation (stack (fst r)) =
     ForEachLog.starts_and_data ms)%nat.
Proof.
  intros ms r Hc.
  pose proof (run_invariant ForEach.handler (fun _ => True) forEach_invariant
                (fun c log m _ H => forEach_step c log m H)
                (mkConfig ForEach.init [] false)) as H.
  destruct (H (fun _ => conj (Forall_nil _) (conj eq_refl eq_refl)) ms) as (_ & Ho & Hp);
    [apply Forall_forall; auto | exact Hc |].
  rewrite run_moves in Ho, Hp. split; assumption.
Qed.

Lemma forEach_calls_operation_and_pulls_witness :
  let r := run ForEach.handler (mkConfig ForEach.init [] false)
               ForEachLog.scenario in
  crashed (fst r) = false /\
  ForEachLog.operations (snd r) = [VNum 1; VNum 2] /\
  ForEachLog.pulls (snd r) = 3%nat.
Proof.
  pose proof (forEach_calls_operation_and_pulls ForEachLog.scenario) as H.
  cbv zeta in *. split; [reflexivity|].
  destruct (H eq_refl) as (Ho & Hp). split.
  - rewrite Ho. reflexivity.
  - reflexivity.
Defined.

(** ** forEach over take over fromIter *)

Section ChainFacts.
Context {SA IA OA SB IB OB SC IC OC : Type}.
Variable hA : IA -> Prog SA OA.
Variable hB : IB -> Prog SB OB.
Variable hC : IC -> Prog SC OC.
Variable a_to_b : OA -> IB.
Variable b_to : OB -> option (IA + IC).
Variable c_to : OC -> option (IA + IB).

Lemma crun_stuck (c : CConfig) (fuel : nat) :
  cstep hA hB hC a_to_b b_to c_to c = None ->
  crun hA hB hC a_to_b b_to c_to fuel c = c.
Proof. intros H. destruct fuel; simpl; [|rewrite H]; reflexivity. Qed.

Lemma crun_add (a b : nat) (c : CConfig) :
  crun hA hB hC a_to_b b_to c_to (a + b) c =
  crun hA hB hC a_to_b b_to c_to b (crun hA hB hC a_to_b b_to c_to a c).
Proof.
  revert c; induction a as [|a IH]; intros c; simpl.
  - reflexivity.
  - destruct (cstep hA hB hC a_to_b b_to c_to c) eqn:E.
    + apply IH.
    + symmetry. now apply crun_stuck.
Qed.

Lemma reaches_refl (c : CConfig) :
  reaches hA hB hC a_to_b b_to c_to c c.
Proof. exists 0%nat. reflexivity. Qed.

Lemma reaches_step (c1 c2 : CConfig) :
  cstep hA hB hC a_to_b b_to c_to c1 = Some c2 ->
  reaches hA hB hC a_to_b b_to c_to c1 c2.
Proof. intros H. exists 1%nat. intros extra. simpl. now rewrite H. Qed.

Lemma reaches_trans (c1 c2 c3 : CConfig) :
  reaches hA hB hC a_to_b b_to c_to c1 c2 ->
  reaches hA hB hC a_to_b b_to c_to c2 c3 ->
  reaches hA hB hC a_to_b b_to c_to c1 c3.
Proof.
  intros [k1 H1] [k2 H2]. exists (k1 + k2)%nat. intros extra.
  now rewrite <- Nat.add_assoc, H1, H2.
Qed.

(** Activations with nothing left to do return one after the other. *)
Lemma reaches_unwind (frames : list CFrame) :
  forallb idle frames = true ->
  forall sA sB sC tr,
    reaches hA hB hC a_to_b b_to c_to
            (mkCConfig sA sB sC frames tr false)
            (mkCConfig sA sB sC [] tr false).
Proof.
  induction frames as [|f frames IH]; intros Hf sA sB sC tr.
  - apply reaches_refl.
  - cbn [forallb] in Hf. apply andb_true_iff in Hf as [Hf Hfs].
    eapply reaches_trans; [|apply IH; exact Hfs].
    apply reaches_step.
    destruct f as [[]|[]|[]]; try discriminate Hf; reflexivity.
Qed.

End ChainFacts.

Ltac pipeline_step :=
  eapply reaches_trans;
  [ apply reaches_step; cbn;
    repeat (progress
              (try match goal with
                   | H : advance _ _ = _ |- _ => rewrite H
                   end;
               try match goal with
                   | H : (_ <? _) = _ |- _ => rewrite H
                   end;
               try match goal with
                   | H : (_ =? _) = _ |- _ => rewrite H
                   end;
               cbn));
    reflexivity
  | ].

(** Without a pending PULL the loop of [fromIter] leaves at once. *)
Lemma fromIter_loop_idle (xs : list Val) (s : FromIter.State) :
  FromIter.got1 s = false ->
  advance (FromIter.loop_from xs) s = Finished (FromIter.set_inloop false s).
Proof.
  intros H. destruct xs; cbn; rewrite H; reflexivity.
Qed.

Lemma pipeline_loop (n : nat) (iter : list Val) :
  forall (xs : list Val) (j : nat) (sA : FromIter.State)
         (p : Prog FromIter.State FromIter.Out) (it : list Val) (r : FromIter.Res)
         (tr : list Pipeline.Event) (rest : list Pipeline.Frame),
    (j < n)%nat ->
    advance p sA =
      advance (FromIter.loop_from xs) (FromIter.mkState it true true false r) ->
    exists c2 tail,
      Pipeline.gets_to (Z.of_nat n) iter
        (mkCConfig sA (Take.mkState (Z.of_nat j) FromIter.talkback_ref)
                   (ForEach.mkState Pipeline.take_talkback_ref)
                   (CA p :: rest) tr false)
        c2 /\
      cstack c2 = rest /\ ccrashed c2 = false /\
      ctrace c2 = tr ++ tail /\
      Pipeline.operations tail = firstn (n - j) xs /\
      Pipeline.ends tail = 1%nat /\
      Pipeline.cancels tail =
        if Nat.leb (n - j) (List.length xs) then 1%nat else 0%nat.
Proof.
  unfold Pipeline.gets_to.
  induction xs as [|v xs IH]; intros j sA p it r tr rest Hj Hadv.
  - (* the iterator is exhausted: END goes through *)
    assert (Hlt : (Z.of_nat j <? Z.of_nat n) = true) by (apply Z.ltb_lt; lia).
    eexists. eexists. split.
    { do 5 pipeline_step. apply reaches_refl. }
    cbn. split; [reflexivity|]. split; [reflexivity|].
    split; [rewrite <- !app_assoc; reflexivity|].
    split; [now rewrite firstn_nil|]. split; [reflexivity|].
    destruct (Nat.leb_spec (n - j) 0); [lia | reflexivity].
  - assert (Hlt : (Z.of_nat j <? Z.of_nat n) = true) by (apply Z.ltb_lt; lia).
    destruct (Nat.eq_dec (Datatypes.S j) n) as [Hlast | Hmore].
    + (* the last item: take ends and cancels *)
      assert (Hlt1 : (Z.of_nat j + 1 <? Z.of_nat n) = false) by (apply Z.ltb_ge; lia).
      assert (Heq : (Z.of_nat j + 1 =? Z.of_nat n) = true) by (apply Z.eqb_eq; lia).
      eexists. eexists. split.
      { do 11 pipeline_step.
        apply reaches_step. cbn.
        rewrite fromIter_loop_idle by reflexivity. reflexivity. }
      cbn. split; [reflexivity|]. split; [reflexivity|].
      split; [rewrite <- !app_assoc; reflexivity|].
      replace (n - j)%nat with 1%nat by lia.
      split; [reflexivity|]. split; [reflexivity|]. reflexivity.
    + (* one more turn *)
      assert (Hlt1 : (Z.of_nat j + 1 <? Z.of_nat n) = true) by (apply Z.ltb_lt; lia).
      assert (Heq : (Z.of_nat j + 1 =? Z.of_nat n) = false) by (apply Z.eqb_neq; lia).
      destruct (IH (Datatypes.S j)
                  (FromIter.mkState xs true true false (FromIter.ResValue v))
                  (FromIter.loop_from xs) xs (FromIter.ResValue v)
                  (tr ++ [EA (FromIter.Sink 1 v); EB (Take.Sink 1 v);
                          EC (ForEach.Operation v);
                          EC (ForEach.TalkbackCall Pipeline.take_talkback_ref 1);
                          EB (Take.Up FromIter.talkback_ref 1 VUndef)])
                  rest ltac:(lia) eq_refl)
        as (c2 & tail & Hreach & Hst & Hcr & Htr & Hop & Hen & Hca).
      exists c2.
      exists ([EA (FromIter.Sink 1 v); EB (Take.Sink 1 v);
               EC (ForEach.Operation v);
               EC (ForEach.TalkbackCall Pipeline.take_talkback_ref 1);
               EB (Take.Up FromIter.talkback_ref 1 VUndef)] ++ tail).
      split.
      { do 9 pipeline_step.
        unfold FromIter.set_got1, FromIter.step_iterator, Take.incr_taken.
        cbn [FromIter.iterator FromIter.inloop FromIter.got1 FromIter.completed
             FromIter.res Take.taken Take.sourceTalkback].
        replace (Z.of_nat j + 1) with (Z.of_nat (Datatypes.S j)) by lia.
        rewrite <- !app_assoc. exact Hreach. }
      split; [exact Hst|]. split; [exact Hcr|].
      split; [rewrite Htr, <- app_assoc; reflexivity|].
      replace (n - j)%nat with (Datatypes.S (n - Datatypes.S j)) by lia.
      split; [|split].
      * unfold Pipeline.operations. rewrite flat_map_app.
        change (v :: Pipeline.operations tail = v :: firstn (n - Datatypes.S j) xs).
        now rewrite Hop.
      * unfold Pipeline.ends. rewrite filter_app, length_app. exact Hen.
      * unfold Pipeline.cancels. rewrite filter_app, length_app. exact Hca.
Qed.

(** [forEach(operation)(take(n)(fromIter(iter)))] runs to completion for
    every [n] and every finite sequence [iter]: [operation] is called
    exactly on the first [n] elements of [iter], in order.  For [n >= 1]
    [forEach] receives one END, from [take] after the [n]-th element or
    from [fromIter] when the sequence is shorter, and [fromIter] is
    cancelled once in the first case and not at all in the second.  For
    [n = 0] the PULL of [forEach] is dropped by [take]: nothing is sent, no
    END either. *)
Theorem forEach_over_take_over_fromIter :
  forall (n : nat) (iter : list Val),
    exists fuel, forall extra,
      let c := Pipeline.pipeline (fuel + extra) (Z.of_nat n) iter in
      chalted c = true /\
      Pipeline.operations (ctrace c) = firstn n iter /\
      Pipeline.ends (ctrace c) = (if Nat.eqb n 0 then 0%nat else 1%nat) /\
      Pipeline.cancels (ctrace c) =
        if Nat.leb 1 n && Nat.leb n (List.length iter) then 1%nat else 0%nat.
Proof.
  intros n iter.
  assert (H : exists c2,
             Pipeline.gets_to (Z.of_nat n) iter (Pipeline.start iter) c2 /\
             chalted c2 = true /\
             Pipeline.operations (ctrace c2) = firstn n iter /\
             Pipeline.ends (ctrace c2) = (if Nat.eqb n 0 then 0%nat else 1%nat) /\
             Pipeline.cancels (ctrace c2) =
               if Nat.leb 1 n && Nat.leb n (List.length iter)
               then 1%nat else 0%nat).
  { unfold Pipeline.gets_to, Pipeline.start. destruct n as [|n'].
    - (* take(0): the first pull is dropped *)
      eexists. split; [do 11 pipeline_step; apply reaches_refl|].
      cbn. auto.
    - assert (Hlt : (0 <? Z.of_nat (Datatypes.S n')) = true) by (apply Z.ltb_lt; lia).
      destruct (pipeline_loop (Datatypes.S n') iter iter 0
                  (FromIter.init iter) (FromIter.talkback 1) iter FromIter.ResUndef
                  [EC (ForEach.SourceCall 0); EB Take.SrcInvoke;
                   EA (FromIter.Sink 0 FromIter.talkback_ref);
                   EB Take.SinkStart;
                   EC (ForEach.TalkbackCall Pipeline.take_talkback_ref 1);
                   EB (Take.Up FromIter.talkback_ref 1 VUndef)]
                  [CB Ret; CC Ret; CB Ret; CA Ret; CB Ret; CC Ret]
                  ltac:(lia) ltac:(destruct iter; reflexivity))
        as (c2 & tail & Hreach & Hst & Hcr & Htr & Hop & Hen & Hca).
      destruct c2 as [sA sB sC st tr cr]. cbn in Hst, Hcr, Htr. subst st cr tr.
      exists (mkCConfig sA sB sC []
                ([EC (ForEach.SourceCall 0); EB Take.SrcInvoke;
                  EA (FromIter.Sink 0 FromIter.talkback_ref);
                  EB Take.SinkStart;
                  EC (ForEach.TalkbackCall Pipeline.take_talkback_ref 1);
                  EB (Take.Up FromIter.talkback_ref 1 VUndef)] ++ tail) false).
      split.
      { do 6 pipeline_step.
        eapply reaches_trans; [exact Hreach|].
        apply reaches_unwind. reflexivity. }
      cbn [ctrace chalted cstack ccrashed negb Nat.eqb].
      rewrite Nat.sub_0_r in Hop, Hca.
      split; [reflexivity|]. split; [|split].
      + unfold Pipeline.operations. rewrite flat_map_app. exact Hop.
      + unfold Pipeline.ends. rewrite filter_app, length_app. exact Hen.
      + unfold Pipeline.cancels. rewrite filter_app, length_app. exact Hca. }
  destruct H as (c2 & [fuel Hfuel] & Hh & Hrest).
  exists fuel. intros extra c. subst c. unfold Pipeline.pipeline.
  rewrite Hfuel, crun_stuck; [auto|].
  destruct c2 as [sA sB sC st tr cr]. unfold chalted in Hh. cbn in Hh.
  destruct st; [|discriminate Hh]. apply negb_true_iff in Hh. subst cr.
  reflexivity.
Qed.

(** ** forEach over filter and over skip, over fromIter *)

Ltac chain_step :=
  eapply reaches_trans;
  [ apply reaches_step; cbn;
    repeat (progress
              (try match goal with
                   | H : advance _ _ = _ |- _ => rewrite H
                   end;
               try match goal with
                   | H : _ = true |- _ => rewrite H
                   end;
               try match goal with
                   | H : _ = false |- _ => rewrite H
                   end;
               cbn));
    reflexivity
  | ].

Lemma sieve_filter_loop (condition : Val -> bool) (iter : list Val) :
  forall (xs : list Val) (sA : FromIter.State)
         (p : Prog FromIter.State FromIter.Out) (it : list Val) (r : FromIter.Res)
         tr rest,
    advance p sA =
      advance (FromIter.loop_from xs) (FromIter.mkState it true true false r) ->
    exists c2 tail,
      Sieve.filter_gets_to condition iter
        (mkCConfig sA (Filter.mkState FromIter.talkback_ref)
                   (ForEach.mkState FromIter.talkback_ref)
                   (CA p :: rest) tr false)
        c2 /\
      cstack c2 = rest /\ ccrashed c2 = false /\
      ctrace c2 = tr ++ tail /\
      Sieve.operations tail = filter condition xs /\
      Sieve.filter_ends tail = 1%nat.
Proof.
  unfold Sieve.filter_gets_to.
  induction xs as [|v xs IH]; intros sA p it r tr rest Hadv.
  - eexists. eexists. split.
    { do 5 chain_step. apply reaches_refl. }
    cbn. split; [reflexivity|]. split; [reflexivity|].
    split; [rewrite <- !app_assoc; reflexivity|]. split; reflexivity.
  - destruct (condition v) eqn:Hc.
    + (* the item is passed on, and forEach pulls *)
      destruct (IH (FromIter.mkState xs true true false (FromIter.ResValue v))
                  (FromIter.loop_from xs) xs (FromIter.ResValue v)
                  (tr ++ [EA (FromIter.Sink 1 v); EB (Filter.Sink 1 v);
                          EC (ForEach.Operation v);
                          EC (ForEach.TalkbackCall FromIter.talkback_ref 1)])
                  rest eq_refl)
        as (c2 & tail & Hreach & Hst & Hcr & Htr & Hop & Hen).
      exists c2.
      exists ([EA (FromIter.Sink 1 v); EB (Filter.Sink 1 v);
               EC (ForEach.Operation v);
               EC (ForEach.TalkbackCall FromIter.talkback_ref 1)] ++ tail).
      split.
      { do 7 chain_step.
        unfold FromIter.set_got1, FromIter.step_iterator.
        cbn [FromIter.iterator FromIter.inloop FromIter.got1 FromIter.completed
             FromIter.res].
        rewrite <- !app_assoc. exact Hreach. }
      split; [exact Hst|]. split; [exact Hcr|].
      split; [rewrite Htr, <- app_assoc; reflexivity|]. split.
      * unfold Sieve.operations. rewrite flat_map_app.
        cbn [filter]. rewrite Hc.
        change (v :: Sieve.operations tail = v :: filter condition xs).
        now rewrite Hop.
      * unfold Sieve.filter_ends. rewrite filter_app, length_app. exact Hen.
    + (* the item is dropped, and filter pulls *)
      destruct (IH (FromIter.mkState xs true true false (FromIter.ResValue v))
                  (FromIter.loop_from xs) xs (FromIter.ResValue v)
                  (tr ++ [EA (FromIter.Sink 1 v);
                          EB (Filter.Up FromIter.talkback_ref 1)])
                  rest eq_refl)
        as (c2 & tail & Hreach & Hst & Hcr & Htr & Hop & Hen).
      exists c2.
      exists ([EA (FromIter.Sink 1 v);
               EB (Filter.Up FromIter.talkback_ref 1)] ++ tail).
      split.
      { do 4 chain_step.
        unfold FromIter.set_got1, FromIter.step_iterator.
        cbn [FromIter.iterator FromIter.inloop FromIter.got1 FromIter.completed
             FromIter.res].
        rewrite <- !app_assoc. exact Hreach. }
      split; [exact Hst|]. split; [exact Hcr|].
      split; [rewrite Htr, <- app_assoc; reflexivity|]. split.
      * unfold Sieve.operations. rewrite flat_map_app.
        cbn [filter]. rewrite Hc. exact Hop.
      * unfold Sieve.filter_ends. rewrite filter_app, length_app. exact Hen.
Qed.

Lemma sieve_skip_loop (n : nat) (iter : list Val) :
  forall (xs : list Val) (j : nat) (sA : FromIter.State)
         (p : Prog FromIter.State FromIter.Out) (it : list Val) (r : FromIter.Res)
         tr rest,
    (j <= n)%nat ->
    advance p sA =
      advance (FromIter.loop_from xs) (FromIter.mkState it true true false r) ->
    exists c2 tail,
      Sieve.skip_gets_to (Z.of_nat n) iter
        (mkCConfig sA (Skip.mkState (Z.of_nat j) FromIter.talkback_ref)
                   (ForEach.mkState FromIter.talkback_ref)
                   (CA p :: rest) tr false)
        c2 /\
      cstack c2 = rest /\ ccrashed c2 = false /\
      ctrace c2 = tr ++ tail /\
      Sieve.operations tail = skipn (n - j) xs /\
      Sieve.skip_ends tail = 1%nat.
Proof.
  unfold Sieve.skip_gets_to.
  induction xs as [|v xs IH]; intros j sA p it r tr rest Hj Hadv.
  - eexists. eexists. split.
    { do 5 chain_step. apply reaches_refl. }
    cbn. split; [reflexivity|]. split; [reflexivity|].
    split; [rewrite <- !app_assoc; reflexivity|].
    split; [now rewrite skipn_nil | reflexivity].
  - destruct (Nat.eq_dec j n) as [Hfull | Hless].
    + (* enough was skipped: the item is passed on, and forEach pulls *)
      assert (Hlt : (Z.of_nat j <? Z.of_nat n) = false) by (apply Z.ltb_ge; lia).
      destruct (IH j (FromIter.mkState xs true true false (FromIter.ResValue v))
                  (FromIter.loop_from xs) xs (FromIter.ResValue v)
                  (tr ++ [EA (FromIter.Sink 1 v); EB (Skip.Sink 1 v);
                          EC (ForEach.Operation v);
                          EC (ForEach.TalkbackCall FromIter.talkback_ref 1)])
                  rest Hj eq_refl)
        as (c2 & tail & Hreach & Hst & Hcr & Htr & Hop & Hen).
      exists c2.
      exists ([EA (FromIter.Sink 1 v); EB (Skip.Sink 1 v);
               EC (ForEach.Operation v);
               EC (ForEach.TalkbackCall FromIter.talkback_ref 1)] ++ tail).
      split.
      { do 7 chain_step.
        unfold FromIter.set_got1, FromIter.step_iterator.
        cbn [FromIter.iterator FromIter.inloop FromIter.got1 FromIter.completed
             FromIter.res].
        rewrite <- !app_assoc. exact Hreach. }
      split; [exact Hst|]. split; [exact Hcr|].
      split; [rewrite Htr, <- app_assoc; reflexivity|].
      replace (n - j)%nat with 0%nat in * by lia. split.
      * unfold Sieve.operations. rewrite flat_map_app.
        change (v :: Sieve.operations tail = v :: xs).
        now rewrite Hop.
      * unfold Sieve.skip_ends. rewrite filter_app, length_app. exact Hen.
    + (* the item is dropped, and skip pulls *)
      assert (Hlt : (Z.of_nat j <? Z.of_nat n) = true) by (apply Z.ltb_lt; lia).
      destruct (IH (Datatypes.S j)
                  (FromIter.mkState xs true true false (FromIter.ResValue v))
                  (FromIter.loop_from xs) xs (FromIter.ResValue v)
                  (tr ++ [EA (FromIter.Sink 1 v);
                          EB (Skip.Up FromIter.talkback_ref 1)])
                  rest ltac:(lia) eq_refl)
        as (c2 & tail & Hreach & Hst & Hcr & Htr & Hop & Hen).
      exists c2.
      exists ([EA (FromIter.Sink 1 v);
               EB (Skip.Up FromIter.talkback_ref 1)] ++ tail).
      split.
      { do 4 chain_step.
        unfold FromIter.set_got1, FromIter.step_iterator.
        cbn [FromIter.iterator FromIter.inloop FromIter.got1 FromIter.completed
             FromIter.res].
        replace (Z.of_nat j + 1) with (Z.of_nat (Datatypes.S j)) by lia.
        rewrite <- !app_assoc. exact Hreach. }
      split; [exact Hst|]. split; [exact Hcr|].
      split; [rewrite Htr, <- app_assoc; reflexivity|].
      replace (n - j)%nat with (Datatypes.S (n - Datatypes.S j)) by lia. split.
      * unfold Sieve.operations. rewrite flat_map_app. exact Hop.
      * unfold Sieve.skip_ends. rewrite filter_app, length_app. exact Hen.
Qed.

Section ChainHalts.
Context {SA IA OA SB IB OB SC IC OC : Type}.
Variable hA : IA -> Prog SA OA.
Variable hB : IB -> Prog SB OB.
Variable hC : IC -> Prog SC OC.
Variable a_to_b : OA -> IB.
Variable b_to : OB -> option (IA + IC).
Variable c_to : OC -> option (IA + IB).

(** A run that gets to a halted configuration stays there. *)
Lemma reaches_halted (c1 c2 : CConfig) :
  reaches hA hB hC a_to_b b_to c_to c1 c2 ->
  chalted c2 = true ->
  exists fuel, forall extra,
    crun hA hB hC a_to_b b_to c_to (fuel + extra) c1 = c2.
Proof.
  intros [fuel H] Hh. exists fuel. intros extra.
  rewrite H. apply crun_stuck.
  destruct c2 as [sA sB sC st tr cr]. unfold chalted in Hh. cbn in Hh.
  destruct st; [|discriminate Hh]. apply negb_true_iff in Hh. subst cr.
  reflexivity.
Qed.

End ChainHalts.

(** [forEach(operation)(filter(condition)(fromIter(iter)))] runs to
    completion for every condition and every finite sequence: [operation]
    is called exactly on the elements that satisfy [condition], in order,
    and one END reaches [forEach].  The PULL that [filter] sends for an
    element it drops keeps the loop of [fromIter] going. *)
Theorem forEach_over_filter_over_fromIter :
  forall (condition : Val -> bool) (iter : list Val),
    exists fuel, forall extra,
      let c := Sieve.filtered (fuel + extra) condition iter in
      chalted c = true /\
      Sieve.operations (ctrace c) = filter condition iter /\
      Sieve.filter_ends (ctrace c) = 1%nat.
Proof.
  intros condition iter.
  destruct (sieve_filter_loop condition iter iter
              (FromIter.init iter) (FromIter.talkback 1) iter FromIter.ResUndef
              [EC (ForEach.SourceCall 0); EB Filter.SrcInvoke;
               EA (FromIter.Sink 0 FromIter.talkback_ref);
               EB (Filter.Sink 0 FromIter.talkback_ref);
               EC (ForEach.TalkbackCall FromIter.talkback_ref 1)]
              [CC Ret; CB Ret; CA Ret; CB Ret; CC Ret]
              ltac:(destruct iter; reflexivity))
    as (c2 & tail & Hreach & Hst & Hcr & Htr & Hop & Hen).
  destruct c2 as [sA sB sC st tr cr]. cbn in Hst, Hcr, Htr. subst st cr tr.
  unfold Sieve.filter_gets_to in Hreach.
  destruct (reaches_halted (FromIter.handler iter) (Sieve.filter_ condition)
              ForEach.handler Sieve.to_filter Sieve.from_filter
              Sieve.sink_of_filter
              (mkCConfig (FromIter.init iter) Filter.init ForEach.init
                         [CC ForEach.main] [] false)
              (mkCConfig sA sB sC []
                 ([EC (ForEach.SourceCall 0); EB Filter.SrcInvoke;
                   EA (FromIter.Sink 0 FromIter.talkback_ref);
                   EB (Filter.Sink 0 FromIter.talkback_ref);
                   EC (ForEach.TalkbackCall FromIter.talkback_ref 1)] ++ tail)
                 false))
    as [fuel Hfuel]; [|reflexivity|].
  { do 5 chain_step.
    eapply reaches_trans; [exact Hreach|].
    apply reaches_unwind. reflexivity. }
  exists fuel. intros extra c. subst c. unfold Sieve.filtered.
  rewrite Hfuel. cbn [ctrace chalted cstack ccrashed negb].
  split; [reflexivity|]. split.
  - unfold Sieve.operations. rewrite flat_map_app. exact Hop.
  - unfold Sieve.filter_ends. rewrite filter_app, length_app. exact Hen.
Qed.

(** [forEach(operation)(skip(n)(fromIter(iter)))] runs to completion for
    every [n] and every finite sequence: [operation] is called exactly on
    the elements after the first [n], in order, and one END reaches
    [forEach]. *)
Theorem forEach_over_skip_over_fromIter :
  forall (n : nat) (iter : list Val),
    exists fuel, forall extra,
      let c := Sieve.skipped (fuel + extra) (Z.of_nat n) iter in
      chalted c = true /\
      Sieve.operations (ctrace c) = skipn n iter /\
      Sieve.skip_ends (ctrace c) = 1%nat.
Proof.
  intros n iter.
  destruct (sieve_skip_loop n iter iter 0
              (FromIter.init iter) (FromIter.talkback 1) iter FromIter.ResUndef
              [EC (ForEach.SourceCall 0); EB Skip.SrcInvoke;
               EA (FromIter.Sink 0 FromIter.talkback_ref);
               EB (Skip.Sink 0 FromIter.talkback_ref);
               EC (ForEach.TalkbackCall FromIter.talkback_ref 1)]
              [CC Ret; CB Ret; CA Ret; CB Ret; CC Ret]
              ltac:(lia) ltac:(destruct iter; reflexivity))
    as (c2 & tail & Hreach & Hst & Hcr & Htr & Hop & Hen).
  destruct c2 as [sA sB sC st tr cr]. cbn in Hst, Hcr, Htr. subst st cr tr.
  unfold Sieve.skip_gets_to in Hreach. rewrite Nat.sub_0_r in Hop.
  destruct (reaches_halted (FromIter.handler iter) (Sieve.skip_ (Z.of_nat n))
              ForEach.handler Sieve.to_skip Sieve.from_skip Sieve.sink_of_skip
              (mkCConfig (FromIter.init iter) Skip.init ForEach.init
                         [CC ForEach.main] [] false)
              (mkCConfig sA sB sC []
                 ([EC (ForEach.SourceCall 0); EB Skip.SrcInvoke;
                   EA (FromIter.Sink 0 FromIter.talkback_ref);
                   EB (Skip.Sink 0 FromIter.talkback_ref);
                   EC (ForEach.TalkbackCall FromIter.talkback_ref 1)] ++ tail)
                 false))
    as [fuel Hfuel]; [|reflexivity|].
  { do 5 chain_step.
    eapply reaches_trans; [exact Hreach|].
    apply reaches_unwind. reflexivity. }
  exists fuel. intros extra c. subst c. unfold Sieve.skipped.
  rewrite Hfuel. cbn [ctrace chalted cstack ccrashed negb].
  split; [reflexivity|]. split.
  - unfold Sieve.operations. rewrite flat_map_app. exact Hop.
  - unfold Sieve.skip_ends. rewrite filter_app, length_app. exact Hen.
Qed.

(** ** The talkback of merge *)

Lemma merge_talkback_from (t : Z) (s : Merge.State) (idx : list nat) :
  forallb (fun i => callable (nth i (Merge.sourceTalkbacks s) VUndef))
          (filter (fun i => truthy (nth i (Merge.sourceTalkbacks s) VUndef)) idx)
    = true ->
  play (Merge.talkback_from idx t) s [] =
    (map (fun i => (Merge.Up i (nth i (Merge.sourceTalkbacks s) VUndef) t, s))
         (filter (fun i => truthy (nth i (Merge.sourceTalkbacks s) VUndef)) idx),
     Some s).
Proof.
  induction idx as [|i idx IH]; intros Hwf; [reflexivity|].
  cbn [Merge.talkback_from play filter] in *.
  destruct (truthy (nth i (Merge.sourceTalkbacks s) VUndef)) eqn:Et.
  - cbn [forallb] in Hwf. apply andb_true_iff in Hwf as [Hc Hwf].
    rewrite Hc. cbn [play disturb tl fst snd map]. now rewrite (IH Hwf).
  - exact (IH Hwf).
Qed.

Lemma forallb_agree {A} (f g : A -> bool) (l : list A) :
  (forall x, In x l -> f x = g x) -> forallb f l = forallb g l.
Proof.
  induction l as [|x l IH]; intros H; [reflexivity|]. cbn.
  rewrite (H x (or_introl eq_refl)), IH; [reflexivity|].
  intros y Hy. apply H. now right.
Qed.

Definition merge_slots_invariant (n : nat)
           (c : Config (S := Merge.State) (O := Merge.Out))
           (log : list (Move (I := Merge.In) * option Merge.Out)) : Prop :=
  crashed c = false ->
  Forall MergeLog.in_a_loop (stack c) /\
  List.length (Merge.sourceTalkbacks (state c)) = n /\
  forall j, (j < n)%nat ->
    nth j (Merge.sourceTalkbacks (state c)) VUndef =
      MergeTalkback.slot j (map fst log).

Lemma merge_slots_step (n : nat) (c : Config)
      (log : list (Move (I := Merge.In) * option Merge.Out)) (m : Move) :
  Merge.possible n m = true ->
  merge_slots_invariant n c log ->
  merge_slots_invariant n (fst (move (Merge.handler n) c m))
                        (log ++ [(m, snd (move (Merge.handler n) c m))]).
Proof.
  intros Hpos Hinv Hnc1.
  pose proof (move_not_crashed _ _ _ Hnc1) as Hnc.
  destruct (Hinv Hnc) as (Hst & Hlen & Hslot). clear Hinv.
  destruct c as [s st cr]. cbn [crashed stack state] in *. subst cr.
  rewrite map_app. cbn [map fst].
  assert (Hsn : forall j, MergeTalkback.slot j (map fst log ++ [m]) =
                          MergeTalkback.slot_step j (MergeTalkback.slot j (map fst log)) m).
  { intros j. apply fold_left_snoc. }
  assert (Hloop : forall p rest,
             MergeLog.in_a_loop p -> Forall MergeLog.in_a_loop rest ->
             (forall j, MergeTalkback.slot_step j (MergeTalkback.slot j (map fst log)) m
                        = MergeTalkback.slot j (map fst log)) ->
             crashed (fst (settle (advance p s) rest)) = false ->
             Forall MergeLog.in_a_loop (stack (fst (settle (advance p s) rest))) /\
             List.length (Merge.sourceTalkbacks
                            (state (fst (settle (advance p s) rest)))) = n /\
             forall j, (j < n)%nat ->
               nth j (Merge.sourceTalkbacks (state (fst (settle (advance p s) rest))))
                   VUndef = MergeTalkback.slot j (map fst log ++ [m])).
  { intros p rest Hp Hrest Hsame Hc.
    pose proof (merge_advance_loop p s Hp) as Hadv.
    destruct (advance p s) as [s' | s' | s' o k]; cbn in *.
    - subst s'. split; [exact Hrest|]. split; [exact Hlen|].
      intros j Hj. rewrite Hsn, Hsame. now apply Hslot.
    - discriminate Hc.
    - destruct Hadv as (-> & Hk & _). split; [now constructor|].
      split; [exact Hlen|].
      intros j Hj. rewrite Hsn, Hsame. now apply Hslot. }
  unfold move in *. cbn [crashed state stack] in *.
  assert (Hret : MergeLog.in_a_loop Ret) by (now left).
  destruct m as [[i t d|t]|].
  - cbn [Merge.possible] in Hpos. apply Nat.ltb_lt in Hpos.
    assert (Hset : forall v j, (j < n)%nat ->
               nth j (set_nth i v (Merge.sourceTalkbacks s)) VUndef =
                 if Nat.eqb i j then v else MergeTalkback.slot j (map fst log)).
    { intros v j Hj. destruct (Nat.eqb_spec i j) as [->|Hne].
      - apply nth_set_nth_eq. lia.
      - rewrite nth_set_nth_neq by exact Hne. now apply Hslot. }
    cbn [Merge.handler] in *. unfold Merge.from_source in *.
    destruct (t =? 0) eqn:E0; [|destruct (t =? 2) eqn:E2].
    + cbn in *. destruct (Merge.startCount s + 1 =? 1); cbn in *;
        (split; [auto | split; [now rewrite set_nth_length |]]);
        intros j Hj; rewrite Hsn; cbn [MergeTalkback.slot_step]; rewrite E0;
        now apply Hset.
    + cbn in *. destruct (Merge.endCount s + 1 =? Z.of_nat n); cbn in *;
        (split; [auto | split; [now rewrite set_nth_length |]]);
        intros j Hj; rewrite Hsn; cbn [MergeTalkback.slot_step]; rewrite E0, E2;
        now apply Hset.
    + cbn in *. split; [auto | split; [exact Hlen |]].
      intros j Hj. rewrite Hsn. cbn [MergeTalkback.slot_step]. rewrite E0, E2.
      destruct (Nat.eqb i j); now apply Hslot.
  - apply Hloop; auto.
    cbn [Merge.handler]. unfold Merge.talkback. destruct (t =? 0); [now left|].
    right. left. now exists (List.seq 0 n), t.
  - destruct st as [|p rest].
    + cbn. split; [auto | split; [exact Hlen|]].
      intros j Hj. rewrite Hsn. now apply Hslot.
    + apply Hloop; auto.
      * exact (Forall_inv Hst).
      * exact (Forall_inv_tail Hst).
Qed.

(** After any run of [merge(...sources)] from its start in which nothing
    was thrown, slot [j] of [sourceTalkbacks] holds what the latest START
    of source [j] brought, and [undefined] if source [j] has not greeted
    or has ended since. *)
Lemma merge_slots_run (n : nat) (ms : list Move) :
  forallb (Merge.possible n) ms = true ->
  crashed (fst (run (Merge.handler n)
                    (fst (boot (Merge.body n 0) (Merge.init n))) ms)) = false ->
  forall j, (j < n)%nat ->
    nth j (Merge.sourceTalkbacks
             (state (fst (run (Merge.handler n)
                              (fst (boot (Merge.body n 0) (Merge.init n))) ms))))
        VUndef = MergeTalkback.slot j ms.
Proof.
  intros Hpos Hnc.
  pose proof (run_invariant (Merge.handler n) (fun m => Merge.possible n m = true)
                (merge_slots_invariant n)
                (fun c log m Hm H => merge_slots_step n c log m Hm H)
                (fst (boot (Merge.body n 0) (Merge.init n)))) as H.
  assert (H0 : merge_slots_invariant n
                 (fst (boot (Merge.body n 0) (Merge.init n))) []).
  { intros Hc. unfold boot in *. cbn [Merge.body Z.eqb negb] in *.
    pose proof (merge_advance_loop (Merge.invoke_from (List.seq 0 n)) (Merge.init n)
                  (or_intror (or_intror (ex_intro _ _ eq_refl)))) as Hadv.
    assert (Hinit : List.length (Merge.sourceTalkbacks (Merge.init n)) = n /\
                    forall j, (j < n)%nat ->
                      nth j (Merge.sourceTalkbacks (Merge.init n)) VUndef =
                        MergeTalkback.slot j []).
    { cbn. unfold new_Array. split; [apply repeat_length|].
      intros j _. apply nth_repeat. }
    destruct (advance _ _) as [s' | s' | s' o k]; cbn in *.
    - subst s'. split; [constructor | exact Hinit].
    - discriminate Hc.
    - destruct Hadv as (-> & Hk & _).
      split; [constructor; [exact Hk | constructor] | exact Hinit]. }
  assert (Hok : Forall (fun m => Merge.possible n m = true) ms).
  { apply Forall_forall. intros m Hm. rewrite forallb_forall in Hpos.
    now apply Hpos. }
  destruct (H H0 ms Hok Hnc) as (_ & _ & Hslot).
  rewrite run_moves in Hslot. exact Hslot.
Qed.

(** The talkback that [merge] hands downstream, called with anything but
    START after any run of [merge(...sources)] from its start in which
    nothing was thrown, while no source interferes: the request is passed
    to every source that has greeted and not ended since, on the talkback
    that its latest START brought, in the order of the arguments of
    [merge], and to no other source; the variables of [merge] stay as
    they are. *)
Theorem merge_talkback_reaches_the_live_sources :
  forall (n : nat) (t : Z) (ms : list Move),
    t <> 0 ->
    forallb (Merge.possible n) ms = true ->
    let r := run (Merge.handler n)
                 (fst (boot (Merge.body n 0) (Merge.init n))) ms in
    crashed (fst r) = false ->
    MergeTalkback.well_formed n ms = true ->
    play (Merge.handler n (Merge.Tb t)) (state (fst r)) [] =
      (map (fun i => (Merge.Up i (MergeTalkback.slot i ms) t, state (fst r)))
           (MergeTalkback.live n ms),
       Some (state (fst r))).
Proof.
  intros n t ms Ht Hpos r Hnc Hwf.
  pose proof (merge_slots_run n ms Hpos Hnc) as Hslot. fold r in Hslot.
  cbn [Merge.handler]. unfold Merge.talkback.
  apply Z.eqb_neq in Ht. rewrite Ht.
  unfold MergeTalkback.well_formed, MergeTalkback.live in *.
  assert (Hf : filter (fun i => truthy (nth i (Merge.sourceTalkbacks (state (fst r)))
                                            VUndef)) (List.seq 0 n) =
               filter (fun i => truthy (MergeTalkback.slot i ms)) (List.seq 0 n)).
  { apply filter_ext_in. intros i Hi. apply in_seq in Hi. rewrite Hslot by lia.
    reflexivity. }
  assert (Hin : forall i,
             In i (filter (fun i => truthy (MergeTalkback.slot i ms)) (List.seq 0 n)) ->
             nth i (Merge.sourceTalkbacks (state (fst r))) VUndef =
               MergeTalkback.slot i ms).
  { intros i Hi. apply filter_In in Hi as [Hi _]. apply in_seq in Hi.
    apply Hslot. lia. }
  rewrite merge_talkback_from.
  - rewrite Hf. f_equal. apply map_ext_in. intros i Hi. now rewrite (Hin i Hi).
  - rewrite Hf. rewrite <- Hwf. apply forallb_agree.
    intros i Hi. now rewrite (Hin i Hi).
Qed.

Lemma merge_talkback_reaches_the_live_sources_witness :
  let r := run (Merge.handler 3)
               (fst (boot (Merge.body 3 0) (Merge.init 3))) MergeTalkback.one_live in
  crashed (fst r) = false /\
  calls (Merge.handler 3 (Merge.Tb 1)) (state (fst r)) [] =
    [Merge.Up 0 (VFn 1) 1].
Proof.
  cbv zeta. split; [reflexivity|].
  unfold calls.
  rewrite (merge_talkback_reaches_the_live_sources 3 1 MergeTalkback.one_live
             ltac:(discriminate) eq_refl eq_refl eq_refl).
  reflexivity.
Defined.

Lemma take_forwards_at_most_max_witness :
  0 <= 2 /\
  Z.of_nat (List.length
              (Take.forwarded
                 (snd (run (Take.handler 2)
                         (fst (boot (Take.body 0) Take.init))
                         Take.sync_pull_moves)))) <= 2.
Proof.
  split; [discriminate|].
  exact (proj1 (take_forwards_at_most_max 2 Take.sync_pull_moves
                  ltac:(discriminate))).
Defined.
